(** * Bulk ingestion of stock-intake records

    A shallow embedding of [bulk_create_abastecimentos]
    (app/routers/abastecimentos.py, the POST /api/abastecimentos/bulk
    endpoint) and the properties of its per-record pipeline:
    product resolution, defensive de-duplication, ledger write with stock
    update, and the single commit-or-rollback that ends the batch.

    Python's [float] is IEEE binary64, embedded as Rocq's primitive
    [float]; [datetime] values are abstract instants ([Z]); [uuid.UUID]
    values are their 128-bit integer ([N]).  The storage session is an
    explicit state threaded through a small state-and-exception monad. *)

From Stdlib Require Import ZArith NArith List String Ascii Bool Lia PrimFloat.
Import ListNotations.

Local Open Scope string_scope.

(** ** Data model *)

Definition UUID := N.
Definition datetime := Z.

(** [AbastecimentoIn] (pydantic model): one submitted record. *)
Record AbastecimentoIn := {
  local_id : option string;
  produto_id : option string;
  produto_codigo : option string;
  usuario_id : option string;
  quantidade : float;
  custo_unitario : float;
  total_custo : option float;
  observacao : option string;
  created_at : option datetime
}.

(** The columns of [Produto] that the endpoint reads or writes. The model
    class lives in app.db.models, outside the sources at hand; [estoque]
    and [updated_at] are taken as nullable, as the endpoint's own
    [getattr(..., 0) or 0] guards for. *)
Record Produto := {
  p_id : UUID;
  p_codigo : string;
  p_estoque : option float;
  p_updated_at : option datetime
}.

(** A row of [Abastecimento], with the keyword arguments of its
    constructor call plus the two columns filled by defaults: the primary
    key and [created_at]. *)
Record Abastecimento := {
  a_id : UUID;
  a_produto_id : UUID;
  a_usuario_id : option UUID;
  a_quantidade : float;
  a_custo_unitario : float;
  a_total : float;
  a_total_custo : float;
  a_observacao : option string;
  a_created_at : option datetime
}.

(** Durable tables, as committed. *)
Record Database := {
  tb_produtos : list Produto;
  tb_abastecimentos : list Abastecimento
}.

(** The [AsyncSession] of one request. [produtos] holds the session's
    [Produto] objects: a query returns the same object for the same row, so
    an attribute assignment on a resolved product is seen by every later
    record of the batch. [abastecimentos] is the ledger as the open
    transaction sees it, [pending] the objects handed to [db.add] and not
    flushed yet. [clock] and [next_id] feed [datetime.utcnow], the
    [created_at] default and the primary-key default. *)
Record Session := {
  produtos : list Produto;
  abastecimentos : list Abastecimento;
  pending : list Abastecimento;
  clock : datetime;
  next_id : UUID
}.

Definition set_produtos (ps : list Produto) (s : Session) : Session :=
  {| produtos := ps; abastecimentos := abastecimentos s;
     pending := pending s; clock := clock s; next_id := next_id s |}.

Definition set_abastecimentos (rs : list Abastecimento) (s : Session) : Session :=
  {| produtos := produtos s; abastecimentos := rs;
     pending := pending s; clock := clock s; next_id := next_id s |}.

Definition set_pending (ps : list Abastecimento) (s : Session) : Session :=
  {| produtos := produtos s; abastecimentos := abastecimentos s;
     pending := ps; clock := clock s; next_id := next_id s |}.

Definition set_clock (t : datetime) (s : Session) : Session :=
  {| produtos := produtos s; abastecimentos := abastecimentos s;
     pending := pending s; clock := t; next_id := next_id s |}.

Definition set_next_id (n : UUID) (s : Session) : Session :=
  {| produtos := produtos s; abastecimentos := abastecimentos s;
     pending := pending s; clock := clock s; next_id := n |}.

(** ** Exceptions and the session monad *)

Inductive exn :=
| ValueError (msg : string)
| MultipleResultsFound
| StorageError (msg : string).

(** [str(e)] *)
Definition exn_str (e : exn) : string :=
  match e with
  | ValueError msg => msg
  | MultipleResultsFound =>
      "Multiple rows were found when one or none was required"
  | StorageError msg => msg
  end.

Inductive result (A : Type) :=
| Ok (a : A)
| Raise (e : exn).
Arguments Ok {A} a.
Arguments Raise {A} e.

(** A computation reads and updates the session and either returns or
    raises; what it did to the session before raising stays done. *)
Definition M (A : Type) := Session -> result A * Session.

Definition ret {A} (a : A) : M A := fun s => (Ok a, s).

Definition raise {A} (e : exn) : M A := fun s => (Raise e, s).

Definition bind {A B} (m : M A) (k : A -> M B) : M B :=
  fun s => match m s with
           | (Ok a, s') => k a s'
           | (Raise e, s') => (Raise e, s')
           end.

Notation "x <- m ;; k" := (bind m (fun x => k))
  (at level 61, m at next level, right associativity).
Notation "m ;;; k" := (bind m (fun _ => k))
  (at level 61, right associativity).

Definition modify (f : Session -> Session) : M unit := fun s => (Ok tt, f s).

(** [try: body  except ValueError: handler] *)
Definition try_except_ValueError {A} (body handler : M A) : M A :=
  fun s => match body s with
           | (Raise (ValueError _), s') => handler s'
           | r => r
           end.

(** [try: body  except Exception: handler] *)
Definition try_except {A} (body handler : M A) : M A :=
  fun s => match body s with
           | (Raise _, s') => handler s'
           | r => r
           end.

(** ** Storage calls

    The awaited calls of one record, each a point where the storage layer
    may fail. A fault plan says which of them raise, and with what message.
    A call that raises has had no effect, and what the calls after it do
    is again for the plan to say: the endpoint itself swallows a failed
    de-duplication lookup and goes on to write, and records a conflict and
    goes on to the next record.

    For a failed [flush] the session has a rule of its own, which a plan
    has to follow to describe a request: the session rolls its transaction
    back and, until [rollback] is called, refuses every other call, so
    that the calls that remain raise and so does the commit
    ([sessao_recusa] below). What a failed flush leaves in the session is
    then never read again. The statements about a failed write are made
    for the back-fill, the flush having worked. *)
Inductive DbCall :=
| SelectProdutoById
| SelectProdutoByCodigo
| SelectDuplicado
| Flush
| UpdateCreatedAt.

Definition Faults := DbCall -> option string.

Definition no_faults : Faults := fun _ => None.

Definition await {A} (fp : Faults) (c : DbCall) (op : M A) : M A :=
  match fp c with
  | Some msg => raise (StorageError msg)
  | None => op
  end.

(** [Result.scalar_one_or_none()] *)
Definition scalar_one_or_none {A} (rows : list A) : M (option A) :=
  match rows with
  | [] => ret None
  | [x] => ret (Some x)
  | _ => raise MultipleResultsFound
  end.

(** The objects of a list that satisfy [f], each with its position: the
    position is the identity of the [Produto] object in the session. *)
Fixpoint where_from {A} (f : A -> bool) (i : nat) (l : list A) : list (nat * A) :=
  match l with
  | [] => []
  | x :: r => if f x then (i, x) :: where_from f (S i) r
              else where_from f (S i) r
  end.

(** [select(Produto).where(cond)] *)
Definition select_produto (cond : Produto -> bool) : M (list (nat * Produto)) :=
  fun s => (Ok (where_from cond 0 (produtos s)), s).

(** [datetime.utcnow()], also the server-side [created_at] default: reads
    the clock, which then moves on. *)
Definition utcnow : M datetime :=
  fun s => (Ok (clock s), set_clock (clock s + 1)%Z s).

(** The primary-key default of a new [Abastecimento]. *)
Definition fresh_id : M UUID :=
  fun s => (Ok (next_id s), set_next_id (next_id s + 1)%N s).

Definition stamp (t : datetime) (a : Abastecimento) : Abastecimento :=
  {| a_id := a_id a; a_produto_id := a_produto_id a;
     a_usuario_id := a_usuario_id a; a_quantidade := a_quantidade a;
     a_custo_unitario := a_custo_unitario a; a_total := a_total a;
     a_total_custo := a_total_custo a; a_observacao := a_observacao a;
     a_created_at := Some t |}.

(** [db.add(abast)] *)
Definition db_add (a : Abastecimento) : M unit :=
  modify (fun s => set_pending (pending s ++ [a]) s).

(** What a flush does: the pending objects become rows of the open
    transaction, [created_at] set by its default. *)
Definition flush_pending (s : Session) : Session :=
  match pending s with
  | [] => s
  | ps => set_pending []
            (set_abastecimentos
               (abastecimentos s ++ map (stamp (clock s)) ps)
               (set_clock (clock s + 1)%Z s))
  end.

(** [Abastecimento.__table__.update().where(id == i).values(created_at = t)] *)
Definition update_created_at (i : UUID) (t : datetime) (s : Session) : Session :=
  set_abastecimentos
    (map (fun a => if (a_id a =? i)%N then stamp t a else a) (abastecimentos s)) s.

(** [x.attr = f(x.attr)] on the session object at position [k]. *)
Fixpoint alter_nth {A} (f : A -> A) (k : nat) (l : list A) {struct l}
  : list A :=
  match l, k with
  | [], _ => []
  | x :: r, O => f x :: r
  | x :: r, S k' => x :: alter_nth f k' r
  end.

(** [float(getattr(produto_obj, "estoque", 0) or 0)]: a missing stock and
    a zero stock both read as zero. *)
Definition estoque_or_0 (e : option float) : float :=
  match e with
  | None => 0%float
  | Some x => if (x =? 0)%float then 0%float else x
  end.

(** [produto_obj.estoque = float(... or 0) + qtd] *)
Definition entrada (qtd : float) (p : Produto) : Produto :=
  {| p_id := p_id p; p_codigo := p_codigo p;
     p_estoque := Some (estoque_or_0 (p_estoque p) + qtd)%float;
     p_updated_at := p_updated_at p |}.

(** [setattr(produto_obj, 'updated_at', t)] *)
Definition touch (t : datetime) (p : Produto) : Produto :=
  {| p_id := p_id p; p_codigo := p_codigo p;
     p_estoque := p_estoque p; p_updated_at := Some t |}.

Definition alter_produto (f : Produto -> Produto) (k : nat) : M unit :=
  modify (fun s => set_produtos (alter_nth f k (produtos s)) s).

(** ** The response *)

Inductive PyVal :=
| PyNone
| PyStr (s : string).

Definition py_opt (o : option string) : PyVal :=
  match o with
  | Some s => PyStr s
  | None => PyNone
  end.

(** A [dict] literal with string keys, in the order written. *)
Definition dict := list (string * PyVal).

Fixpoint dict_get (k : string) (d : dict) : option PyVal :=
  match d with
  | [] => None
  | (k', v) :: r => if String.eqb k' k then Some v else dict_get k r
  end.

(** The three accumulators of the loop, which are also the response body. *)
Record Response := {
  inserted : nat;
  accepted : list string;
  conflicts : list dict
}.

(** How the body of the loop ends for one record. *)
Inductive Outcome :=
| Conflito (c : dict)    (* conflicts.append(c) *)
| Duplicado              (* de-duplication hit: token accepted, continue *)
| Inserido.              (* inserted += 1, token accepted *)

Definition conflito_produto (item : AbastecimentoIn) : dict :=
  [ ("reason", PyStr "produto_nao_encontrado");
    ("produto_id", py_opt (produto_id item));
    ("produto_codigo", py_opt (produto_codigo item)) ].

Definition conflito_interno (ie : exn) (item : AbastecimentoIn) : dict :=
  [ ("reason", PyStr "erro_interno");
    ("message", PyStr (exn_str ie));
    ("local_id", py_opt (local_id item)) ].

(** [if item.local_id is not None: accepted.append(str(item.local_id))] *)
Definition accept (item : AbastecimentoIn) (acc : list string) : list string :=
  match local_id item with
  | Some l => acc ++ [l]
  | None => acc
  end.

Definition record_outcome (item : AbastecimentoIn) (o : Outcome) (r : Response) : Response :=
  match o with
  | Conflito c =>
      {| inserted := inserted r; accepted := accepted r;
         conflicts := conflicts r ++ [c] |}
  | Duplicado =>
      {| inserted := inserted r; accepted := accept item (accepted r);
         conflicts := conflicts r |}
  | Inserido =>
      {| inserted := S (inserted r); accepted := accept item (accepted r);
         conflicts := conflicts r |}
  end.

(** [if s:] on an optional string: [None] and the empty string are false. *)
Definition truthy (o : option string) : option string :=
  match o with
  | Some EmptyString => None
  | _ => o
  end.

(** ** The endpoint *)

Section Endpoint.

(** [uuid.UUID(text)]: the parsed identifier, or [None] where Python raises
    [ValueError]. *)
Variable parse_uuid : string -> option UUID.

Definition uuid_UUID (text : string) : M UUID :=
  match parse_uuid text with
  | Some u => ret u
  | None => raise (ValueError "badly formed hexadecimal UUID string")
  end.

(** Lines 137-143: the lookup by identifier. A text that is no UUID makes
    [uuid.UUID] raise [ValueError], which leaves [produto_obj] at [None]. *)
Definition buscar_por_id (fp : Faults) (item : AbastecimentoIn)
  : M (option (nat * Produto)) :=
  match truthy (produto_id item) with
  | Some text =>
      try_except_ValueError
        (pid <- uuid_UUID text ;;
         res <- await fp SelectProdutoById
                  (select_produto (fun p => (p_id p =? pid)%N)) ;;
         scalar_one_or_none res)
        (ret None)
  | None => ret None
  end.

(** Lines 144-146: the lookup by code, when a code was sent. *)
Definition buscar_por_codigo (fp : Faults) (item : AbastecimentoIn)
  : M (option (nat * Produto)) :=
  match truthy (produto_codigo item) with
  | Some codigo =>
      res <- await fp SelectProdutoByCodigo
               (select_produto (fun p => String.eqb (p_codigo p) codigo)) ;;
      scalar_one_or_none res
  | None => ret None
  end.

(** Lines 136-146: resolve the product by identifier, then by code. *)
Definition resolver_produto (fp : Faults) (item : AbastecimentoIn)
  : M (option (nat * Produto)) :=
  produto_obj <- buscar_por_id fp item ;;
  match produto_obj with
  | Some _ => ret produto_obj
  | None => buscar_por_codigo fp item
  end.

(** Lines 156-161: a malformed actor identifier becomes [None]. *)
Definition resolver_usuario (item : AbastecimentoIn) : option UUID :=
  match truthy (usuario_id item) with
  | Some text => parse_uuid text
  | None => None
  end.

(** [item.total_custo if item.total_custo is not None else qtd * cu] *)
Definition total_custo_or_default (item : AbastecimentoIn) : float :=
  match total_custo item with
  | Some tc => tc
  | None => (quantidade item * custo_unitario item)%float
  end.

(** The [where] clauses of the de-duplication query (lines 179-190). The
    numeric columns are compared as floats are: a NaN equals nothing. *)
Definition mesma_chave (pid : UUID) (usuario_uuid : option UUID)
    (qtd_f cu_f tc_f : float) (ts : datetime) (a : Abastecimento) : bool :=
  (a_produto_id a =? pid)%N
  && (a_quantidade a =? qtd_f)%float
  && (a_custo_unitario a =? cu_f)%float
  && (a_total_custo a =? tc_f)%float
  && match a_created_at a with
     | Some t => (t =? ts)%Z
     | None => false
     end
  && match usuario_uuid, a_usuario_id a with
     | None, None => true
     | Some u, Some v => (v =? u)%N
     | _, _ => false
     end.

Definition select_duplicado (item : AbastecimentoIn) (pid : UUID)
    (usuario_uuid : option UUID) (ts : datetime) : M (list UUID) :=
  fun s =>
    (Ok (firstn 1
           (map a_id
              (filter (mesma_chave pid usuario_uuid (quantidade item)
                         (custo_unitario item) (total_custo_or_default item) ts)
                 (abastecimentos s)))), s).

(** Lines 174-200: [true] when the record is an already applied event.
    Any exception of the lookup is swallowed and the record goes on. *)
Definition dedupe (fp : Faults) (item : AbastecimentoIn) (pid : UUID)
    (usuario_uuid : option UUID) : M bool :=
  match created_at item with
  | Some ts =>
      try_except
        (dup_res <- await fp SelectDuplicado
                      (select_duplicado item pid usuario_uuid ts) ;;
         dup_id <- scalar_one_or_none dup_res ;;
         match dup_id with
         | Some _ => ret true
         | None => ret false
         end)
        (ret false)
  | None => ret false
  end.

(** Lines 205-213: the [Abastecimento(...)] constructor call; [i] is the
    primary key its default draws. *)
Definition novo_abastecimento (item : AbastecimentoIn) (pid : UUID)
    (usuario_uuid : option UUID) (i : UUID) : Abastecimento :=
  let total_custo := total_custo_or_default item in
  let total_val := (quantidade item * custo_unitario item)%float in
  {| a_id := i; a_produto_id := pid; a_usuario_id := usuario_uuid;
     a_quantidade := quantidade item;
     a_custo_unitario := custo_unitario item;
     a_total := total_val; a_total_custo := total_custo;
     a_observacao := observacao item; a_created_at := None |}.

(** Lines 202-238: build the row, add the quantity to the product's stock,
    refresh its [updated_at], add and flush, then back-fill [created_at].
    The fields are validated floats, on which [float(...)] is the identity
    and raises nothing. *)
Definition gravar (fp : Faults) (item : AbastecimentoIn) (k : nat)
    (pid : UUID) (usuario_uuid : option UUID) : M unit :=
  i <- fresh_id ;;
  let abast := novo_abastecimento item pid usuario_uuid i in
  let qtd := quantidade item in
  alter_produto (entrada qtd) k ;;;
  now <- utcnow ;;
  alter_produto (touch now) k ;;;
  db_add abast ;;;
  await fp Flush (modify flush_pending) ;;;
  match created_at item with
  | Some ts =>
      await fp UpdateCreatedAt (modify (update_created_at (a_id abast) ts))
  | None => ret tt
  end.

(** The body of the inner [try] for one record. *)
Definition item_body (fp : Faults) (item : AbastecimentoIn) : M Outcome :=
  produto_obj <- resolver_produto fp item ;;
  match produto_obj with
  | None => ret (Conflito (conflito_produto item))
  | Some (k, p) =>
      let usuario_uuid := resolver_usuario item in
      dup <- dedupe fp item (p_id p) usuario_uuid ;;
      if dup : bool then ret Duplicado
      else gravar fp item k (p_id p) usuario_uuid ;;; ret Inserido
  end.

(** One turn of the loop: [try: ... except Exception as ie:
    conflicts.append(erro_interno)]. *)
Definition process_item (fp : Faults) (item : AbastecimentoIn) (s : Session)
  : Outcome * Session :=
  match item_body fp item s with
  | (Ok o, s') => (o, s')
  | (Raise ie, s') => (Conflito (conflito_interno ie item), s')
  end.

(** [for item in payload.items], record [i] running under [faults i]. *)
Fixpoint loop (faults : nat -> Faults) (i : nat) (items : list AbastecimentoIn)
    (r : Response) (s : Session) : Response * Session :=
  match items with
  | [] => (r, s)
  | item :: rest =>
      let (o, s') := process_item (faults i) item s in
      loop faults (S i) rest (record_outcome item o r) s'
  end.

End Endpoint.

(** ** The whole request *)

Record AbastecimentoBulkIn := {
  items : list AbastecimentoIn
}.

(** What outlives a request: the committed tables, the clock and the
    source of fresh identifiers. *)
Record Server := {
  srv_db : Database;
  srv_clock : datetime;
  srv_next_id : UUID
}.

(** [Depends(get_db_session)]: a session opened on the committed state. *)
Definition open_session (srv : Server) : Session :=
  {| produtos := tb_produtos (srv_db srv);
     abastecimentos := tb_abastecimentos (srv_db srv);
     pending := [];
     clock := srv_clock srv;
     next_id := srv_next_id srv |}.

Definition tables (s : Session) : Database :=
  {| tb_produtos := produtos s; tb_abastecimentos := abastecimentos s |}.

(** The three calls after the loop. *)
Inductive FinalCall :=
| Commit
| Rollback
| RollbackOnError.

Inductive HttpResult :=
| Http200 (body : Response)
| Http500 (detail : string)
| Unhandled (e : exn).

(** The server once the session is closed: [db] is what is durable. *)
Definition close (db : Database) (s : Session) : Server :=
  {| srv_db := db; srv_clock := clock s; srv_next_id := next_id s |}.

(** The outer [except Exception as e]: roll back, answer 500. *)
Definition on_error (ff : FinalCall -> option string) (msg : string)
    (srv : Server) (s : Session) : HttpResult * Server :=
  match ff RollbackOnError with
  | None => (Http500 ("Erro ao importar abastecimentos: " ++ msg),
             close (srv_db srv) s)
  | Some msg' => (Unhandled (StorageError msg'), close (srv_db srv) s)
  end.

(** Lines 246-254: commit when something was inserted, else roll back. A
    commit flushes what is pending and makes the session's tables durable;
    a rollback leaves the committed tables as they were. *)
Definition finish (ff : FinalCall -> option string) (srv : Server)
    (r : Response) (s : Session) : HttpResult * Server :=
  match inserted r with
  | S _ =>
      match ff Commit with
      | None => let s' := flush_pending s in (Http200 r, close (tables s') s')
      | Some msg => on_error ff msg srv s
      end
  | O =>
      match ff Rollback with
      | None => (Http200 r, close (srv_db srv) s)
      | Some msg => on_error ff msg srv s
      end
  end.

Definition empty_response : Response :=
  {| inserted := 0; accepted := []; conflicts := [] |}.

Definition bulk_create_abastecimentos (parse_uuid : string -> option UUID)
    (faults : nat -> Faults) (ff : FinalCall -> option string)
    (payload : AbastecimentoBulkIn) (srv : Server) : HttpResult * Server :=
  let (r, s) := loop parse_uuid faults 0 (items payload) empty_response
                  (open_session srv) in
  finish ff srv r s.

(** ** A parser for running examples

    [uuid.UUID(text)] on the two usual spellings: 32 hexadecimal digits,
    with or without hyphens. *)

Definition hex_digit (c : ascii) : option N :=
  let n := N_of_ascii c in
  if ((48 <=? n) && (n <=? 57))%N then Some (n - 48)%N
  else if ((97 <=? n) && (n <=? 102))%N then Some (n - 87)%N
  else if ((65 <=? n) && (n <=? 70))%N then Some (n - 55)%N
  else None.

Fixpoint hex_value (acc : N) (digits : nat) (text : string) : option (N * nat) :=
  match text with
  | EmptyString => Some (acc, digits)
  | String "-" r => hex_value acc digits r
  | String c r =>
      match hex_digit c with
      | Some d => hex_value (16 * acc + d)%N (S digits) r
      | None => None
      end
  end.

Definition uuid_hex (text : string) : option UUID :=
  match hex_value 0 0 text with
  | Some (v, 32) => Some v
  | _ => None
  end.

(** ** Vocabulary of the statements *)

(** Some row of the transaction's ledger has the record's key. *)
Definition ja_aplicado (item : AbastecimentoIn) (pid : UUID)
    (usuario_uuid : option UUID) (ts : datetime) (s : Session) : bool :=
  existsb (mesma_chave pid usuario_uuid (quantidade item)
             (custo_unitario item) (total_custo_or_default item) ts)
    (abastecimentos s).

(** The session once the row is built, the stock raised, [updated_at]
    refreshed and the row handed to [db.add]: the state in which the flush
    is attempted. *)
Definition preparado (item : AbastecimentoIn) (k : nat) (pid : UUID)
    (usuario_uuid : option UUID) (s : Session) : Session :=
  {| produtos :=
       alter_nth (touch (clock s)) k
         (alter_nth (entrada (quantidade item)) k (produtos s));
     abastecimentos := abastecimentos s;
     pending :=
       pending s ++ [novo_abastecimento item pid usuario_uuid (next_id s)];
     clock := (clock s + 1)%Z;
     next_id := (next_id s + 1)%N |}.

(** A request during which the storage never fails. *)
Definition never : nat -> Faults := fun _ => no_faults.

Definition final_ok : FinalCall -> option string := fun _ => None.

(** The row a record leaves in the ledger once flushed; [t] is the value
    of [created_at]. *)
Definition linha (item : AbastecimentoIn) (pid : UUID)
    (usuario_uuid : option UUID) (i : UUID) (t : datetime) : Abastecimento :=
  stamp t (novo_abastecimento item pid usuario_uuid i).

(** The session a record leaves behind when it is inserted. *)
Definition inserido_em (item : AbastecimentoIn) (k : nat) (pid : UUID)
    (usuario_uuid : option UUID) (s : Session) : Session :=
  match created_at item with
  | Some ts =>
      update_created_at (next_id s) ts
        (flush_pending (preparado item k pid usuario_uuid s))
  | None => flush_pending (preparado item k pid usuario_uuid s)
  end.

(** Two states of one catalogue entry: the columns the lookups compare are
    the same. *)
Definition mesmo_produto (p p' : Produto) : Prop :=
  p_id p = p_id p' /\ p_codigo p = p_codigo p'.

(** Two lookups that went the same way. *)
Inductive mesma_resolucao :
  result (option (nat * Produto)) -> result (option (nat * Produto)) -> Prop :=
| mr_none : mesma_resolucao (Ok None) (Ok None)
| mr_some k p p' :
    mesmo_produto p p' ->
    mesma_resolucao (Ok (Some (k, p))) (Ok (Some (k, p')))
| mr_raise e : mesma_resolucao (Raise e) (Raise e).

(** The record with its actor identifier left out. *)
Definition sem_usuario (item : AbastecimentoIn) : AbastecimentoIn :=
  {| local_id := local_id item; produto_id := produto_id item;
     produto_codigo := produto_codigo item; usuario_id := None;
     quantidade := quantidade item; custo_unitario := custo_unitario item;
     total_custo := total_custo item; observacao := observacao item;
     created_at := created_at item |}.

(** The stock of the product object at position [j]. *)
Definition estoque_de (j : nat) (ps : list Produto) : option float :=
  match nth_error ps j with
  | Some p => p_estoque p
  | None => None
  end.

(** One stock entry, as [entrada] computes it. *)
Definition somar (e : option float) (q : float) : option float :=
  Some (estoque_or_0 e + q)%float.

(** The record gets as far as the write: its product resolves, to the
    object at the position returned, and the de-duplication step does not
    stop it. *)
Definition chega_a_gravar (parse_uuid : string -> option UUID) (fp : Faults)
    (item : AbastecimentoIn) (s : Session) : option nat :=
  match resolver_produto parse_uuid fp item s with
  | (Ok (Some (k, p)), _) =>
      match dedupe fp item (p_id p) (resolver_usuario parse_uuid item) s with
      | (Ok true, _) => None
      | _ => Some k
      end
  | _ => None
  end.

(** The quantities, in batch order, of the records that get as far as the
    write for the product at position [j]. *)
Fixpoint entradas (parse_uuid : string -> option UUID) (faults : nat -> Faults)
    (j i : nat) (items : list AbastecimentoIn) (s : Session) : list float :=
  match items with
  | [] => []
  | item :: rest =>
      let tail :=
        entradas parse_uuid faults j (S i) rest
          (snd (process_item parse_uuid (faults i) item s)) in
      match chega_a_gravar parse_uuid (faults i) item s with
      | Some k => if Nat.eqb k j then quantidade item :: tail else tail
      | None => tail
      end
  end.

(** The identifiers of the rows a session holds, flushed or pending. *)
Definition ids (s : Session) : list UUID :=
  map a_id (abastecimentos s) ++ map a_id (pending s).

(** ** A worked catalogue and batch *)

Definition sku1 : Produto :=
  {| p_id := 1%N; p_codigo := "SKU1"; p_estoque := Some 5%float;
     p_updated_at := None |}.

Definition sku1_uuid : string := "00000000-0000-0000-0000-000000000001".

Definition srv0 : Server :=
  {| srv_db := {| tb_produtos := [sku1]; tb_abastecimentos := [] |};
     srv_clock := 1000%Z; srv_next_id := 100%N |}.

(** The example of the specification: ten units at 2.5, no total, resolved
    by code; here with a claimed timestamp. *)
Definition rec_a : AbastecimentoIn :=
  {| local_id := Some "L1"; produto_id := None;
     produto_codigo := Some "SKU1"; usuario_id := None;
     quantidade := 10%float; custo_unitario := 2.5%float;
     total_custo := None; observacao := None; created_at := Some 77%Z |}.

(** The same without a timestamp. *)
Definition rec_b : AbastecimentoIn :=
  {| local_id := Some "L2"; produto_id := Some sku1_uuid;
     produto_codigo := None; usuario_id := None;
     quantidade := 3%float; custo_unitario := 2%float;
     total_custo := Some 7%float; observacao := None; created_at := None |}.

(** A record whose product is in no catalogue. *)
Definition rec_missing : AbastecimentoIn :=
  {| local_id := Some "L3"; produto_id := Some "not-a-uuid";
     produto_codigo := Some "NOPE"; usuario_id := None;
     quantidade := 1%float; custo_unitario := 1%float;
     total_custo := None; observacao := None; created_at := None |}.

(** [rec_b] sent by an actor whose identifier is not a UUID. *)
Definition rec_bad_actor : AbastecimentoIn :=
  {| local_id := Some "L2"; produto_id := Some sku1_uuid;
     produto_codigo := None; usuario_id := Some "operador-7";
     quantidade := 3%float; custo_unitario := 2%float;
     total_custo := Some 7%float; observacao := None; created_at := None |}.

(** The storage fails once: at the [created_at] back-fill of the first
    record. *)
Definition backfill_fails_first : nat -> Faults :=
  fun i c =>
    match i, c with
    | O, UpdateCreatedAt => Some "lock wait timeout"
    | _, _ => None
    end.

(** The storage fails at every de-duplication lookup. *)
Definition dedupe_fails : Faults :=
  fun c =>
    match c with
    | SelectDuplicado => Some "connection reset"
    | _ => None
    end.

(** The server once [rec_a] has been applied, and the product as it is
    then. *)
Definition srv1 : Server :=
  snd (bulk_create_abastecimentos uuid_hex never final_ok
         {| items := [rec_a] |} srv0).

Definition sku1_apos : Produto :=
  {| p_id := 1%N; p_codigo := "SKU1"; p_estoque := Some 15%float;
     p_updated_at := Some 1000%Z |}.

(** ** The history endpoint

    [get_historico_abastecimentos] (GET /api/abastecimentos/historico,
    lines 14-107): optional filters, an ordering, and offset pagination
    over the ledger. [pagina] and [limite] are declared [ge=1] and reach
    the body as positive integers. *)

Record HistoricoQuery := {
  data_inicial : option string;
  data_final : option string;
  q_usuario_id : option string;
  q_produto_id : option string;
  pagina : positive;
  limite : positive;
  ordenacao : string
}.

(** What [serialize] returns for one row. *)
Record HistoricoItem := {
  h_id : string;
  h_produto_id : string;
  h_produto_nome : option string;
  h_codigo : option string;
  h_quantidade : float;
  h_custo_unitario : float;
  h_total_custo : float;
  h_usuario_id : option string;
  h_usuario_nome : option string;
  h_created_at : option string;
  h_observacao : option string
}.

(** The body of a successful answer. *)
Record HistoricoPage := {
  hp_items : list HistoricoItem;
  hp_pagina : positive;
  hp_limite : positive;
  has_next : bool
}.

(** The answer: the page, or an [HTTPException] with its status code and
    detail. *)
Inductive HistoricoResult :=
| Historico200 (body : HistoricoPage)
| HistoricoErro (status_code : nat) (detail : string).

(** One element of [conditions]. A comparison with a missing [created_at]
    or [usuario_id] is not true. *)
Definition Cond := Abastecimento -> bool.

(** [Abastecimento.created_at >= di] *)
Definition created_at_ge (di : datetime) : Cond :=
  fun a => match a_created_at a with
           | Some t => (di <=? t)%Z
           | None => false
           end.

(** [Abastecimento.created_at <= df] *)
Definition created_at_le (df : datetime) : Cond :=
  fun a => match a_created_at a with
           | Some t => (t <=? df)%Z
           | None => false
           end.

(** [Abastecimento.produto_id == pid] *)
Definition produto_id_eq (pid : UUID) : Cond :=
  fun a => (a_produto_id a =? pid)%N.

(** [Abastecimento.usuario_id == uid] *)
Definition usuario_id_eq (uid : UUID) : Cond :=
  fun a => match a_usuario_id a with
           | Some u => (u =? uid)%N
           | None => false
           end.

(** One [if text: try: conditions.append(mk(parse(text))) except
    ValueError: raise HTTPException(400, detail)]: the conditions so far
    with the new one, or the detail of the 400. *)
Definition filtro {A} (text : option string) (parse : string -> option A)
    (mk : A -> Cond) (detail : string) (conditions : list Cond)
  : string + list Cond :=
  match truthy text with
  | Some t =>
      match parse t with
      | Some v => inr (conditions ++ [mk v])%list
      | None => inl detail
      end
  | None => inr conditions
  end.

(** [float(x or 0)] on a float column. *)
Definition float_or_0 (x : float) : float :=
  if (x =? 0)%float then 0%float else x.

(** [and_] over the conditions: all of them hold. *)
Definition and_ (conditions : list Cond) : Cond :=
  fun a => forallb (fun c => c a) conditions.

(** [rows[:limite]] and the like, from [lo] on. *)
Definition fatia {A} (lo n : nat) (l : list A) : list A :=
  firstn n (skipn lo l).

Section Historico.

(** [uuid.UUID(text)] and [datetime.fromisoformat(text)], [None] where
    Python raises [ValueError]; [str(u)] and [t.isoformat()]. *)
Variable parse_uuid : string -> option UUID.
Variable fromisoformat : string -> option datetime.
Variable str_uuid : UUID -> string.
Variable isoformat : datetime -> string.

(** The [nome] of a product and of the user with a given identifier
    ([None] when there is no such user, or no name): columns and a table of
    app.db.models that the ledger model does not carry. *)
Variable produto_nome : Produto -> option string.
Variable usuario_nome : UUID -> option string.

(** [order_by(asc(created_at))] when the flag is set, else
    [order_by(desc(created_at))]: the storage's sort, which decides ties
    and the place of rows without [created_at]. *)
Variable order_by : bool -> list Abastecimento -> list Abastecimento.

(** Lines 26-55: the conditions, or the detail of the 400 raised by the
    first filter that does not parse. *)
Definition condicoes (q : HistoricoQuery) : string + list Cond :=
  match filtro (data_inicial q) fromisoformat created_at_ge
          "data_inicial inválida" [] with
  | inl detail => inl detail
  | inr c1 =>
      match filtro (data_final q) fromisoformat created_at_le
              "data_final inválida" c1 with
      | inl detail => inl detail
      | inr c2 =>
          match filtro (q_produto_id q) parse_uuid produto_id_eq
                  "produto_id inválido" c2 with
          | inl detail => inl detail
          | inr c3 =>
              filtro (q_usuario_id q) parse_uuid usuario_id_eq
                "usuario_id inválido" c3
          end
      end
  end.

(** Lines 58-72: the query before pagination. *)
Definition consulta (q : HistoricoQuery) (conditions : list Cond)
    (db : Database) : list Abastecimento :=
  let rows :=
    match conditions with
    | [] => tb_abastecimentos db
    | _ => filter (and_ conditions) (tb_abastecimentos db)
    end in
  order_by (String.eqb (ordenacao q) "created_at_asc") rows.

(** [a.produto], loaded by [selectinload]. *)
Definition produto_de (db : Database) (a : Abastecimento) : option Produto :=
  find (fun p => (p_id p =? a_produto_id a)%N) (tb_produtos db).

(** Lines 81-94 *)
Definition serialize (db : Database) (a : Abastecimento) : HistoricoItem :=
  {| h_id := str_uuid (a_id a);
     h_produto_id := str_uuid (a_produto_id a);
     h_produto_nome :=
       match produto_de db a with
       | Some p => produto_nome p
       | None => None
       end;
     h_codigo := option_map p_codigo (produto_de db a);
     h_quantidade := float_or_0 (a_quantidade a);
     h_custo_unitario := float_or_0 (a_custo_unitario a);
     h_total_custo := float_or_0 (a_total_custo a);
     h_usuario_id := option_map str_uuid (a_usuario_id a);
     h_usuario_nome :=
       match a_usuario_id a with
       | Some u => usuario_nome u
       | None => None
       end;
     h_created_at := option_map isoformat (a_created_at a);
     h_observacao := a_observacao a |}.

(** [(pagina - 1) * limite] *)
Definition offset (q : HistoricoQuery) : nat :=
  (Pos.to_nat (pagina q) - 1) * Pos.to_nat (limite q).

(** Lines 75-103: one row more than the page is fetched to know whether
    another page follows. *)
Definition pagina_de (q : HistoricoQuery) (conditions : list Cond)
    (db : Database) : HistoricoPage :=
  let limite_n := Pos.to_nat (limite q) in
  let rows := fatia (offset q) (limite_n + 1) (consulta q conditions db) in
  let has_next := (limite_n <? List.length rows)%nat in
  let items := firstn limite_n rows in
  {| hp_items := map (serialize db) items;
     hp_pagina := pagina q;
     hp_limite := limite q;
     has_next := has_next |}.

(** The endpoint; [fault] is the failure of the awaited [db.execute], if
    any. A 400 passes the outer handler untouched, anything else raised
    becomes a 500. *)
Definition get_historico_abastecimentos (fault : option string)
    (q : HistoricoQuery) (db : Database) : HistoricoResult :=
  match condicoes q with
  | inl detail => HistoricoErro 400 detail
  | inr conditions =>
      match fault with
      | Some msg => HistoricoErro 500 ("Erro ao buscar histórico: " ++ msg)
      | None => Historico200 (pagina_de q conditions db)
      end
  end.

(** The row passes every filter that was sent. *)
Definition satisfaz (q : HistoricoQuery) (a : Abastecimento) : Prop :=
  (forall t di, truthy (data_inicial q) = Some t ->
                fromisoformat t = Some di -> created_at_ge di a = true)
  /\ (forall t df, truthy (data_final q) = Some t ->
                   fromisoformat t = Some df -> created_at_le df a = true)
  /\ (forall t pid, truthy (q_produto_id q) = Some t ->
                    parse_uuid t = Some pid -> produto_id_eq pid a = true)
  /\ (forall t uid, truthy (q_usuario_id q) = Some t ->
                    parse_uuid t = Some uid -> usuario_id_eq uid a = true).

(** The same query for another page. *)
Definition na_pagina (k : positive) (q : HistoricoQuery) : HistoricoQuery :=
  {| data_inicial := data_inicial q; data_final := data_final q;
     q_usuario_id := q_usuario_id q; q_produto_id := q_produto_id q;
     pagina := k; limite := limite q; ordenacao := ordenacao q |}.

Definition itens_de (r : HistoricoResult) : list HistoricoItem :=
  match r with
  | Historico200 body => hp_items body
  | HistoricoErro _ _ => []
  end.

(** What a client holds after asking for pages 1 to [n] in turn. *)
Definition varredura (q : HistoricoQuery) (db : Database) (n : nat)
  : list HistoricoItem :=
  flat_map
    (fun k =>
       itens_de (get_historico_abastecimentos None
                   (na_pagina (Pos.of_nat k) q) db))
    (seq 1 n).

End Historico.

(** A filter that was sent and does not parse. *)
Definition malformado {A} (text : option string) (parse : string -> option A)
  : Prop :=
  exists t, truthy text = Some t /\ parse t = None.

(** Two rows in the order asked for; rows without [created_at] are ordered
    as the storage pleases. *)
Definition antes_de (asc : bool) (a b : Abastecimento) : Prop :=
  forall ta tb,
    a_created_at a = Some ta -> a_created_at b = Some tb ->
    if asc then (ta <= tb)%Z else (tb <= ta)%Z.

(** ** More vocabulary for the ingestion endpoint *)

(** The tokens of a batch, in order. *)
Definition tokens (items : list AbastecimentoIn) : list string :=
  flat_map (fun item => match local_id item with
                        | Some l => [l]
                        | None => []
                        end) items.

(** Every identifier in use is below the next one to be drawn. *)
Definition ids_abaixo (n : UUID) (rows : list Abastecimento) : Prop :=
  Forall (fun a => (a_id a < n)%N) rows.

(** Every row refers to a product of the catalogue. *)
Definition referencias_validas (ps : list Produto)
    (rows : list Abastecimento) : Prop :=
  Forall (fun a => In (a_produto_id a) (map p_id ps)) rows.

(** The product references of the rows a session holds, flushed or
    pending. *)
Definition refs (s : Session) : list UUID :=
  map a_produto_id (abastecimentos s) ++ map a_produto_id (pending s).

(** ** Stand-ins for the worked history *)

(** An [ORDER BY created_at] by insertion, rows without [created_at] after
    the others when ascending and before them when descending. *)
Definition vem_antes (asc : bool) (a b : Abastecimento) : bool :=
  match a_created_at a, a_created_at b with
  | Some ta, Some tb => if asc then (ta <=? tb)%Z else (tb <=? ta)%Z
  | Some _, None => asc
  | None, Some _ => negb asc
  | None, None => true
  end.

Fixpoint inserir (asc : bool) (a : Abastecimento) (l : list Abastecimento)
  : list Abastecimento :=
  match l with
  | [] => [a]
  | b :: r => if vem_antes asc a b then a :: b :: r
              else b :: inserir asc a r
  end.

Definition ordenar_por_data (asc : bool) (l : list Abastecimento)
  : list Abastecimento :=
  fold_right (inserir asc) [] l.

(** Instants written as decimal numbers, in place of ISO 8601. *)
Fixpoint ler_digitos (text : string) (acc : N) : option N :=
  match text with
  | EmptyString => Some acc
  | String c r =>
      let n := N_of_ascii c in
      if ((48 <=? n) && (n <=? 57))%N
      then ler_digitos r (10 * acc + (n - 48))%N
      else None
  end.

Definition instante_de_texto (text : string) : option datetime :=
  match text with
  | EmptyString => None
  | String "-" EmptyString => None
  | String "-" r => option_map (fun n => (- Z.of_N n)%Z) (ler_digitos r 0)
  | _ => option_map Z.of_N (ler_digitos text 0)
  end.

Fixpoint digitos (fuel : nat) (n : N) (acc : string) : string :=
  match fuel with
  | O => acc
  | S fuel' =>
      let acc' := String (ascii_of_N (48 + n mod 10)) acc in
      if (n / 10 =? 0)%N then acc' else digitos fuel' (n / 10)%N acc'
  end.

Definition texto_de_instante (t : datetime) : string :=
  ((if (t <? 0)%Z then "-" else "") ++ digitos 80 (Z.abs_N t) "")%string.

(** [str(u)] for the identifiers of the worked catalogue: 32 hexadecimal
    digits in groups of 8-4-4-4-12. *)
Definition hex_char (d : N) : ascii :=
  ascii_of_N (if (d <? 10)%N then d + 48 else d + 87)%N.

Fixpoint hex_digits (n : nat) (v : N) (acc : string) : string :=
  match n with
  | O => acc
  | S n' => hex_digits n' (v / 16)%N (String (hex_char (v mod 16)%N) acc)
  end.

Definition uuid_str (u : UUID) : string :=
  let h := hex_digits 32 u "" in
  substring 0 8 h ++ "-" ++ substring 8 4 h ++ "-" ++ substring 12 4 h
  ++ "-" ++ substring 16 4 h ++ "-" ++ substring 20 12 h.

Definition nome_exemplo (p : Produto) : option string :=
  Some ("Produto " ++ p_codigo p).

Definition sem_nomes (u : UUID) : option string := None.

(** The ledger after [rec_a], [rec_b] and [rec_b] again. *)
Definition srv3 : Server :=
  snd (bulk_create_abastecimentos uuid_hex never final_ok
         {| items := [rec_b; rec_b] |} srv1).

Definition q_todos : HistoricoQuery :=
  {| data_inicial := None; data_final := None; q_usuario_id := None;
     q_produto_id := Some sku1_uuid; pagina := 1; limite := 2;
     ordenacao := "created_at_asc" |}.

(** The product filter of [q_todos], as [condicoes] builds it. *)
Definition conds_todos : list Cond := [produto_id_eq 1%N].

(** The history of the worked examples, on the stand-ins. *)
Definition historico_exemplo (fault : option string) (q : HistoricoQuery)
    (db : Database) : HistoricoResult :=
  get_historico_abastecimentos uuid_hex instante_de_texto uuid_str
    texto_de_instante nome_exemplo sem_nomes ordenar_por_data fault q db.

Definition pagina_exemplo (q : HistoricoQuery) : HistoricoPage :=
  pagina_de uuid_str texto_de_instante nome_exemplo sem_nomes
    ordenar_por_data q conds_todos (srv_db srv3).

Definition serialize_exemplo : Abastecimento -> HistoricoItem :=
  serialize uuid_str texto_de_instante nome_exemplo sem_nomes (srv_db srv3).

(** A record whose identifier is well formed and names no product, with
    the code of a product that exists. *)
Definition rec_id_desconhecido : AbastecimentoIn :=
  {| local_id := Some "L4";
     produto_id := Some "00000000-0000-0000-0000-000000000002";
     produto_codigo := Some "SKU1"; usuario_id := None;
     quantidade := 1%float; custo_unitario := 4%float;
     total_custo := None; observacao := None; created_at := None |}.

(** ** The claims in their own terms

    What the statements say of keys, of the catalogue and of the session
    is written here without the functions of the endpoint. *)

(** A ledger row carries the key of a record: resolved product, actor or
    none, quantity, unit cost, total cost (quantity times unit cost when
    none was sent) and claimed timestamp, numbers compared as the storage
    compares them. *)
Definition tem_a_chave (item : AbastecimentoIn) (pid : UUID)
    (usuario_uuid : option UUID) (ts : datetime) (a : Abastecimento) : Prop :=
  a_produto_id a = pid
  /\ a_usuario_id a = usuario_uuid
  /\ (a_quantidade a =? quantidade item)%float = true
  /\ (a_custo_unitario a =? custo_unitario item)%float = true
  /\ (a_total_custo a =?
      match total_custo item with
      | Some tc => tc
      | None => quantidade item * custo_unitario item
      end)%float = true
  /\ a_created_at a = Some ts.

(** The object at position [k] is the one product with identifier [u]. *)
Definition so_este_id (u : UUID) (k : nat) (p : Produto) (ps : list Produto)
  : Prop :=
  nth_error ps k = Some p /\ p_id p = u
  /\ forall j q, nth_error ps j = Some q -> p_id q = u -> j = k.

(** The object at position [k] is the one product with code [c]. *)
Definition so_este_codigo (c : string) (k : nat) (p : Produto)
    (ps : list Produto) : Prop :=
  nth_error ps k = Some p /\ p_codigo p = c
  /\ forall j q, nth_error ps j = Some q -> p_codigo q = c -> j = k.

Definition nenhum_id (u : UUID) (ps : list Produto) : Prop :=
  forall q, In q ps -> p_id q <> u.

Definition nenhum_codigo (c : string) (ps : list Produto) : Prop :=
  forall q, In q ps -> p_codigo q <> c.

(** No identifier to look up: none was sent, or what was sent is no UUID. *)
Definition sem_id (parse_uuid : string -> option UUID)
    (item : AbastecimentoIn) : Prop :=
  truthy (produto_id item) = None \/ malformado (produto_id item) parse_uuid.

(** The lookup by identifier finds nothing: there is no identifier to look
    up, or the lookup works and no product carries it. *)
Definition id_nao_acha (parse_uuid : string -> option UUID) (fp : Faults)
    (item : AbastecimentoIn) (s : Session) : Prop :=
  sem_id parse_uuid item
  \/ exists text u,
       truthy (produto_id item) = Some text
       /\ parse_uuid text = Some u
       /\ fp SelectProdutoById = None
       /\ nenhum_id u (produtos s).

(** The session after a failed flush at record [i]: it has rolled its
    transaction back and refuses every call but [rollback], so the calls
    of the later records raise and so does the commit. *)
Definition sessao_recusa (faults : nat -> Faults)
    (ff : FinalCall -> option string) (i : nat) : Prop :=
  (forall j c, i < j -> faults j c <> None) /\ ff Commit <> None.

(** The product and the quantity of a row. *)
Definition produto_e_quantidade (a : Abastecimento) : UUID * float :=
  (a_produto_id a, a_quantidade a).

(** The quantities, in ledger order, of the rows that refer to product
    [pid]. *)
Definition quantidades_de (pid : UUID) (rows : list Abastecimento)
  : list float :=
  map a_quantidade (filter (fun a => (a_produto_id a =? pid)%N) rows).

(** ** More worked data: a second product, more faults *)

Definition sku2 : Produto :=
  {| p_id := 2%N; p_codigo := "SKU2"; p_estoque := None;
     p_updated_at := None |}.

(** A catalogue with both products and an empty ledger. *)
Definition srv_dois : Server :=
  {| srv_db := {| tb_produtos := [sku1; sku2]; tb_abastecimentos := [] |};
     srv_clock := 1000%Z; srv_next_id := 100%N |}.

(** Four units of the second product at 1.5, no timestamp. *)
Definition rec_c : AbastecimentoIn :=
  {| local_id := Some "L5"; produto_id := None;
     produto_codigo := Some "SKU2"; usuario_id := None;
     quantidade := 4%float; custo_unitario := 1.5%float;
     total_custo := None; observacao := None; created_at := None |}.

(** The storage fails every lookup by code. *)
Definition codigo_fails : Faults :=
  fun c =>
    match c with
    | SelectProdutoByCodigo => Some "connection reset"
    | _ => None
    end.

(** What the session answers to a call it refuses. *)
Definition recusado : string :=
  "This Session's transaction has been rolled back due to a previous exception during flush.".

(** The storage fails the flush of the second record; the session then
    refuses the calls of the records that follow, and the commit. *)
Definition flush_fails_second : nat -> Faults :=
  fun i c =>
    match i, c with
    | O, _ => None
    | S O, Flush => Some "deadlock detected"
    | S O, _ => None
    | _, _ => Some recusado
    end.

Definition commit_refused : FinalCall -> option string :=
  fun c =>
    match c with
    | Commit => Some recusado
    | _ => None
    end.

(** ** Properties *)

Section Properties.

Local Open Scope list_scope.

Variable parse_uuid : string -> option UUID.

Ltac break_match :=
  match goal with
  | |- context [match ?x with _ => _ end] => destruct x eqn:?
  | H : context [match ?x with _ => _ end] |- _ => destruct x eqn:?
  end.

Ltac pair_inv :=
  repeat match goal with
         | H : (_, _) = (_, _) |- _ => inversion H; clear H; subst
         end.

(** *** The lookups leave the session as it was *)

Lemma resolver_produto_session fp item s :
  snd (resolver_produto parse_uuid fp item s) = s.
Proof.
  unfold resolver_produto, buscar_por_id, buscar_por_codigo, bind,
    try_except_ValueError, uuid_UUID, await,
    select_produto, scalar_one_or_none, ret, raise.
  repeat (break_match; simpl in *; subst; try congruence);
    pair_inv; try reflexivity; try congruence.
Qed.

Lemma resolver_produto_inv fp item s r s' :
  resolver_produto parse_uuid fp item s = (r, s') -> s' = s.
Proof.
  intros H. pose proof (resolver_produto_session fp item s) as E.
  rewrite H in E. exact E.
Qed.

Lemma firstn_1_filter_map {A B} (f : A -> bool) (g : A -> B) (l : list A) :
  firstn 1 (map g (filter f l)) = [] /\ existsb f l = false
  \/ exists x, firstn 1 (map g (filter f l)) = [x] /\ existsb f l = true.
Proof.
  induction l as [|a l IH]; simpl.
  - left. split; reflexivity.
  - destruct (f a) eqn:E; simpl.
    + right. exists (g a). split; reflexivity.
    + exact IH.
Qed.

Lemma dedupe_eq fp item pid usuario_uuid s :
  dedupe fp item pid usuario_uuid s =
  (Ok match created_at item, fp SelectDuplicado with
      | Some ts, None => ja_aplicado item pid usuario_uuid ts s
      | _, _ => false
      end, s).
Proof.
  unfold dedupe. destruct (created_at item) as [ts|]; [|reflexivity].
  unfold try_except, bind, await.
  destruct (fp SelectDuplicado) as [msg|]; [reflexivity|].
  unfold select_duplicado, ja_aplicado.
  destruct (firstn_1_filter_map
              (mesma_chave pid usuario_uuid (quantidade item)
                 (custo_unitario item) (total_custo_or_default item) ts)
              a_id (abastecimentos s)) as [[E1 E2]|[x [E1 E2]]];
    rewrite E1, E2; reflexivity.
Qed.

(** *** The write, step by step *)

Lemma gravar_eq fp item k pid usuario_uuid s :
  gravar fp item k pid usuario_uuid s =
  let s1 := preparado item k pid usuario_uuid s in
  match fp Flush with
  | Some msg => (Raise (StorageError msg), s1)
  | None =>
      let s2 := flush_pending s1 in
      match created_at item with
      | None => (Ok tt, s2)
      | Some ts =>
          match fp UpdateCreatedAt with
          | Some msg => (Raise (StorageError msg), s2)
          | None => (Ok tt, update_created_at (next_id s) ts s2)
          end
      end
  end.
Proof.
  unfold gravar, bind, fresh_id, alter_produto, utcnow, db_add, modify, await.
  simpl.
  destruct (fp Flush); [reflexivity|].
  destruct (created_at item); [|reflexivity].
  destruct (fp UpdateCreatedAt); reflexivity.
Qed.

(** One record, once its product is resolved. *)
Lemma process_item_resolved fp item s k p :
  resolver_produto parse_uuid fp item s = (Ok (Some (k, p)), s) ->
  process_item parse_uuid fp item s =
  let u := resolver_usuario parse_uuid item in
  match dedupe fp item (p_id p) u s with
  | (Ok true, _) => (Duplicado, s)
  | _ =>
      match gravar fp item k (p_id p) u s with
      | (Ok _, s') => (Inserido, s')
      | (Raise ie, s') => (Conflito (conflito_interno ie item), s')
      end
  end.
Proof.
  intros H. unfold process_item, item_body, bind. rewrite H.
  rewrite dedupe_eq. cbv zeta.
  destruct (match created_at item with Some _ => _ | None => _ end).
  - reflexivity.
  - destruct (gravar fp item k (p_id p) (resolver_usuario parse_uuid item) s)
      as [[[]|e] s']; reflexivity.
Qed.

Lemma flush_preparado item k pid u s :
  flush_pending (preparado item k pid u s) =
  {| produtos :=
       alter_nth (touch (clock s)) k
         (alter_nth (entrada (quantidade item)) k (produtos s));
     abastecimentos :=
       abastecimentos s ++
       map (stamp (clock s + 1)%Z)
         (pending s ++ [novo_abastecimento item pid u (next_id s)]);
     pending := [];
     clock := (clock s + 1 + 1)%Z;
     next_id := (next_id s + 1)%N |}.
Proof.
  unfold flush_pending, preparado. simpl.
  destruct (pending s ++ [novo_abastecimento item pid u (next_id s)]) eqn:E.
  - destruct (pending s); discriminate E.
  - reflexivity.
Qed.

(** *** Product resolution *)

Lemma buscar_por_id_not_ValueError fp item s msg :
  fst (buscar_por_id parse_uuid fp item s) <> Raise (ValueError msg).
Proof.
  unfold buscar_por_id, bind, try_except_ValueError, uuid_UUID, await,
    select_produto, scalar_one_or_none, ret, raise.
  repeat (break_match; simpl in *; subst; try congruence);
    pair_inv; simpl; congruence.
Qed.

Lemma buscar_por_codigo_not_ValueError fp item s msg :
  fst (buscar_por_codigo fp item s) <> Raise (ValueError msg).
Proof.
  unfold buscar_por_codigo, bind, await, select_produto, scalar_one_or_none,
    ret, raise.
  repeat (break_match; simpl in *; subst; try congruence);
    pair_inv; simpl; congruence.
Qed.

Lemma buscar_por_id_session fp item s :
  snd (buscar_por_id parse_uuid fp item s) = s.
Proof.
  unfold buscar_por_id, bind, try_except_ValueError, uuid_UUID, await,
    select_produto, scalar_one_or_none, ret, raise.
  repeat (break_match; simpl in *; subst; try congruence);
    pair_inv; try reflexivity; try congruence.
Qed.

(** *** What one record does, case by case *)

Lemma update_created_at_flushed item k pid u s ts :
  abastecimentos
    (update_created_at (next_id s) ts
       (flush_pending (preparado item k pid u s))) =
  map (fun a => if (a_id a =? next_id s)%N then stamp ts a else a)
    (abastecimentos s ++ map (stamp (clock s + 1)%Z) (pending s))
  ++ [linha item pid u (next_id s) ts].
Proof.
  rewrite flush_preparado. unfold update_created_at. simpl.
  rewrite map_app, !map_app. simpl. rewrite N.eqb_refl.
  rewrite <- app_assoc. reflexivity.
Qed.

(** The last row of the ledger after an insertion is the record's. *)
Lemma inserido_em_abastecimentos item k pid u s :
  exists front,
    abastecimentos (inserido_em item k pid u s) =
    front ++ [linha item pid u (next_id s)
                (match created_at item with
                 | Some ts => ts
                 | None => (clock s + 1)%Z
                 end)]
    /\ List.length front = List.length (abastecimentos s) + List.length (pending s).
Proof.
  unfold inserido_em. destruct (created_at item) as [ts|].
  - rewrite update_created_at_flushed. eexists. split; [reflexivity|].
    rewrite length_map, length_app, length_map. reflexivity.
  - rewrite flush_preparado. simpl. rewrite map_app, app_assoc. simpl.
    eexists. split; [reflexivity|].
    rewrite length_app, length_map. reflexivity.
Qed.

Lemma inserido_em_produtos item k pid u s :
  produtos (inserido_em item k pid u s) =
  alter_nth (touch (clock s)) k
    (alter_nth (entrada (quantidade item)) k (produtos s)).
Proof.
  unfold inserido_em. destruct (created_at item);
    rewrite flush_preparado; reflexivity.
Qed.

(** Every way a record with a resolved product can end. *)
Lemma process_item_cases fp item s k p :
  resolver_produto parse_uuid fp item s = (Ok (Some (k, p)), s) ->
  let u := resolver_usuario parse_uuid item in
  let dup :=
    match created_at item, fp SelectDuplicado with
    | Some ts, None => ja_aplicado item (p_id p) u ts s
    | _, _ => false
    end in
  process_item parse_uuid fp item s =
  if dup then (Duplicado, s)
  else
    match fp Flush with
    | Some msg =>
        (Conflito (conflito_interno (StorageError msg) item),
         preparado item k (p_id p) u s)
    | None =>
        match created_at item, fp UpdateCreatedAt with
        | Some _, Some msg =>
            (Conflito (conflito_interno (StorageError msg) item),
             flush_pending (preparado item k (p_id p) u s))
        | _, _ => (Inserido, inserido_em item k (p_id p) u s)
        end
    end.
Proof.
  intros H u dup. rewrite (process_item_resolved fp item s k p H). cbv zeta.
  fold u. rewrite dedupe_eq. fold dup. destruct dup; [reflexivity|].
  rewrite gravar_eq. cbv zeta. unfold inserido_em.
  destruct (fp Flush); [reflexivity|].
  destruct (created_at item); [|reflexivity].
  destruct (fp UpdateCreatedAt); reflexivity.
Qed.

(** Every way a record whose product is not resolved can end. *)
Lemma process_item_unresolved fp item s :
  (forall k p,
      resolver_produto parse_uuid fp item s <> (Ok (Some (k, p)), s)) ->
  snd (process_item parse_uuid fp item s) = s
  /\ exists c, fst (process_item parse_uuid fp item s) = Conflito c.
Proof.
  intros H. unfold process_item, item_body, bind.
  pose proof (resolver_produto_session fp item s) as Hs.
  destruct (resolver_produto parse_uuid fp item s) as [[[[k p]|]|e] s1];
    simpl in Hs; subst s1.
  - exfalso. apply (H k p). reflexivity.
  - simpl. split; [reflexivity|eexists; reflexivity].
  - simpl. split; [reflexivity|eexists; reflexivity].
Qed.

(** *** Resolution does not depend on stock or freshness *)

Lemma where_from_catalogo (cond : Produto -> bool) ps ps' :
  (forall p p', mesmo_produto p p' -> cond p = cond p') ->
  Forall2 mesmo_produto ps ps' ->
  forall i,
    Forall2 (fun x y => fst x = fst y /\ mesmo_produto (snd x) (snd y))
      (where_from cond i ps) (where_from cond i ps').
Proof.
  intros Hc H. induction H as [|p p' ps ps' Hp _ IH]; intros i; simpl.
  - constructor.
  - rewrite (Hc _ _ Hp). destruct (cond p').
    + constructor; [split; [reflexivity|exact Hp]|apply IH].
    + apply IH.
Qed.

Lemma scalar_catalogo rows rows' s s' :
  Forall2 (fun x y : nat * Produto =>
             fst x = fst y /\ mesmo_produto (snd x) (snd y)) rows rows' ->
  mesma_resolucao (fst (scalar_one_or_none rows s))
    (fst (scalar_one_or_none rows' s')).
Proof.
  intros H. destruct H as [|[k p] [k' p'] l l' [Hk Hp] Hl]; simpl.
  - constructor.
  - simpl in Hk. subst k'. destruct Hl; simpl; constructor. exact Hp.
Qed.

Lemma select_scalar_catalogo fp c (cond : Produto -> bool) s s' :
  (forall p p', mesmo_produto p p' -> cond p = cond p') ->
  Forall2 mesmo_produto (produtos s) (produtos s') ->
  mesma_resolucao
    (fst ((res <- await fp c (select_produto cond) ;; scalar_one_or_none res) s))
    (fst ((res <- await fp c (select_produto cond) ;; scalar_one_or_none res) s')).
Proof.
  intros Hc H. unfold bind, await. destruct (fp c); simpl.
  - constructor.
  - apply scalar_catalogo. apply where_from_catalogo; assumption.
Qed.

Lemma buscar_por_codigo_catalogo fp item s s' :
  Forall2 mesmo_produto (produtos s) (produtos s') ->
  mesma_resolucao (fst (buscar_por_codigo fp item s))
    (fst (buscar_por_codigo fp item s')).
Proof.
  intros H. unfold buscar_por_codigo.
  destruct (truthy (produto_codigo item)) as [codigo|]; [|constructor].
  apply select_scalar_catalogo; [|exact H].
  intros p p' [_ E]. rewrite E. reflexivity.
Qed.

Lemma buscar_por_id_catalogo fp item s s' :
  Forall2 mesmo_produto (produtos s) (produtos s') ->
  mesma_resolucao (fst (buscar_por_id parse_uuid fp item s))
    (fst (buscar_por_id parse_uuid fp item s')).
Proof.
  intros H. unfold buscar_por_id.
  destruct (truthy (produto_id item)) as [text|]; [|constructor].
  unfold try_except_ValueError, uuid_UUID.
  destruct (parse_uuid text) as [u|]; [|constructor].
  assert (Hs : mesma_resolucao
    (fst ((res <- await fp SelectProdutoById
             (select_produto (fun p => (p_id p =? u)%N)) ;;
           scalar_one_or_none res) s))
    (fst ((res <- await fp SelectProdutoById
             (select_produto (fun p => (p_id p =? u)%N)) ;;
           scalar_one_or_none res) s'))).
  { apply select_scalar_catalogo; [|exact H].
    intros p p' [E _]. rewrite E. reflexivity. }
  unfold bind at 1 3. unfold ret at 1 3.
  destruct ((res <- await fp SelectProdutoById
               (select_produto (fun p => (p_id p =? u)%N)) ;;
             scalar_one_or_none res) s) as [[o|e] s1] eqn:E1;
    destruct ((res <- await fp SelectProdutoById
                 (select_produto (fun p => (p_id p =? u)%N)) ;;
               scalar_one_or_none res) s') as [[o'|e'] s1'] eqn:E1';
    simpl in Hs; inversion Hs; subst; simpl; try constructor; try assumption.
  destruct e'; simpl; constructor.
Qed.

Lemma resolver_produto_catalogo fp item s s' :
  Forall2 mesmo_produto (produtos s) (produtos s') ->
  mesma_resolucao (fst (resolver_produto parse_uuid fp item s))
    (fst (resolver_produto parse_uuid fp item s')).
Proof.
  intros H. unfold resolver_produto, bind.
  pose proof (buscar_por_id_catalogo fp item s s' H) as Hid.
  pose proof (buscar_por_id_session fp item s) as Hs.
  pose proof (buscar_por_id_session fp item s') as Hs'.
  destruct (buscar_por_id parse_uuid fp item s) as [[o|e] s1];
    destruct (buscar_por_id parse_uuid fp item s') as [[o'|e'] s1'];
    simpl in *; inversion Hid; subst; simpl; try constructor; try assumption.
  apply buscar_por_codigo_catalogo. exact H.
Qed.

Lemma alter_nth_catalogo (f : Produto -> Produto) k ps :
  (forall p, mesmo_produto p (f p)) ->
  Forall2 mesmo_produto ps (alter_nth f k ps).
Proof.
  intros Hf. revert k. induction ps as [|p ps IH]; intros k; simpl.
  - constructor.
  - destruct k.
    + constructor; [apply Hf|]. clear. induction ps; constructor;
        [split; reflexivity|assumption].
    + constructor; [split; reflexivity|apply IH].
Qed.

Lemma Forall2_mesmo_trans ps ps' ps'' :
  Forall2 mesmo_produto ps ps' -> Forall2 mesmo_produto ps' ps'' ->
  Forall2 mesmo_produto ps ps''.
Proof.
  intros H. revert ps''. induction H as [|p p' l l' [E1 E2] _ IH];
    intros ps'' H'; inversion H' as [|q q' m m' [E3 E4] Hm]; subst;
    constructor.
  - split; congruence.
  - apply IH. assumption.
Qed.

Lemma gravado_catalogo item k pid u s :
  Forall2 mesmo_produto (produtos s) (produtos (inserido_em item k pid u s)).
Proof.
  rewrite inserido_em_produtos.
  eapply Forall2_mesmo_trans; apply alter_nth_catalogo; intros p;
    split; reflexivity.
Qed.

(** A record that resolved to a product resolves to the same product, at
    the same place, once the product's stock has been raised. *)
Lemma resolver_produto_apos fp item s s' k p :
  Forall2 mesmo_produto (produtos s) (produtos s') ->
  resolver_produto parse_uuid fp item s = (Ok (Some (k, p)), s) ->
  exists p', resolver_produto parse_uuid fp item s' = (Ok (Some (k, p')), s')
             /\ p_id p' = p_id p.
Proof.
  intros H E. pose proof (resolver_produto_catalogo fp item s s' H) as R.
  pose proof (resolver_produto_session fp item s') as Hs'.
  rewrite E in R. simpl in R.
  destruct (resolver_produto parse_uuid fp item s') as [r s1]. simpl in *.
  subst s1. inversion R as [|k0 p0 p' [E1 _]|]; subst.
  exists p'. split; [reflexivity|]. symmetry. exact E1.
Qed.

(** An inserted record went through resolution and the whole write. *)
Lemma process_item_inserido_inv fp item s s' :
  process_item parse_uuid fp item s = (Inserido, s') ->
  exists k p,
    resolver_produto parse_uuid fp item s = (Ok (Some (k, p)), s)
    /\ s' = inserido_em item k (p_id p) (resolver_usuario parse_uuid item) s.
Proof.
  intros H.
  destruct (resolver_produto parse_uuid fp item s) as [[[[k p]|]|e] s1] eqn:E.
  - pose proof (resolver_produto_inv fp item s _ _ E). subst s1.
    exists k, p. split; [reflexivity|].
    rewrite (process_item_cases fp item s k p E) in H. cbv zeta in H.
    repeat (break_match; try discriminate); pair_inv; reflexivity.
  - unfold process_item, item_body, bind in H. rewrite E in H. discriminate.
  - unfold process_item, item_body, bind in H. rewrite E in H. discriminate.
Qed.

(** *** Claims about one record *)

(** C9. The row of a freshly inserted record stores [total] as quantity
    times unit cost, and [total_custo] as the supplied total cost when there
    is one, else quantity times unit cost. *)
Theorem C9_stored_totals :
  forall (fp : Faults) (item : AbastecimentoIn) (s s' : Session),
    process_item parse_uuid fp item s = (Inserido, s') ->
    exists front row,
      abastecimentos s' = front ++ [row]
      /\ List.length front
         = List.length (abastecimentos s) + List.length (pending s)
      /\ a_id row = next_id s
      /\ a_quantidade row = quantidade item
      /\ a_custo_unitario row = custo_unitario item
      /\ a_total row = (quantidade item * custo_unitario item)%float
      /\ a_total_custo row =
         match total_custo item with
         | Some tc => tc
         | None => (quantidade item * custo_unitario item)%float
         end.
Proof.
  intros fp item s s' H.
  destruct (process_item_inserido_inv fp item s s' H) as [k [p [_ Hs]]].
  subst s'.
  destruct (inserido_em_abastecimentos item k (p_id p)
              (resolver_usuario parse_uuid item) s) as [front [E L]].
  exists front. eexists. split; [exact E|]. split; [exact L|].
  repeat split.
Qed.

(** C8. When the de-duplication lookup itself fails, the failure is
    swallowed: the record goes on to the write exactly as a record found
    new, and with the flush and the back-fill working it is inserted, never
    skipped nor reported as a conflict. *)
Theorem C8_dedupe_failure_falls_through :
  forall (fp : Faults) (item : AbastecimentoIn) (s : Session) (k : nat)
         (p : Produto) (ts : datetime) (msg : string),
    created_at item = Some ts ->
    resolver_produto parse_uuid fp item s = (Ok (Some (k, p)), s) ->
    fp SelectDuplicado = Some msg ->
    let u := resolver_usuario parse_uuid item in
    dedupe fp item (p_id p) u s = (Ok false, s)
    /\ process_item parse_uuid fp item s =
       match gravar fp item k (p_id p) u s with
       | (Ok _, s') => (Inserido, s')
       | (Raise ie, s') => (Conflito (conflito_interno ie item), s')
       end
    /\ (fp Flush = None -> fp UpdateCreatedAt = None ->
        process_item parse_uuid fp item s
        = (Inserido, inserido_em item k (p_id p) u s)).
Proof.
  intros fp item s k p ts msg Hts Hres Hf u.
  assert (Hd : dedupe fp item (p_id p) u s = (Ok false, s)).
  { rewrite dedupe_eq, Hts, Hf. reflexivity. }
  split; [exact Hd|]. split.
  - rewrite (process_item_resolved fp item s k p Hres). cbv zeta.
    fold u. rewrite Hd. reflexivity.
  - intros Hfl Hup.
    rewrite (process_item_cases fp item s k p Hres). cbv zeta.
    rewrite Hts, Hf, Hfl, Hup. reflexivity.
Qed.

(** C10. An actor identifier that is not a well-formed UUID is dropped
    without a word: the actor reference is [None], in the de-duplication key
    and in the inserted row, and the record, alone or anywhere in a batch,
    is processed exactly as the same record sent without an actor. *)
Theorem C10_malformed_actor_is_no_actor :
  forall (item : AbastecimentoIn) (text : string),
    usuario_id item = Some text ->
    parse_uuid text = None ->
    resolver_usuario parse_uuid item = None
    /\ (forall fp s,
           process_item parse_uuid fp item s
           = process_item parse_uuid fp (sem_usuario item) s)
    /\ (forall fp pid s,
           dedupe fp item pid (resolver_usuario parse_uuid item) s
           = dedupe fp (sem_usuario item) pid None s)
    /\ (forall fp s s',
           process_item parse_uuid fp item s = (Inserido, s') ->
           exists front row,
             abastecimentos s' = front ++ [row]
             /\ a_id row = next_id s /\ a_usuario_id row = None)
    /\ (forall faults ff before after srv,
           bulk_create_abastecimentos parse_uuid faults ff
             {| items := before ++ item :: after |} srv
           = bulk_create_abastecimentos parse_uuid faults ff
               {| items := before ++ sem_usuario item :: after |} srv).
Proof.
  intros item text Hu Hp.
  assert (Hnone : resolver_usuario parse_uuid item = None).
  { unfold resolver_usuario. rewrite Hu. destruct text; simpl; [reflexivity|].
    exact Hp. }
  assert (Hproc : forall fp s,
             process_item parse_uuid fp item s
             = process_item parse_uuid fp (sem_usuario item) s).
  { intros fp s. unfold process_item, item_body. rewrite Hnone. reflexivity. }
  split; [exact Hnone|]. split; [exact Hproc|]. split; [|split].
  - intros fp pid s. rewrite Hnone. reflexivity.
  - intros fp s s' H.
    destruct (process_item_inserido_inv fp item s s' H) as [k [p [_ Hs]]].
    subst s'. rewrite Hnone.
    destruct (inserido_em_abastecimentos item k (p_id p) None s)
      as [front [E _]].
    exists front. eexists. split; [exact E|]. split; reflexivity.
  - intros faults ff before after srv. unfold bulk_create_abastecimentos.
    simpl items.
    assert (Hl : forall l i r s,
               loop parse_uuid faults i (l ++ item :: after) r s
               = loop parse_uuid faults i (l ++ sem_usuario item :: after) r s).
    { induction l as [|x l IH]; intros i r s; simpl.
      - rewrite Hproc. reflexivity.
      - destruct (process_item parse_uuid (faults i) x s). apply IH. }
    rewrite Hl. reflexivity.
Qed.

(** *** One request, record by record *)

Lemma inserido_em_pending item k pid u s :
  pending (inserido_em item k pid u s) = [].
Proof.
  unfold inserido_em. destruct (created_at item);
    rewrite flush_preparado; reflexivity.
Qed.

Lemma flush_pending_nothing s :
  pending s = [] -> flush_pending s = s.
Proof. intros H. unfold flush_pending. rewrite H. reflexivity. Qed.

Lemma inserido_em_next_id item k pid u s :
  next_id (inserido_em item k pid u s) = (next_id s + 1)%N.
Proof.
  unfold inserido_em. destruct (created_at item);
    rewrite flush_preparado; reflexivity.
Qed.

Lemma inserido_em_clock item k pid u s :
  clock (inserido_em item k pid u s) = (clock s + 1 + 1)%Z.
Proof.
  unfold inserido_em. destruct (created_at item);
    rewrite flush_preparado; reflexivity.
Qed.

(** With nothing pending, an insertion appends the record's row and
    touches no row that does not carry the fresh identifier. *)
Lemma inserido_em_sem_data item k pid u s :
  created_at item = None ->
  pending s = [] ->
  abastecimentos (inserido_em item k pid u s) =
  abastecimentos s ++ [linha item pid u (next_id s) (clock s + 1)%Z].
Proof.
  intros Hc Hp. unfold inserido_em. rewrite Hc, flush_preparado, Hp.
  reflexivity.
Qed.


Lemma loop_cons faults i item rest r s o s' :
  process_item parse_uuid (faults i) item s = (o, s') ->
  loop parse_uuid faults i (item :: rest) r s
  = loop parse_uuid faults (S i) rest (record_outcome item o r) s'.
Proof. intros H. simpl. rewrite H. reflexivity. Qed.

(** C5. A record without a claimed timestamp never consults the ledger:
    the de-duplication step answers "new" whatever the ledger holds and
    whatever the storage would have done, so the record is inserted once its
    product is resolved; sent twice in one batch it is inserted twice. *)
Theorem C5_no_timestamp_always_new :
  forall (item : AbastecimentoIn),
    created_at item = None ->
    (forall fp pid u s, dedupe fp item pid u s = (Ok false, s))
    /\ (forall fp s k p,
           resolver_produto parse_uuid fp item s = (Ok (Some (k, p)), s) ->
           fp Flush = None ->
           process_item parse_uuid fp item s
           = (Inserido,
              inserido_em item k (p_id p) (resolver_usuario parse_uuid item) s))
    /\ (forall ff srv k p,
           ff Commit = None ->
           resolver_produto parse_uuid no_faults item (open_session srv)
           = (Ok (Some (k, p)), open_session srv) ->
           let u := resolver_usuario parse_uuid item in
           exists srv',
             bulk_create_abastecimentos parse_uuid never ff
               {| items := [item; item] |} srv
             = (Http200 {| inserted := 2;
                           accepted := accept item (accept item []);
                           conflicts := [] |}, srv')
             /\ tb_abastecimentos (srv_db srv') =
                tb_abastecimentos (srv_db srv)
                ++ [linha item (p_id p) u (srv_next_id srv)
                      (srv_clock srv + 1)%Z;
                    linha item (p_id p) u (srv_next_id srv + 1)%N
                      (srv_clock srv + 1 + 1 + 1)%Z]).
Proof.
  intros item Hc.
  assert (Hproc : forall fp s k p,
             resolver_produto parse_uuid fp item s = (Ok (Some (k, p)), s) ->
             fp Flush = None ->
             process_item parse_uuid fp item s
             = (Inserido,
                inserido_em item k (p_id p)
                  (resolver_usuario parse_uuid item) s)).
  { intros fp s k p Hres Hfl.
    rewrite (process_item_cases fp item s k p Hres). cbv zeta.
    rewrite Hc, Hfl. reflexivity. }
  split; [|split; [exact Hproc|]].
  - intros fp pid u s. rewrite dedupe_eq, Hc. reflexivity.
  - intros ff srv k p Hff Hres u.
    unfold bulk_create_abastecimentos. simpl items.
    set (s0 := open_session srv) in *.
    set (s1 := inserido_em item k (p_id p) u s0).
    destruct (resolver_produto_apos no_faults item s0 s1 k p
                (gravado_catalogo item k (p_id p) u s0) Hres)
      as [p' [Hres' Hid]].
    set (s2 := inserido_em item k (p_id p') u s1).
    rewrite (loop_cons never 0 item [item] empty_response s0 Inserido s1
               (Hproc no_faults s0 k p Hres eq_refl)).
    rewrite (loop_cons never 1 item [] _ s1 Inserido s2
               (Hproc no_faults s1 k p' Hres' eq_refl)).
    simpl loop. unfold finish. simpl inserted. rewrite Hff.
    eexists. split; [reflexivity|].
    unfold close, tables. simpl srv_db. simpl tb_abastecimentos.
    rewrite flush_pending_nothing by apply inserido_em_pending.
    unfold s2. rewrite inserido_em_sem_data;
      [|exact Hc|apply inserido_em_pending].
    unfold s1. rewrite inserido_em_sem_data; [|exact Hc|reflexivity].
    rewrite inserido_em_next_id, inserido_em_clock, Hid.
    rewrite <- app_assoc. reflexivity.
Qed.

(** *** The batch as a whole *)

Lemma where_from_nth {A} (f : A -> bool) (l : list A) :
  forall i j x,
    In (j, x) (where_from f i l) -> i <= j /\ nth_error l (j - i) = Some x.
Proof.
  induction l as [|a l IH]; intros i j x H; simpl in H; [contradiction|].
  assert (Hrec : In (j, x) (where_from f (S i) l) ->
                 i <= j /\ nth_error (a :: l) (j - i) = Some x).
  { intros H'. destruct (IH (S i) j x H') as [Hle Hn]. split; [lia|].
    replace (j - i) with (S (j - S i)) by lia. exact Hn. }
  destruct (f a).
  - destruct H as [H|H]; [|apply Hrec; exact H].
    inversion H; subst. split; [lia|]. rewrite Nat.sub_diag. reflexivity.
  - apply Hrec. exact H.
Qed.

Lemma select_scalar_nth fp c (cond : Produto -> bool) s k p s' :
  (res <- await fp c (select_produto cond) ;; scalar_one_or_none res) s
  = (Ok (Some (k, p)), s') ->
  nth_error (produtos s) k = Some p.
Proof.
  unfold bind, await, select_produto. destruct (fp c); [discriminate|].
  destruct (where_from cond 0 (produtos s)) as [|[k' p'] [|y l]] eqn:E;
    simpl; intros H; try discriminate.
  destruct (where_from_nth cond (produtos s) 0 k' p') as [_ Hn].
  { rewrite E. left. reflexivity. }
  rewrite Nat.sub_0_r in Hn. inversion H; subst. exact Hn.
Qed.

(** A resolved product is the object at the position returned. *)
Lemma resolver_produto_nth fp item s k p s' :
  resolver_produto parse_uuid fp item s = (Ok (Some (k, p)), s') ->
  nth_error (produtos s) k = Some p.
Proof.
  unfold resolver_produto. unfold bind at 1.
  pose proof (buscar_por_id_session fp item s) as Hs.
  destruct (buscar_por_id parse_uuid fp item s) as [[[x|]|e] s1] eqn:E;
    simpl in Hs; subst s1; try discriminate.
  - intros H. assert (Hx : x = (k, p)) by (inversion H; reflexivity).
    subst x. clear H.
    unfold buscar_por_id in E.
    destruct (truthy (produto_id item)) as [text|]; [|discriminate].
    unfold try_except_ValueError, uuid_UUID in E.
    destruct (parse_uuid text) as [u|]; [|discriminate].
    unfold bind at 1 in E. unfold ret at 1 in E.
    destruct ((res <- await fp SelectProdutoById
                 (select_produto (fun p0 => (p_id p0 =? u)%N)) ;;
               scalar_one_or_none res) s) as [[o|[]] s2] eqn:E2;
      try discriminate.
    assert (Ho : o = Some (k, p)) by (inversion E; reflexivity). subst o.
    eapply select_scalar_nth. exact E2.
  - unfold buscar_por_codigo.
    destruct (truthy (produto_codigo item)); [|discriminate].
    apply select_scalar_nth.
Qed.

Lemma estoque_de_alter_other (f : Produto -> Produto) k j ps :
  k <> j -> estoque_de j (alter_nth f k ps) = estoque_de j ps.
Proof.
  unfold estoque_de. revert k j. induction ps as [|p ps IH]; intros k j H.
  - reflexivity.
  - destruct k, j; simpl; try reflexivity; try congruence.
    apply IH. congruence.
Qed.

Lemma nth_error_alter_same {A} (f : A -> A) k (l : list A) x :
  nth_error l k = Some x -> nth_error (alter_nth f k l) k = Some (f x).
Proof.
  revert k. induction l as [|a l IH]; intros k H.
  - destruct k; discriminate.
  - destruct k; simpl in *.
    + inversion H; subst. reflexivity.
    + apply IH. exact H.
Qed.

Lemma nth_error_alter_other {A} (f : A -> A) k j (l : list A) :
  k <> j -> nth_error (alter_nth f k l) j = nth_error l j.
Proof.
  revert k j. induction l as [|x l IH]; intros k j H.
  - reflexivity.
  - destruct k, j; simpl; try reflexivity; try congruence.
    apply IH. congruence.
Qed.

Lemma estoque_de_gravado q t k ps p :
  nth_error ps k = Some p ->
  estoque_de k (alter_nth (touch t) k (alter_nth (entrada q) k ps))
  = somar (estoque_de k ps) q.
Proof.
  intros H. unfold estoque_de.
  rewrite (nth_error_alter_same (touch t) k _ (entrada q p)).
  - rewrite H. reflexivity.
  - apply nth_error_alter_same. exact H.
Qed.

Lemma flush_pending_produtos s : produtos (flush_pending s) = produtos s.
Proof. unfold flush_pending. destruct (pending s); reflexivity. Qed.

(** What one record does to the stock of the product at [j]. *)
Lemma process_item_estoque fp item s j :
  estoque_de j (produtos (snd (process_item parse_uuid fp item s))) =
  match chega_a_gravar parse_uuid fp item s with
  | Some k =>
      if Nat.eqb k j then somar (estoque_de j (produtos s)) (quantidade item)
      else estoque_de j (produtos s)
  | None => estoque_de j (produtos s)
  end.
Proof.
  unfold chega_a_gravar.
  destruct (resolver_produto parse_uuid fp item s) as [[[[k p]|]|e] s1] eqn:E;
    pose proof (resolver_produto_inv fp item s _ _ E); subst s1.
  - pose proof (resolver_produto_nth fp item s k p s E) as Hn.
    rewrite (process_item_cases fp item s k p E). cbv zeta.
    rewrite dedupe_eq.
    set (u := resolver_usuario parse_uuid item).
    assert (Hw : estoque_de j
                   (alter_nth (touch (clock s)) k
                      (alter_nth (entrada (quantidade item)) k (produtos s)))
                 = if Nat.eqb k j
                   then somar (estoque_de j (produtos s)) (quantidade item)
                   else estoque_de j (produtos s)).
    { destruct (Nat.eqb_spec k j) as [->|Hne].
      - apply (estoque_de_gravado _ _ _ _ p). exact Hn.
      - rewrite !estoque_de_alter_other by exact Hne. reflexivity. }
    destruct (match created_at item with Some _ => _ | None => _ end);
      [reflexivity|].
    destruct (fp Flush); [exact Hw|].
    destruct (created_at item) as [ts|]; [destruct (fp UpdateCreatedAt)|];
      simpl snd; rewrite ?inserido_em_produtos, ?flush_pending_produtos;
      exact Hw.
  - unfold process_item, item_body, bind. rewrite E. reflexivity.
  - unfold process_item, item_body, bind. rewrite E. reflexivity.
Qed.

Lemma loop_estoque faults j items :
  forall i r s,
    estoque_de j (produtos (snd (loop parse_uuid faults i items r s))) =
    fold_left somar (entradas parse_uuid faults j i items s)
      (estoque_de j (produtos s)).
Proof.
  induction items as [|item rest IH]; intros i r s; simpl.
  - reflexivity.
  - pose proof (process_item_estoque (faults i) item s j) as Hstep.
    destruct (process_item parse_uuid (faults i) item s) as [o s'].
    simpl snd in *. rewrite IH, Hstep.
    destruct (chega_a_gravar parse_uuid (faults i) item s) as [k|];
      [destruct (Nat.eqb k j)|]; reflexivity.
Qed.

Lemma chega_a_gravar_eq fp item s k p :
  resolver_produto parse_uuid fp item s = (Ok (Some (k, p)), s) ->
  chega_a_gravar parse_uuid fp item s =
  if match created_at item, fp SelectDuplicado with
     | Some ts, None =>
         ja_aplicado item (p_id p) (resolver_usuario parse_uuid item) ts s
     | _, _ => false
     end
  then None else Some k.
Proof.
  intros H. unfold chega_a_gravar. rewrite H, dedupe_eq.
  destruct (match created_at item with Some _ => _ | None => _ end);
    reflexivity.
Qed.

(** Every way one turn of the loop can go. *)
Lemma process_item_shape fp item s :
  (chega_a_gravar parse_uuid fp item s = None
   /\ snd (process_item parse_uuid fp item s) = s
   /\ fst (process_item parse_uuid fp item s) <> Inserido)
  \/ exists k p,
      resolver_produto parse_uuid fp item s = (Ok (Some (k, p)), s)
      /\ chega_a_gravar parse_uuid fp item s = Some k
      /\ ((exists msg,
              fp Flush = Some msg
              /\ process_item parse_uuid fp item s
                 = (Conflito (conflito_interno (StorageError msg) item),
                    preparado item k (p_id p)
                      (resolver_usuario parse_uuid item) s))
          \/ (exists ts msg,
                 fp Flush = None /\ created_at item = Some ts
                 /\ fp UpdateCreatedAt = Some msg
                 /\ process_item parse_uuid fp item s
                    = (Conflito (conflito_interno (StorageError msg) item),
                       flush_pending
                         (preparado item k (p_id p)
                            (resolver_usuario parse_uuid item) s)))
          \/ (fp Flush = None
              /\ (created_at item = None \/ fp UpdateCreatedAt = None)
              /\ process_item parse_uuid fp item s
                 = (Inserido,
                    inserido_em item k (p_id p)
                      (resolver_usuario parse_uuid item) s))).
Proof.
  destruct (resolver_produto parse_uuid fp item s) as [[[[k p]|]|e] s1] eqn:E;
    pose proof (resolver_produto_inv fp item s _ _ E); subst s1.
  - rewrite (chega_a_gravar_eq fp item s k p E).
    rewrite (process_item_cases fp item s k p E). cbv zeta.
    destruct (match created_at item with Some _ => _ | None => _ end).
    + left. repeat split. discriminate.
    + right. exists k, p. split; [reflexivity|]. split; [reflexivity|].
      destruct (fp Flush) as [msg|].
      * left. exists msg. split; reflexivity.
      * destruct (created_at item) as [ts|].
        -- destruct (fp UpdateCreatedAt) as [msg|].
           ++ right. left. exists ts, msg. repeat split.
           ++ right. right. split; [reflexivity|]. split; [|reflexivity].
              right. reflexivity.
        -- right. right. split; [reflexivity|]. split; [|reflexivity].
           left. reflexivity.
  - left. unfold chega_a_gravar, process_item, item_body, bind. rewrite E.
    repeat split. discriminate.
  - left. unfold chega_a_gravar, process_item, item_body, bind. rewrite E.
    repeat split. discriminate.
Qed.

(** Rows are never taken back: a turn of the loop keeps every row the
    session holds, flushed or pending, and a record that gets to the write
    adds its own. *)
Lemma ids_flush_pending s :
  map a_id (abastecimentos (flush_pending s)) = ids s
  /\ pending (flush_pending s) = [].
Proof.
  unfold flush_pending, ids. destruct (pending s) eqn:E.
  - rewrite E. simpl. rewrite app_nil_r. split; reflexivity.
  - simpl. rewrite map_app. simpl. rewrite map_map. split; reflexivity.
Qed.

Lemma ids_preparado item k pid u s :
  ids (preparado item k pid u s) = ids s ++ [next_id s].
Proof.
  unfold ids, preparado. simpl. rewrite map_app, app_assoc. reflexivity.
Qed.

Lemma ids_update_created_at i ts s :
  ids (update_created_at i ts s) = ids s.
Proof.
  unfold ids, update_created_at. simpl. rewrite map_map. f_equal.
  apply map_ext. intros a. destruct (a_id a =? i)%N; reflexivity.
Qed.

Lemma ids_flushed s : ids (flush_pending s) = ids s.
Proof.
  destruct (ids_flush_pending s) as [E1 E2]. unfold ids at 1.
  rewrite E1, E2. simpl. apply app_nil_r.
Qed.

Lemma process_item_ids fp item s :
  ids (snd (process_item parse_uuid fp item s)) =
  ids s ++ match chega_a_gravar parse_uuid fp item s with
           | Some _ => [next_id s]
           | None => []
           end.
Proof.
  destruct (process_item_shape fp item s)
    as [[Hc [Hs _]]|[k [p [_ [Hc [[msg [_ H]]|[[ts [msg [_ [_ [_ H]]]]]|[_ [_ H]]]]]]]]];
    rewrite Hc, ?H, ?Hs; simpl snd.
  - symmetry. apply app_nil_r.
  - apply ids_preparado.
  - rewrite ids_flushed. apply ids_preparado.
  - unfold inserido_em. destruct (created_at item);
      rewrite ?ids_update_created_at, ids_flushed; apply ids_preparado.
Qed.

Lemma loop_ids faults items :
  forall i r s,
    exists extra,
      ids (snd (loop parse_uuid faults i items r s)) = ids s ++ extra.
Proof.
  induction items as [|item rest IH]; intros i r s; simpl.
  - exists []. symmetry. apply app_nil_r.
  - pose proof (process_item_ids (faults i) item s) as Hstep.
    destruct (process_item parse_uuid (faults i) item s) as [o s'].
    simpl snd in Hstep.
    destruct (IH (S i) (record_outcome item o r) s') as [extra E].
    rewrite E, Hstep, <- app_assoc. eexists. reflexivity.
Qed.

(** The ledger of the transaction grows with every insertion. *)
Lemma process_item_rows fp item s :
  List.length (abastecimentos s)
  + match fst (process_item parse_uuid fp item s) with
    | Inserido => 1
    | _ => 0
    end
  <= List.length (abastecimentos (snd (process_item parse_uuid fp item s))).
Proof.
  destruct (process_item_shape fp item s)
    as [[_ [Hs Hn]]|[k [p [_ [_ [[msg [_ H]]|[[ts [msg [_ [_ [_ H]]]]]|[_ [_ H]]]]]]]]].
  - rewrite Hs.
    destruct (fst (process_item parse_uuid fp item s)); try lia.
    congruence.
  - rewrite H. simpl. lia.
  - rewrite H. simpl fst. simpl snd. rewrite flush_preparado. simpl.
    rewrite length_app. lia.
  - rewrite H. simpl fst. simpl snd.
    destruct (inserido_em_abastecimentos item k (p_id p)
                (resolver_usuario parse_uuid item) s) as [front [E L]].
    rewrite E, length_app. simpl. lia.
Qed.

Lemma record_outcome_inserted item o r :
  inserted (record_outcome item o r)
  = inserted r + match o with Inserido => 1 | _ => 0 end.
Proof. destruct o; simpl; lia. Qed.

Lemma loop_rows faults items :
  forall i r s,
    List.length (abastecimentos s)
    + inserted (fst (loop parse_uuid faults i items r s))
    <= List.length (abastecimentos (snd (loop parse_uuid faults i items r s)))
       + inserted r.
Proof.
  induction items as [|item rest IH]; intros i r s; simpl.
  - lia.
  - pose proof (process_item_rows (faults i) item s) as Hstep.
    destruct (process_item parse_uuid (faults i) item s) as [o s'].
    simpl fst in Hstep. simpl snd in Hstep.
    specialize (IH (S i) (record_outcome item o r) s').
    rewrite record_outcome_inserted in IH. lia.
Qed.

Lemma flush_pending_rows s :
  List.length (abastecimentos s)
  <= List.length (abastecimentos (flush_pending s)).
Proof.
  unfold flush_pending. destruct (pending s); simpl; [lia|].
  rewrite length_app. lia.
Qed.

(** *** Claims about the batch *)

Lemma finish_rollback ff srv r s :
  inserted r = 0 -> srv_db (snd (finish ff srv r s)) = srv_db srv.
Proof.
  intros H. unfold finish, on_error. rewrite H.
  destruct (ff Rollback); [destruct (ff RollbackOnError)|]; reflexivity.
Qed.

Lemma finish_commit ff srv r s :
  inserted r <> 0 -> ff Commit = None ->
  finish ff srv r s
  = (Http200 r, close (tables (flush_pending s)) (flush_pending s)).
Proof.
  intros H Hc. unfold finish. destruct (inserted r); [congruence|].
  rewrite Hc. reflexivity.
Qed.

Lemma finish_all_or_nothing ff srv r s :
  srv_db (snd (finish ff srv r s)) = srv_db srv
  \/ srv_db (snd (finish ff srv r s)) = tables (flush_pending s).
Proof.
  unfold finish, on_error.
  destruct (inserted r).
  - left. destruct (ff Rollback); [destruct (ff RollbackOnError)|];
      reflexivity.
  - destruct (ff Commit).
    + left. destruct (ff RollbackOnError); reflexivity.
    + right. reflexivity.
Qed.

(** C3. After the last record the transaction is committed exactly when
    something was inserted. With no insertion the committed tables stay as
    they were, duplicates or conflicts notwithstanding; with an insertion
    the commit makes the whole session durable, ledger grown by at least the
    insertions counted; and the durable state is always one of the two:
    untouched, or the whole session. *)
Theorem C3_commit_iff_inserted :
  forall (faults : nat -> Faults) (ff : FinalCall -> option string)
         (payload : AbastecimentoBulkIn) (srv : Server),
    let r := fst (loop parse_uuid faults 0 (items payload) empty_response
                    (open_session srv)) in
    let s := snd (loop parse_uuid faults 0 (items payload) empty_response
                    (open_session srv)) in
    let res := fst (bulk_create_abastecimentos parse_uuid faults ff payload srv) in
    let srv' := snd (bulk_create_abastecimentos parse_uuid faults ff payload srv) in
    (inserted r = 0 -> srv_db srv' = srv_db srv)
    /\ (inserted r = 0 -> ff Rollback = None -> res = Http200 r)
    /\ (inserted r <> 0 -> ff Commit = None ->
        res = Http200 r
        /\ srv_db srv' = tables (flush_pending s)
        /\ List.length (tb_abastecimentos (srv_db srv)) + inserted r
           <= List.length (tb_abastecimentos (srv_db srv'))
        /\ srv_db srv' <> srv_db srv)
    /\ (srv_db srv' = srv_db srv \/ srv_db srv' = tables (flush_pending s)).
Proof.
  intros faults ff payload srv r s res srv'.
  assert (Hb : bulk_create_abastecimentos parse_uuid faults ff payload srv
               = finish ff srv r s).
  { unfold bulk_create_abastecimentos, r, s.
    destruct (loop parse_uuid faults 0 (items payload) empty_response
                (open_session srv)); reflexivity. }
  unfold res, srv'. rewrite Hb. split; [|split; [|split]].
  - apply finish_rollback.
  - intros H0 Hr. unfold finish. rewrite H0, Hr. reflexivity.
  - intros Hn Hc. rewrite (finish_commit ff srv r s Hn Hc). simpl.
    assert (Hlen : List.length (tb_abastecimentos (srv_db srv)) + inserted r
                   <= List.length (abastecimentos (flush_pending s))).
    { pose proof (loop_rows faults (items payload) 0 empty_response
                    (open_session srv)) as Hl.
      fold r s in Hl. simpl in Hl.
      pose proof (flush_pending_rows s). lia. }
    repeat split; [exact Hlen|].
    intros E. rewrite <- E in Hlen. simpl in Hlen. lia.
  - apply finish_all_or_nothing.
Qed.

Lemma loop_app faults l1 l2 :
  forall i r s,
    loop parse_uuid faults i (l1 ++ l2) r s =
    loop parse_uuid faults (i + List.length l1) l2
      (fst (loop parse_uuid faults i l1 r s))
      (snd (loop parse_uuid faults i l1 r s)).
Proof.
  induction l1 as [|x l1 IH]; intros i r s; simpl.
  - rewrite Nat.add_0_r. reflexivity.
  - destruct (process_item parse_uuid (faults i) x s) as [o s'].
    rewrite IH. replace (S i + List.length l1) with (i + S (List.length l1))
      by lia. reflexivity.
Qed.

(** *** The catalogue and the ledger, read without the endpoint *)

Lemma where_from_nenhum {A} (f : A -> bool) (l : list A) :
  (forall y, In y l -> f y = false) ->
  forall i, where_from f i l = [].
Proof.
  induction l as [|a l IH]; intros H i; simpl; [reflexivity|].
  rewrite (H a (or_introl eq_refl)). apply IH.
  intros y Hy. apply H. right. exact Hy.
Qed.

Lemma where_from_unico {A} (f : A -> bool) (l : list A) :
  forall i k x,
    nth_error l k = Some x -> f x = true ->
    (forall j y, nth_error l j = Some y -> f y = true -> j = k) ->
    where_from f i l = [(i + k, x)].
Proof.
  induction l as [|a l IH]; intros i k x Hk Hx Hu.
  - destruct k; discriminate.
  - destruct k as [|k]; simpl in *.
    + inversion Hk; subst a. rewrite Hx, Nat.add_0_r. f_equal.
      apply where_from_nenhum. intros y Hy.
      destruct (f y) eqn:E; [|reflexivity].
      destruct (In_nth_error l y Hy) as [j Hj].
      pose proof (Hu (S j) y Hj E). discriminate.
    + destruct (f a) eqn:E.
      * pose proof (Hu 0 a eq_refl E). discriminate.
      * rewrite (IH (S i) k x Hk Hx).
        -- f_equal. f_equal. lia.
        -- intros j y Hj Hy. pose proof (Hu (S j) y Hj Hy). lia.
Qed.

Lemma select_por_id u k p ps :
  so_este_id u k p ps ->
  where_from (fun q => (p_id q =? u)%N) 0 ps = [(k, p)].
Proof.
  intros [Hk [Hid Hu]].
  apply (where_from_unico (fun q => (p_id q =? u)%N) ps 0 k p Hk).
  - apply N.eqb_eq. exact Hid.
  - intros j q Hj Hq. apply (Hu j q Hj). apply N.eqb_eq. exact Hq.
Qed.

Lemma select_por_codigo c k p ps :
  so_este_codigo c k p ps ->
  where_from (fun q => String.eqb (p_codigo q) c) 0 ps = [(k, p)].
Proof.
  intros [Hk [Hc Hu]].
  apply (where_from_unico (fun q => String.eqb (p_codigo q) c) ps 0 k p Hk).
  - apply String.eqb_eq. exact Hc.
  - intros j q Hj Hq. apply (Hu j q Hj). apply String.eqb_eq. exact Hq.
Qed.

Lemma select_nenhum_id u ps :
  nenhum_id u ps -> where_from (fun q => (p_id q =? u)%N) 0 ps = [].
Proof.
  intros H. apply where_from_nenhum. intros q Hq.
  apply N.eqb_neq. apply H. exact Hq.
Qed.

Lemma select_nenhum_codigo c ps :
  nenhum_codigo c ps ->
  where_from (fun q => String.eqb (p_codigo q) c) 0 ps = [].
Proof.
  intros H. apply where_from_nenhum. intros q Hq.
  apply String.eqb_neq. apply H. exact Hq.
Qed.

Lemma buscar_por_id_sem_id fp item s :
  sem_id parse_uuid item -> buscar_por_id parse_uuid fp item s = (Ok None, s).
Proof.
  intros [Hn | [text [Ht Hp]]];
    unfold buscar_por_id, bind, try_except_ValueError, uuid_UUID.
  - rewrite Hn. reflexivity.
  - rewrite Ht, Hp. reflexivity.
Qed.

Lemma buscar_por_id_desconhecido fp item s text u :
  truthy (produto_id item) = Some text ->
  parse_uuid text = Some u ->
  fp SelectProdutoById = None ->
  nenhum_id u (produtos s) ->
  buscar_por_id parse_uuid fp item s = (Ok None, s).
Proof.
  intros Ht Hp Hf Hn.
  unfold buscar_por_id, bind, try_except_ValueError, uuid_UUID, await,
    select_produto.
  rewrite Ht, Hp, Hf. simpl. rewrite (select_nenhum_id u (produtos s) Hn).
  reflexivity.
Qed.

Lemma buscar_por_codigo_unico fp item s codigo k p :
  truthy (produto_codigo item) = Some codigo ->
  fp SelectProdutoByCodigo = None ->
  so_este_codigo codigo k p (produtos s) ->
  buscar_por_codigo fp item s = (Ok (Some (k, p)), s).
Proof.
  intros Ht Hf Hu. unfold buscar_por_codigo, bind, await, select_produto.
  rewrite Ht, Hf. simpl.
  rewrite (select_por_codigo codigo k p (produtos s) Hu). reflexivity.
Qed.

Lemma buscar_por_codigo_nada fp item s :
  truthy (produto_codigo item) = None
  \/ (exists codigo,
         truthy (produto_codigo item) = Some codigo
         /\ fp SelectProdutoByCodigo = None
         /\ nenhum_codigo codigo (produtos s)) ->
  buscar_por_codigo fp item s = (Ok None, s).
Proof.
  intros [Hn | [codigo [Ht [Hf Hn]]]];
    unfold buscar_por_codigo, bind, await, select_produto.
  - rewrite Hn. reflexivity.
  - rewrite Ht, Hf. simpl.
    rewrite (select_nenhum_codigo codigo (produtos s) Hn). reflexivity.
Qed.

Lemma resolver_apos_id_vazio fp item s :
  buscar_por_id parse_uuid fp item s = (Ok None, s) ->
  resolver_produto parse_uuid fp item s = buscar_por_codigo fp item s.
Proof. intros H. unfold resolver_produto, bind. rewrite H. reflexivity. Qed.

Lemma process_item_nao_encontrado fp item s :
  resolver_produto parse_uuid fp item s = (Ok None, s) ->
  process_item parse_uuid fp item s
  = (Conflito
       [("reason", PyStr "produto_nao_encontrado");
        ("produto_id",
         match produto_id item with Some t => PyStr t | None => PyNone end);
        ("produto_codigo",
         match produto_codigo item with
         | Some t => PyStr t
         | None => PyNone
         end)], s).
Proof.
  intros H. unfold process_item, item_body, bind. rewrite H. reflexivity.
Qed.

Lemma process_item_erro_interno fp item s e s' :
  item_body parse_uuid fp item s = (Raise e, s') ->
  process_item parse_uuid fp item s
  = (Conflito
       [("reason", PyStr "erro_interno");
        ("message", PyStr (exn_str e));
        ("local_id",
         match local_id item with Some l => PyStr l | None => PyNone end)],
     s').
Proof. intros H. unfold process_item. rewrite H. reflexivity. Qed.

Lemma mesma_chave_sse item pid u ts a :
  mesma_chave pid u (quantidade item) (custo_unitario item)
    (total_custo_or_default item) ts a = true
  <-> tem_a_chave item pid u ts a.
Proof.
  unfold mesma_chave, tem_a_chave, total_custo_or_default.
  rewrite !andb_true_iff, N.eqb_eq. split.
  - intros [[[[[H1 H2] H3] H4] H5] H6].
    destruct (a_created_at a) as [t|]; [|discriminate].
    apply Z.eqb_eq in H5. subst t.
    split; [exact H1|]. split; [|repeat split; assumption].
    destruct u as [x|], (a_usuario_id a) as [v|]; try discriminate.
    + apply N.eqb_eq in H6. subst. reflexivity.
    + reflexivity.
  - intros [H1 [H2 [H3 [H4 [H5 H6]]]]]. rewrite H6, H2.
    repeat split; try assumption.
    + apply Z.eqb_refl.
    + destruct u; [apply N.eqb_refl|reflexivity].
Qed.

Lemma ja_aplicado_sse item pid u ts s :
  ja_aplicado item pid u ts s = true
  <-> exists a, In a (abastecimentos s) /\ tem_a_chave item pid u ts a.
Proof.
  unfold ja_aplicado. rewrite existsb_exists. split.
  - intros [a [Hin Hk]]. exists a. split; [exact Hin|].
    apply mesma_chave_sse. exact Hk.
  - intros [a [Hin Hk]]. exists a. split; [exact Hin|].
    apply mesma_chave_sse. exact Hk.
Qed.

Lemma ja_aplicado_nao item pid u ts s :
  (forall a, In a (abastecimentos s) -> ~ tem_a_chave item pid u ts a) ->
  ja_aplicado item pid u ts s = false.
Proof.
  intros H. destruct (ja_aplicado item pid u ts s) eqn:E; [|reflexivity].
  apply ja_aplicado_sse in E. destruct E as [a [Hin Hk]].
  exfalso. exact (H a Hin Hk).
Qed.

(** The row and the product an insertion leaves, field by field. *)
Lemma inserido_em_campos item k pid u s :
  exists front row,
    abastecimentos (inserido_em item k pid u s) = front ++ [row]
    /\ List.length front
       = List.length (abastecimentos s) + List.length (pending s)
    /\ a_id row = next_id s
    /\ a_produto_id row = pid
    /\ a_usuario_id row = u
    /\ a_quantidade row = quantidade item
    /\ a_custo_unitario row = custo_unitario item
    /\ a_total row = (quantidade item * custo_unitario item)%float
    /\ a_total_custo row
       = match total_custo item with
         | Some tc => tc
         | None => (quantidade item * custo_unitario item)%float
         end
    /\ a_observacao row = observacao item
    /\ a_created_at row
       = Some match created_at item with
              | Some ts => ts
              | None => (clock s + 1)%Z
              end.
Proof.
  destruct (inserido_em_abastecimentos item k pid u s) as [front [E Hl]].
  exists front. eexists. split; [exact E|]. split; [exact Hl|].
  repeat split.
Qed.



(** *** Claims about resolution and conflicts *)

(** C6. Product resolution tries the identifier first: a well-formed
    identifier that names one product resolves to it, whatever the code. With
    no identifier, or one that is no UUID, nothing is raised and the code is
    looked up instead: a code that names one product resolves to it. When
    neither finds a product the record becomes a conflict entry with reason
    [produto_nao_encontrado] and the identifier and code as sent, the
    session and the counts are left as they were, and the loop goes on with
    the rest of the batch. *)
Theorem C6_resolution_by_id_then_code :
  forall (fp : Faults) (item : AbastecimentoIn) (s : Session),
    (forall msg,
        fst (resolver_produto parse_uuid fp item s) <> Raise (ValueError msg))
    /\ (forall text u k p,
           truthy (produto_id item) = Some text ->
           parse_uuid text = Some u ->
           fp SelectProdutoById = None ->
           so_este_id u k p (produtos s) ->
           resolver_produto parse_uuid fp item s = (Ok (Some (k, p)), s))
    /\ (forall codigo k p,
           sem_id parse_uuid item ->
           truthy (produto_codigo item) = Some codigo ->
           fp SelectProdutoByCodigo = None ->
           so_este_codigo codigo k p (produtos s) ->
           resolver_produto parse_uuid fp item s = (Ok (Some (k, p)), s))
    /\ (sem_id parse_uuid item ->
        truthy (produto_codigo item) = None
        \/ (exists codigo,
               truthy (produto_codigo item) = Some codigo
               /\ fp SelectProdutoByCodigo = None
               /\ nenhum_codigo codigo (produtos s)) ->
        resolver_produto parse_uuid fp item s = (Ok None, s))
    /\ (resolver_produto parse_uuid fp item s = (Ok None, s) ->
        let nao_encontrado :=
          [("reason", PyStr "produto_nao_encontrado");
           ("produto_id",
            match produto_id item with
            | Some t => PyStr t
            | None => PyNone
            end);
           ("produto_codigo",
            match produto_codigo item with
            | Some t => PyStr t
            | None => PyNone
            end)] in
        process_item parse_uuid fp item s = (Conflito nao_encontrado, s)
        /\ forall faults i rest r,
            faults i = fp ->
            loop parse_uuid faults i (item :: rest) r s
            = loop parse_uuid faults (S i) rest
                {| inserted := inserted r; accepted := accepted r;
                   conflicts := conflicts r ++ [nao_encontrado] |} s).
Proof.
  intros fp item s. split; [|split; [|split; [|split]]].
  - intros msg. unfold resolver_produto, bind.
    pose proof (buscar_por_id_not_ValueError fp item s) as Hid.
    destruct (buscar_por_id parse_uuid fp item s) as [[[x|]|e] s1]; simpl.
    + discriminate.
    + apply buscar_por_codigo_not_ValueError.
    + intros E. apply (Hid msg). exact E.
  - intros text u k p Ht Hu Hf Hw.
    unfold resolver_produto, buscar_por_id, bind, try_except_ValueError,
      uuid_UUID, await, select_produto.
    rewrite Ht, Hu, Hf. simpl.
    rewrite (select_por_id u k p (produtos s) Hw). reflexivity.
  - intros codigo k p Hid Ht Hf Hu.
    rewrite (resolver_apos_id_vazio fp item s
               (buscar_por_id_sem_id fp item s Hid)).
    apply (buscar_por_codigo_unico fp item s codigo k p Ht Hf Hu).
  - intros Hid Hcod.
    rewrite (resolver_apos_id_vazio fp item s
               (buscar_por_id_sem_id fp item s Hid)).
    apply buscar_por_codigo_nada. exact Hcod.
  - intros H nao_encontrado.
    pose proof (process_item_nao_encontrado fp item s H) as Hp.
    split; [exact Hp|].
    intros faults i rest r Hfp. simpl. rewrite Hfp, Hp. reflexivity.
Qed.

(** C7, as the code has it. Whatever is raised while a record is processed
    is caught and becomes a conflict entry with reason [erro_interno], the
    text of the exception as message and the record's token as local_id; so
    it is when the storage fails a lookup or the back-fill. A product that
    is not resolved becomes an entry with reason [produto_nao_encontrado],
    the identifier and code as sent, and neither token nor message. No
    other conflict entry exists, and after a conflict the loop takes up the
    rest of the batch where the record left the session, counts and
    accepted tokens as they were. *)
Theorem C7_conflicts_are_structured :
  forall (fp : Faults) (item : AbastecimentoIn) (s : Session),
    let erro_interno (text : string) : dict :=
      [("reason", PyStr "erro_interno");
       ("message", PyStr text);
       ("local_id",
        match local_id item with Some l => PyStr l | None => PyNone end)] in
    let nao_encontrado : dict :=
      [("reason", PyStr "produto_nao_encontrado");
       ("produto_id",
        match produto_id item with Some t => PyStr t | None => PyNone end);
       ("produto_codigo",
        match produto_codigo item with
        | Some t => PyStr t
        | None => PyNone
        end)] in
    (forall e s',
        item_body parse_uuid fp item s = (Raise e, s') ->
        process_item parse_uuid fp item s
        = (Conflito (erro_interno (exn_str e)), s'))
    /\ (forall codigo msg,
           sem_id parse_uuid item ->
           truthy (produto_codigo item) = Some codigo ->
           fp SelectProdutoByCodigo = Some msg ->
           process_item parse_uuid fp item s
           = (Conflito (erro_interno msg), s))
    /\ (forall k p ts msg,
           resolver_produto parse_uuid fp item s = (Ok (Some (k, p)), s) ->
           created_at item = Some ts ->
           (forall a, In a (abastecimentos s) ->
                      ~ tem_a_chave item (p_id p)
                          (resolver_usuario parse_uuid item) ts a) ->
           fp Flush = None ->
           fp UpdateCreatedAt = Some msg ->
           fst (process_item parse_uuid fp item s)
           = Conflito (erro_interno msg))
    /\ (resolver_produto parse_uuid fp item s = (Ok None, s) ->
        process_item parse_uuid fp item s = (Conflito nao_encontrado, s))
    /\ (forall c s',
           process_item parse_uuid fp item s = (Conflito c, s') ->
           c = nao_encontrado \/ exists e, c = erro_interno (exn_str e))
    /\ (dict_get "reason" nao_encontrado
        = Some (PyStr "produto_nao_encontrado")
        /\ dict_get "local_id" nao_encontrado = None
        /\ dict_get "message" nao_encontrado = None)
    /\ (forall faults before after r0 s0 c s',
           faults (List.length before) = fp ->
           snd (loop parse_uuid faults 0 before r0 s0) = s ->
           process_item parse_uuid fp item s = (Conflito c, s') ->
           let r := fst (loop parse_uuid faults 0 before r0 s0) in
           loop parse_uuid faults 0 (before ++ item :: after) r0 s0
           = loop parse_uuid faults (S (List.length before)) after
               {| inserted := inserted r; accepted := accepted r;
                  conflicts := conflicts r ++ [c] |} s').
Proof.
  intros fp item s erro_interno nao_encontrado.
  split; [|split; [|split; [|split; [|split; [|split]]]]].
  - intros e s' H. apply process_item_erro_interno. exact H.
  - intros codigo msg Hid Ht Hf.
    apply (process_item_erro_interno fp item s (StorageError msg) s).
    unfold item_body, bind.
    rewrite (resolver_apos_id_vazio fp item s
               (buscar_por_id_sem_id fp item s Hid)).
    unfold buscar_por_codigo, bind, await. rewrite Ht, Hf. reflexivity.
  - intros k p ts msg Hres Hts Hnew Hfl Hup.
    rewrite (process_item_cases fp item s k p Hres). cbv zeta.
    rewrite Hts, Hfl, Hup.
    assert (Hd : match fp SelectDuplicado with
                 | Some _ => false
                 | None => ja_aplicado item (p_id p)
                             (resolver_usuario parse_uuid item) ts s
                 end = false).
    { destruct (fp SelectDuplicado); [reflexivity|].
      apply ja_aplicado_nao. exact Hnew. }
    rewrite Hd. reflexivity.
  - apply process_item_nao_encontrado.
  - intros c s' H. unfold process_item in H.
    destruct (item_body parse_uuid fp item s) as [[o|e] s1] eqn:E.
    + left. unfold item_body, bind in E.
      destruct (resolver_produto parse_uuid fp item s) as [[[[k p]|]|e] s2];
        try discriminate.
      * destruct (dedupe fp item (p_id p) (resolver_usuario parse_uuid item) s2)
          as [[[]|e] s3]; try discriminate.
        -- unfold ret in E. congruence.
        -- destruct (gravar fp item k (p_id p)
                       (resolver_usuario parse_uuid item) s3) as [[[]|e] s4];
             unfold ret in E; try discriminate; congruence.
      * unfold ret in E. assert (o = Conflito (conflito_produto item))
          by congruence.
        subst o. inversion H. reflexivity.
    + right. exists e. inversion H. reflexivity.
  - repeat split.
  - intros faults before after r0 s0 c s' Hf Hs Hp r.
    rewrite loop_app, Hs. simpl loop at 1. simpl Nat.add.
    rewrite Hf, Hp. reflexivity.
Qed.

(** *** The claim about duplicates *)

End Properties.

(** ** The claims on the worked batch *)

Local Open Scope list_scope.

(** The example of the specification: ten units at 2.5 resolved by code,
    no total, no timestamp, give a row with total cost 25 and ten more
    units on hand. *)
Example spec_example :
  let item :=
    {| local_id := None; produto_id := None; produto_codigo := Some "SKU1";
       usuario_id := None; quantidade := 10%float;
       custo_unitario := 2.5%float; total_custo := None;
       observacao := None; created_at := None |} in
  let srv' :=
    snd (bulk_create_abastecimentos uuid_hex never final_ok
           {| items := [item] |} srv0) in
  map a_total_custo (tb_abastecimentos (srv_db srv')) = [25%float]
  /\ estoque_de 0 (tb_produtos (srv_db srv')) = Some 15%float.
Proof. split; vm_compute; reflexivity. Qed.

Lemma C3_witness :
  srv_db (snd (bulk_create_abastecimentos uuid_hex never final_ok
                 {| items := [rec_a; rec_missing] |} srv1))
  = srv_db srv1
  /\ srv_db (snd (bulk_create_abastecimentos uuid_hex never final_ok
                    {| items := [rec_a; rec_b] |} srv1))
     <> srv_db srv1.
Proof.
  split.
  - destruct (C3_commit_iff_inserted uuid_hex never final_ok
                {| items := [rec_a; rec_missing] |} srv1) as [Hnone _].
    apply Hnone. vm_compute. reflexivity.
  - destruct (C3_commit_iff_inserted uuid_hex never final_ok
                {| items := [rec_a; rec_b] |} srv1) as [_ [_ [Hsome _]]].
    apply Hsome; [vm_compute; discriminate | reflexivity].
Defined.

Lemma C5_witness :
  dedupe dedupe_fails rec_b 1%N None (open_session srv1)
  = (Ok false, open_session srv1)
  /\ exists srv',
      bulk_create_abastecimentos uuid_hex never final_ok
        {| items := [rec_b; rec_b] |} srv0
      = (Http200 {| inserted := 2;
                    accepted := accept rec_b (accept rec_b []);
                    conflicts := [] |}, srv')
      /\ tb_abastecimentos (srv_db srv')
         = tb_abastecimentos (srv_db srv0)
           ++ [linha rec_b (p_id sku1) (resolver_usuario uuid_hex rec_b)
                 (srv_next_id srv0) (srv_clock srv0 + 1)%Z;
               linha rec_b (p_id sku1) (resolver_usuario uuid_hex rec_b)
                 (srv_next_id srv0 + 1)%N (srv_clock srv0 + 1 + 1 + 1)%Z].
Proof.
  destruct (C5_no_timestamp_always_new uuid_hex rec_b eq_refl)
    as [Hskip [_ Htwice]].
  split.
  - apply Hskip.
  - apply (Htwice final_ok srv0 0 sku1); reflexivity.
Defined.

Lemma C8_witness :
  ja_aplicado rec_a 1%N None 77%Z (open_session srv1) = true
  /\ process_item uuid_hex dedupe_fails rec_a (open_session srv1)
     = (Inserido,
        inserido_em rec_a 0 (p_id sku1_apos)
          (resolver_usuario uuid_hex rec_a) (open_session srv1)).
Proof.
  split; [vm_compute; reflexivity|].
  destruct (C8_dedupe_failure_falls_through uuid_hex dedupe_fails rec_a
              (open_session srv1) 0 sku1_apos 77%Z "connection reset"
              eq_refl eq_refl eq_refl) as [_ [_ Hins]].
  apply Hins; reflexivity.
Defined.

Lemma C9_witness :
  exists front row,
    abastecimentos
      (snd (process_item uuid_hex no_faults rec_a (open_session srv0)))
    = front ++ [row]
    /\ List.length front
       = List.length (abastecimentos (open_session srv0))
         + List.length (pending (open_session srv0))
    /\ a_id row = next_id (open_session srv0)
    /\ a_quantidade row = quantidade rec_a
    /\ a_custo_unitario row = custo_unitario rec_a
    /\ a_total row = (quantidade rec_a * custo_unitario rec_a)%float
    /\ a_total_custo row =
       match total_custo rec_a with
       | Some tc => tc
       | None => (quantidade rec_a * custo_unitario rec_a)%float
       end.
Proof.
  apply (C9_stored_totals uuid_hex no_faults rec_a (open_session srv0)).
  vm_compute. reflexivity.
Defined.

Lemma C10_witness :
  resolver_usuario uuid_hex rec_bad_actor = None
  /\ bulk_create_abastecimentos uuid_hex never final_ok
       {| items := [rec_a] ++ rec_bad_actor :: [rec_a] |} srv0
     = bulk_create_abastecimentos uuid_hex never final_ok
         {| items := [rec_a] ++ sem_usuario rec_bad_actor :: [rec_a] |} srv0.
Proof.
  destruct (C10_malformed_actor_is_no_actor uuid_hex rec_bad_actor
              "operador-7" eq_refl eq_refl) as [Hnone [_ [_ [_ Hbatch]]]].
  split; [exact Hnone|apply Hbatch].
Defined.


Lemma C6_witness :
  resolver_produto uuid_hex no_faults rec_b (open_session srv0)
  = (Ok (Some (0, sku1)), open_session srv0)
  /\ resolver_produto uuid_hex no_faults rec_a (open_session srv0)
     = (Ok (Some (0, sku1)), open_session srv0)
  /\ resolver_produto uuid_hex no_faults rec_missing (open_session srv0)
     = (Ok None, open_session srv0)
  /\ process_item uuid_hex no_faults rec_missing (open_session srv0)
     = (Conflito [("reason", PyStr "produto_nao_encontrado");
                  ("produto_id", PyStr "not-a-uuid");
                  ("produto_codigo", PyStr "NOPE")],
        open_session srv0).
Proof.
  destruct (C6_resolution_by_id_then_code uuid_hex no_faults rec_b
              (open_session srv0)) as [_ [Hid _]].
  destruct (C6_resolution_by_id_then_code uuid_hex no_faults rec_a
              (open_session srv0)) as [_ [_ [Hcode _]]].
  destruct (C6_resolution_by_id_then_code uuid_hex no_faults rec_missing
              (open_session srv0)) as [_ [_ [_ [Hnone Hconf]]]].
  assert (Hsem : sem_id uuid_hex rec_missing).
  { right. exists "not-a-uuid". split; reflexivity. }
  assert (Hnada : resolver_produto uuid_hex no_faults rec_missing
                    (open_session srv0) = (Ok None, open_session srv0)).
  { apply Hnone; [exact Hsem|]. right. exists "NOPE".
    split; [reflexivity|]. split; [reflexivity|].
    intros q [<-|[]]. discriminate. }
  split; [|split; [|split]].
  - apply (Hid sku1_uuid 1%N 0 sku1); try reflexivity.
    split; [reflexivity|]. split; [reflexivity|].
    intros [|[|j]] q H _; [reflexivity|discriminate H|discriminate H].
  - apply (Hcode "SKU1" 0 sku1); try reflexivity.
    + left. reflexivity.
    + split; [reflexivity|]. split; [reflexivity|].
      intros [|[|j]] q H _; [reflexivity|discriminate H|discriminate H].
  - exact Hnada.
  - apply (Hconf Hnada).
Defined.

Lemma C7_witness :
  fst (process_item uuid_hex (backfill_fails_first 0) rec_a
         (open_session srv0))
  = Conflito [("reason", PyStr "erro_interno");
              ("message", PyStr "lock wait timeout");
              ("local_id", PyStr "L1")]
  /\ process_item uuid_hex no_faults rec_missing (open_session srv0)
     = (Conflito [("reason", PyStr "produto_nao_encontrado");
                  ("produto_id", PyStr "not-a-uuid");
                  ("produto_codigo", PyStr "NOPE")],
        open_session srv0).
Proof.
  destruct (C7_conflicts_are_structured uuid_hex (backfill_fails_first 0)
              rec_a (open_session srv0)) as [_ [_ [Hfill _]]].
  destruct (C7_conflicts_are_structured uuid_hex no_faults rec_missing
              (open_session srv0)) as [_ [_ [_ [Hnone _]]]].
  split.
  - apply (Hfill 0 sku1 77%Z "lock wait timeout"); try reflexivity.
    intros a [].
  - apply Hnone. reflexivity.
Defined.

(** A record whose product is unknown: the conflict entry carries neither
    the record's token nor a message. *)
Lemma C7_not_found_has_no_token :
  local_id rec_missing = Some "L3"
  /\ fst (bulk_create_abastecimentos uuid_hex never final_ok
            {| items := [rec_missing] |} srv0)
     = Http200
         {| inserted := 0; accepted := [];
            conflicts :=
              [[("reason", PyStr "produto_nao_encontrado");
                ("produto_id", PyStr "not-a-uuid");
                ("produto_codigo", PyStr "NOPE")]] |}
  /\ dict_get "local_id"
       [("reason", PyStr "produto_nao_encontrado");
        ("produto_id", PyStr "not-a-uuid");
        ("produto_codigo", PyStr "NOPE")] = None
  /\ dict_get "message"
       [("reason", PyStr "produto_nao_encontrado");
        ("produto_id", PyStr "not-a-uuid");
        ("produto_codigo", PyStr "NOPE")] = None.
Proof. repeat split; vm_compute; reflexivity. Qed.

(** ** Where the code departs from the claims: a failed back-fill

    The row is flushed under the server's timestamp before the claimed one
    is written over it (lines 229-238). When that update fails, the handler
    of line 243 reports the record as a conflict and undoes nothing. *)

(** C2 at the failing input. The catalogue holds five units; the batch is
    [rec_a], ten units with a claimed timestamp, then [rec_b], three units;
    the storage fails the back-fill of the first and nothing else. The
    answer counts one insertion, accepts the second token only and reports
    the first record as an [erro_interno] conflict, yet the committed stock
    is 18 and not 8: the conflict has contributed its ten units. Sent again,
    the first record is not recognised, its row being under the server's
    timestamp: it is inserted, and the stock, at 28, has counted it
    twice. *)
Theorem C2_failed_backfill_counts_stock :
  let first :=
    bulk_create_abastecimentos uuid_hex backfill_fails_first final_ok
      {| items := [rec_a; rec_b] |} srv0 in
  let again :=
    bulk_create_abastecimentos uuid_hex never final_ok
      {| items := [rec_a] |} (snd first) in
  map p_estoque (tb_produtos (srv_db srv0)) = [Some 5%float]
  /\ map quantidade [rec_a; rec_b] = [10%float; 3%float]
  /\ fst first
     = Http200
         {| inserted := 1; accepted := ["L2"];
            conflicts :=
              [[("reason", PyStr "erro_interno");
                ("message", PyStr "lock wait timeout");
                ("local_id", PyStr "L1")]] |}
  /\ map p_estoque (tb_produtos (srv_db (snd first))) = [Some 18%float]
  /\ fst again
     = Http200 {| inserted := 1; accepted := ["L1"]; conflicts := [] |}
  /\ map p_estoque (tb_produtos (srv_db (snd again))) = [Some 28%float]
  /\ map a_quantidade (tb_abastecimentos (srv_db (snd again)))
     = [10%float; 3%float; 10%float].
Proof. repeat split; vm_compute; reflexivity. Qed.

(** C4 at the failing input. The catalogue holds two products and the
    ledger is empty; the batch is [rec_a] for the first product, with a
    claimed timestamp, then [rec_c] for the second; the storage fails the
    back-fill of the first record and nothing else. The first record is
    reported as an [erro_interno] conflict and only the second is counted
    and accepted, yet the state the request commits holds all that the
    failed record did: its row, under the server's timestamp instead of
    the claimed one, its ten units on the first product, and the refreshed
    [updated_at] of that product. *)
Theorem C4_failed_backfill_is_committed :
  let request :=
    bulk_create_abastecimentos uuid_hex backfill_fails_first final_ok
      {| items := [rec_a; rec_c] |} srv_dois in
  srv_db srv_dois
  = {| tb_produtos :=
         [{| p_id := 1%N; p_codigo := "SKU1"; p_estoque := Some 5%float;
             p_updated_at := None |};
          {| p_id := 2%N; p_codigo := "SKU2"; p_estoque := None;
             p_updated_at := None |}];
       tb_abastecimentos := [] |}
  /\ created_at rec_a = Some 77%Z
  /\ fst request
     = Http200
         {| inserted := 1; accepted := ["L5"];
            conflicts :=
              [[("reason", PyStr "erro_interno");
                ("message", PyStr "lock wait timeout");
                ("local_id", PyStr "L1")]] |}
  /\ srv_db (snd request)
     = {| tb_produtos :=
            [{| p_id := 1%N; p_codigo := "SKU1"; p_estoque := Some 15%float;
                p_updated_at := Some 1000%Z |};
             {| p_id := 2%N; p_codigo := "SKU2"; p_estoque := Some 4%float;
                p_updated_at := Some 1002%Z |}];
          tb_abastecimentos :=
            [{| a_id := 100%N; a_produto_id := 1%N; a_usuario_id := None;
                a_quantidade := 10%float; a_custo_unitario := 2.5%float;
                a_total := 25%float; a_total_custo := 25%float;
                a_observacao := None; a_created_at := Some 1001%Z |};
             {| a_id := 101%N; a_produto_id := 2%N; a_usuario_id := None;
                a_quantidade := 4%float; a_custo_unitario := 1.5%float;
                a_total := 6%float; a_total_custo := 6%float;
                a_observacao := None; a_created_at := Some 1003%Z |}] |}.
Proof. repeat split; vm_compute; reflexivity. Qed.

(** ** The history endpoint: validation, pages, filters *)

Section HistoricoProperties.

Local Open Scope list_scope.

Variable parse_uuid : string -> option UUID.
Variable fromisoformat : string -> option datetime.
Variable str_uuid : UUID -> string.
Variable isoformat : datetime -> string.
Variable produto_nome : Produto -> option string.
Variable usuario_nome : UUID -> option string.
Variable order_by : bool -> list Abastecimento -> list Abastecimento.

Lemma filtro_inl {A} text (parse : string -> option A) mk detail conds d :
  filtro text parse mk detail conds = inl d ->
  d = detail /\ malformado text parse.
Proof.
  unfold filtro, malformado. destruct (truthy text) as [t|]; [|discriminate].
  destruct (parse t) eqn:E; [discriminate|].
  intros H. inversion H. split; [reflexivity|]. exists t. split; auto.
Qed.

Lemma filtro_inr {A} text (parse : string -> option A) mk detail conds c :
  filtro text parse mk detail conds = inr c ->
  ~ malformado text parse
  /\ ((truthy text = None /\ c = conds)
      \/ exists t v, truthy text = Some t /\ parse t = Some v
                     /\ c = conds ++ [mk v]).
Proof.
  unfold filtro, malformado. destruct (truthy text) as [t|].
  - destruct (parse t) as [v|] eqn:E; [|discriminate].
    intros H. inversion H. split.
    + intros [t' [Ht Hp]]. inversion Ht; subst. congruence.
    + right. exists t, v. auto.
  - intros H. inversion H. split.
    + intros [t' [Ht _]]. discriminate.
    + left. auto.
Qed.

Lemma filtro_malformado {A} text (parse : string -> option A) mk detail conds :
  malformado text parse -> filtro text parse mk detail conds = inl detail.
Proof.
  intros [t [Ht Hp]]. unfold filtro. rewrite Ht, Hp. reflexivity.
Qed.

Lemma filtro_bem_formado {A} text (parse : string -> option A) mk detail conds :
  ~ malformado text parse ->
  exists c, filtro text parse mk detail conds = inr c.
Proof.
  intros H. unfold filtro. destruct (truthy text) as [t|] eqn:Ht.
  - destruct (parse t) eqn:Hp.
    + eexists. reflexivity.
    + exfalso. apply H. exists t. auto.
  - eexists. reflexivity.
Qed.

(** The four filters all parse exactly when [condicoes] gives conditions. *)
Lemma condicoes_inr_iff q :
  (exists conds, condicoes parse_uuid fromisoformat q = inr conds)
  <-> ~ (malformado (data_inicial q) fromisoformat
         \/ malformado (data_final q) fromisoformat
         \/ malformado (q_produto_id q) parse_uuid
         \/ malformado (q_usuario_id q) parse_uuid).
Proof.
  unfold condicoes. split.
  - intros [conds H].
    destruct (filtro (data_inicial q) fromisoformat created_at_ge _ [])
      as [d|c1] eqn:E1; [discriminate|].
    destruct (filtro (data_final q) fromisoformat created_at_le _ c1)
      as [d|c2] eqn:E2; [discriminate|].
    destruct (filtro (q_produto_id q) parse_uuid produto_id_eq _ c2)
      as [d|c3] eqn:E3; [discriminate|].
    apply filtro_inr in E1, E2, E3, H.
    intros [M|[M|[M|M]]]; tauto.
  - intros H.
    destruct (filtro_bem_formado (data_inicial q) fromisoformat created_at_ge
                "data_inicial inválida" []) as [c1 E1]; [tauto|].
    rewrite E1.
    destruct (filtro_bem_formado (data_final q) fromisoformat created_at_le
                "data_final inválida" c1) as [c2 E2]; [tauto|].
    rewrite E2.
    destruct (filtro_bem_formado (q_produto_id q) parse_uuid produto_id_eq
                "produto_id inválido" c2) as [c3 E3]; [tauto|].
    rewrite E3.
    destruct (filtro_bem_formado (q_usuario_id q) parse_uuid usuario_id_eq
                "usuario_id inválido" c3) as [c4 E4]; [tauto|].
    exists c4. exact E4.
Qed.

(** X1. The status of the answer is decided by the filters and the
    storage alone: 400 exactly when some filter that was sent does not
    parse, whatever the storage does; otherwise 500 with the storage's
    message when the query fails, and 200 with a page when it does not. *)
Theorem historico_status :
  forall (fault : option string) (q : HistoricoQuery) (db : Database),
    let r := get_historico_abastecimentos parse_uuid fromisoformat str_uuid
               isoformat produto_nome usuario_nome order_by fault q db in
    let algum_malformado :=
      malformado (data_inicial q) fromisoformat
      \/ malformado (data_final q) fromisoformat
      \/ malformado (q_produto_id q) parse_uuid
      \/ malformado (q_usuario_id q) parse_uuid in
    (algum_malformado <-> exists detail, r = HistoricoErro 400 detail)
    /\ (~ algum_malformado ->
        forall msg, fault = Some msg ->
        r = HistoricoErro 500 ("Erro ao buscar histórico: " ++ msg)%string)
    /\ (~ algum_malformado -> fault = None ->
        exists body, r = Historico200 body
                     /\ hp_pagina body = pagina q
                     /\ hp_limite body = limite q).
Proof.
  intros fault q db r mal. unfold r, get_historico_abastecimentos.
  pose proof (condicoes_inr_iff q) as Hiff. fold mal in Hiff.
  destruct (condicoes parse_uuid fromisoformat q) as [d|conds] eqn:E.
  - assert (Hm : mal).
    { destruct (filtro (data_inicial q) fromisoformat created_at_ge
                  "data_inicial inválida" []) as [d1|c1] eqn:E1.
      - left. exact (proj2 (filtro_inl _ _ _ _ _ _ E1)).
      - unfold condicoes in E. rewrite E1 in E.
        destruct (filtro (data_final q) fromisoformat created_at_le
                    "data_final inválida" c1) as [d2|c2] eqn:E2.
        + right. left. exact (proj2 (filtro_inl _ _ _ _ _ _ E2)).
        + destruct (filtro (q_produto_id q) parse_uuid produto_id_eq
                      "produto_id inválido" c2) as [d3|c3] eqn:E3.
          * right. right. left. exact (proj2 (filtro_inl _ _ _ _ _ _ E3)).
          * right. right. right. exact (proj2 (filtro_inl _ _ _ _ _ _ E)). }
    split; [|split]; [|tauto..].
    split; [|intros _; exact Hm]. intros _. exists d. reflexivity.
  - assert (Hn : ~ mal) by (apply Hiff; exists conds; reflexivity).
    split; [|split].
    + split; [tauto|]. intros [d H]. destruct fault; discriminate.
    + intros _ msg Hf. rewrite Hf. reflexivity.
    + intros _ Hf. rewrite Hf. eexists. split; [reflexivity|].
      split; reflexivity.
Qed.

(** X2. The filters are checked in the order initial date, final date,
    product, user, and the first that does not parse names the detail of
    the 400. *)
Theorem historico_primeiro_malformado :
  forall (fault : option string) (q : HistoricoQuery) (db : Database),
    let r := get_historico_abastecimentos parse_uuid fromisoformat str_uuid
               isoformat produto_nome usuario_nome order_by fault q db in
    (malformado (data_inicial q) fromisoformat ->
     r = HistoricoErro 400 "data_inicial inválida")
    /\ (~ malformado (data_inicial q) fromisoformat ->
        malformado (data_final q) fromisoformat ->
        r = HistoricoErro 400 "data_final inválida")
    /\ (~ malformado (data_inicial q) fromisoformat ->
        ~ malformado (data_final q) fromisoformat ->
        malformado (q_produto_id q) parse_uuid ->
        r = HistoricoErro 400 "produto_id inválido")
    /\ (~ malformado (data_inicial q) fromisoformat ->
        ~ malformado (data_final q) fromisoformat ->
        ~ malformado (q_produto_id q) parse_uuid ->
        malformado (q_usuario_id q) parse_uuid ->
        r = HistoricoErro 400 "usuario_id inválido").
Proof.
  intros fault q db r. unfold r, get_historico_abastecimentos, condicoes.
  split; [|split; [|split]].
  - intros M. rewrite (filtro_malformado _ _ _ _ _ M). reflexivity.
  - intros N1 M.
    destruct (filtro_bem_formado (data_inicial q) fromisoformat created_at_ge
                "data_inicial inválida" [] N1) as [c1 E1]. rewrite E1.
    rewrite (filtro_malformado _ _ _ _ _ M). reflexivity.
  - intros N1 N2 M.
    destruct (filtro_bem_formado (data_inicial q) fromisoformat created_at_ge
                "data_inicial inválida" [] N1) as [c1 E1]. rewrite E1.
    destruct (filtro_bem_formado (data_final q) fromisoformat created_at_le
                "data_final inválida" c1 N2) as [c2 E2]. rewrite E2.
    rewrite (filtro_malformado _ _ _ _ _ M). reflexivity.
  - intros N1 N2 N3 M.
    destruct (filtro_bem_formado (data_inicial q) fromisoformat created_at_ge
                "data_inicial inválida" [] N1) as [c1 E1]. rewrite E1.
    destruct (filtro_bem_formado (data_final q) fromisoformat created_at_le
                "data_final inválida" c1 N2) as [c2 E2]. rewrite E2.
    destruct (filtro_bem_formado (q_produto_id q) parse_uuid produto_id_eq
                "produto_id inválido" c2 N3) as [c3 E3]. rewrite E3.
    rewrite (filtro_malformado _ _ _ _ _ M). reflexivity.
Qed.

(** *** Pages *)

Lemma firstn_add {A} (a b : nat) (l : list A) :
  firstn (a + b) l = firstn a l ++ firstn b (skipn a l).
Proof.
  revert l. induction a as [|a IH]; intros l; simpl.
  - reflexivity.
  - destruct l as [|x l]; simpl.
    + rewrite firstn_nil. reflexivity.
    + rewrite IH. reflexivity.
Qed.

Lemma firstn_fatia {A} (lo n : nat) (l : list A) :
  firstn n (fatia lo (n + 1) l) = fatia lo n l.
Proof.
  unfold fatia. rewrite firstn_firstn.
  replace (Nat.min n (n + 1)) with n by lia. reflexivity.
Qed.

Lemma length_fatia {A} (lo n : nat) (l : list A) :
  List.length (fatia lo n l) = Nat.min n (List.length l - lo).
Proof. unfold fatia. rewrite length_firstn, length_skipn. reflexivity. Qed.

(** The page of a query, in terms of the ordered rows that match. *)
Lemma pagina_de_eq q conds db :
  let rows := consulta order_by q conds db in
  let lim := Pos.to_nat (limite q) in
  hp_items (pagina_de str_uuid isoformat produto_nome usuario_nome order_by
              q conds db)
  = map (serialize str_uuid isoformat produto_nome usuario_nome db)
      (fatia (offset q) lim rows)
  /\ has_next (pagina_de str_uuid isoformat produto_nome usuario_nome
                 order_by q conds db)
     = (offset q + lim <? List.length rows)%nat.
Proof.
  intros rows lim. unfold pagina_de. simpl. fold rows lim. split.
  - rewrite firstn_fatia. reflexivity.
  - rewrite length_fatia.
    destruct (Nat.ltb_spec lim (Nat.min (lim + 1) (List.length rows - offset q)));
      destruct (Nat.ltb_spec (offset q + lim) (List.length rows));
      try reflexivity; lia.
Qed.

Lemma condicoes_na_pagina k q :
  condicoes parse_uuid fromisoformat (na_pagina k q)
  = condicoes parse_uuid fromisoformat q.
Proof. reflexivity. Qed.

Lemma consulta_na_pagina k q conds db :
  consulta order_by (na_pagina k q) conds db = consulta order_by q conds db.
Proof. reflexivity. Qed.

Lemma itens_de_200 body : itens_de (Historico200 body) = hp_items body.
Proof. reflexivity. Qed.

Lemma flat_map_single {A B} (f : A -> list B) (x : A) :
  flat_map f [x] = f x.
Proof. simpl. apply app_nil_r. Qed.

Lemma limite_na_pagina k q : limite (na_pagina k q) = limite q.
Proof. reflexivity. Qed.

Lemma offset_na_pagina k q :
  offset (na_pagina k q) = (Pos.to_nat k - 1) * Pos.to_nat (limite q).
Proof. reflexivity. Qed.

(** X3. A page never holds more than [limite] items, and it is full
    whenever [has_next] is set. *)
Theorem historico_page_size :
  forall (fault : option string) (q : HistoricoQuery) (db : Database)
         (body : HistoricoPage),
    get_historico_abastecimentos parse_uuid fromisoformat str_uuid isoformat
      produto_nome usuario_nome order_by fault q db = Historico200 body ->
    List.length (hp_items body) <= Pos.to_nat (limite q)
    /\ (has_next body = true ->
        List.length (hp_items body) = Pos.to_nat (limite q)).
Proof.
  intros fault q db body H. unfold get_historico_abastecimentos in H.
  destruct (condicoes parse_uuid fromisoformat q) as [d|conds];
    [discriminate|].
  destruct fault; [discriminate|]. inversion H; subst body. clear H.
  destruct (pagina_de_eq q conds db) as [Hi Hn]. cbv zeta in Hi, Hn.
  rewrite Hi, Hn, length_map, length_fatia. split; [lia|].
  intros Hlt. apply Nat.ltb_lt in Hlt. lia.
Qed.

(** X4. [has_next] tells the truth: it is set exactly when the next page
    of the same query holds at least one item. *)
Theorem historico_has_next_iff :
  forall (q : HistoricoQuery) (db : Database) (body : HistoricoPage),
    get_historico_abastecimentos parse_uuid fromisoformat str_uuid isoformat
      produto_nome usuario_nome order_by None q db = Historico200 body ->
    exists seguinte,
      get_historico_abastecimentos parse_uuid fromisoformat str_uuid isoformat
        produto_nome usuario_nome order_by None
        (na_pagina (pagina q + 1) q) db = Historico200 seguinte
      /\ (has_next body = true <-> hp_items seguinte <> []).
Proof.
  intros q db body H. unfold get_historico_abastecimentos in *.
  change (condicoes parse_uuid fromisoformat (na_pagina (pagina q + 1) q))
    with (condicoes parse_uuid fromisoformat q).
  destruct (condicoes parse_uuid fromisoformat q) as [d|conds];
    [discriminate|].
  inversion H; subst body. clear H.
  eexists. split; [reflexivity|].
  destruct (pagina_de_eq q conds db) as [_ Hn].
  destruct (pagina_de_eq (na_pagina (pagina q + 1) q) conds db) as [Hi _].
  cbv zeta in Hi, Hn. rewrite Hn, Hi.
  change (consulta order_by (na_pagina (pagina q + 1) q) conds db)
    with (consulta order_by q conds db).
  change (limite (na_pagina (pagina q + 1) q)) with (limite q).
  rewrite offset_na_pagina.
  set (rows := consulta order_by q conds db).
  set (lim := Pos.to_nat (limite q)).
  assert (Hlim : 1 <= lim) by (unfold lim; lia).
  assert (Hoff : (Pos.to_nat (pagina q + 1) - 1) * lim = offset q + lim).
  { unfold offset. fold lim. rewrite Pos2Nat.inj_add.
    change (Pos.to_nat 1) with 1.
    pose proof (Pos2Nat.is_pos (pagina q)). nia. }
  rewrite Hoff. rewrite Nat.ltb_lt. split.
  - intros Hlt E. apply (f_equal (@List.length _)) in E.
    rewrite length_map, length_fatia in E. simpl in E. lia.
  - intros Hne.
    destruct (Nat.lt_ge_cases (offset q + lim) (List.length rows)) as [|Hge];
      [assumption|].
    exfalso. apply Hne. unfold fatia. rewrite skipn_all2 by exact Hge.
    rewrite firstn_nil. reflexivity.
Qed.

Lemma varredura_eq q db conds n :
  condicoes parse_uuid fromisoformat q = inr conds ->
  varredura parse_uuid fromisoformat str_uuid isoformat produto_nome
    usuario_nome order_by q db n
  = map (serialize str_uuid isoformat produto_nome usuario_nome db)
      (firstn (n * Pos.to_nat (limite q)) (consulta order_by q conds db)).
Proof.
  intros Hc. unfold varredura. induction n as [|n IH].
  - reflexivity.
  - rewrite seq_S, flat_map_app, IH, flat_map_single.
    change (1 + n) with (S n).
    unfold get_historico_abastecimentos.
    rewrite condicoes_na_pagina, Hc, itens_de_200.
    destruct (pagina_de_eq (na_pagina (Pos.of_nat (S n)) q) conds db)
      as [Hi _].
    cbv zeta in Hi. rewrite Hi, offset_na_pagina, consulta_na_pagina,
      limite_na_pagina.
    rewrite Nat2Pos.id by discriminate.
    replace (S n - 1) with n by lia.
    replace (S n * Pos.to_nat (limite q))
      with (n * Pos.to_nat (limite q) + Pos.to_nat (limite q)) by lia.
    rewrite firstn_add, map_app. reflexivity.
Qed.

(** X5. Asking for pages 1 to [n] in turn gives the first [n * limite]
    matching rows, each once and in the order of the query; and when page
    [n] says that no page follows, the client holds every matching row. *)
Theorem historico_pages_cover :
  forall (q : HistoricoQuery) (db : Database) (conds : list Cond) (n : nat),
    condicoes parse_uuid fromisoformat q = inr conds ->
    let rows := consulta order_by q conds db in
    let ser := serialize str_uuid isoformat produto_nome usuario_nome db in
    varredura parse_uuid fromisoformat str_uuid isoformat produto_nome
      usuario_nome order_by q db n
    = map ser (firstn (n * Pos.to_nat (limite q)) rows)
    /\ (forall body,
           1 <= n ->
           get_historico_abastecimentos parse_uuid fromisoformat str_uuid
             isoformat produto_nome usuario_nome order_by None
             (na_pagina (Pos.of_nat n) q) db = Historico200 body ->
           has_next body = false ->
           varredura parse_uuid fromisoformat str_uuid isoformat produto_nome
             usuario_nome order_by q db n
           = map ser rows).
Proof.
  intros q db conds n Hc rows ser. split.
  - apply varredura_eq. exact Hc.
  - intros body Hn H Hlast. rewrite (varredura_eq q db conds n Hc).
    fold rows ser. f_equal. apply firstn_all2.
    unfold get_historico_abastecimentos in H.
    rewrite condicoes_na_pagina, Hc in H. inversion H; subst body. clear H.
    destruct (pagina_de_eq (na_pagina (Pos.of_nat n) q) conds db) as [_ Hh].
    cbv zeta in Hh. rewrite Hh in Hlast.
    rewrite offset_na_pagina, consulta_na_pagina, limite_na_pagina in Hlast.
    fold rows in Hlast.
    rewrite Nat2Pos.id in Hlast by lia.
    apply Nat.ltb_ge in Hlast.
    pose proof (Pos2Nat.is_pos (limite q)). nia.
Qed.

(** *** Filters and order *)

Lemma filtro_todos {A} text (parse : string -> option A) mk detail conds c :
  filtro text parse mk detail conds = inr c ->
  forall a,
    (forall x, In x c -> x a = true)
    <-> (forall x, In x conds -> x a = true)
        /\ (forall t v, truthy text = Some t -> parse t = Some v ->
                        mk v a = true).
Proof.
  intros H a.
  destruct (filtro_inr _ _ _ _ _ _ H) as [_ [[Ht E]|[t [v [Ht [Hp E]]]]]];
    subst c.
  - split.
    + intros Hc. split; [exact Hc|]. intros t v Ht'. congruence.
    + intros [Hc _]. exact Hc.
  - split.
    + intros Hc. split.
      * intros x Hx. apply Hc, in_or_app. left. exact Hx.
      * intros t' v' Ht' Hp'.
        assert (t' = t) by congruence. subst t'.
        assert (v' = v) by congruence. subst v'.
        apply Hc, in_or_app. right. left. reflexivity.
    + intros [Hc Hm] x Hx. apply in_app_or in Hx. destruct Hx as [Hx|[Hx|[]]].
      * apply Hc. exact Hx.
      * subst x. apply (Hm t v Ht Hp).
Qed.

Lemma satisfaz_iff q conds a :
  condicoes parse_uuid fromisoformat q = inr conds ->
  satisfaz parse_uuid fromisoformat q a
  <-> (forall c, In c conds -> c a = true).
Proof.
  unfold condicoes, satisfaz. intros H.
  destruct (filtro (data_inicial q) fromisoformat created_at_ge _ [])
    as [d|c1] eqn:E1; [discriminate|].
  destruct (filtro (data_final q) fromisoformat created_at_le _ c1)
    as [d|c2] eqn:E2; [discriminate|].
  destruct (filtro (q_produto_id q) parse_uuid produto_id_eq _ c2)
    as [d|c3] eqn:E3; [discriminate|].
  rewrite (filtro_todos _ _ _ _ _ _ H a), (filtro_todos _ _ _ _ _ _ E3 a),
    (filtro_todos _ _ _ _ _ _ E2 a), (filtro_todos _ _ _ _ _ _ E1 a).
  simpl. tauto.
Qed.

(** The rows of the query before sorting: the ledger rows on which every
    condition holds. *)
Lemma filtradas_In conds db a :
  In a match conds with
       | [] => tb_abastecimentos db
       | _ => filter (and_ conds) (tb_abastecimentos db)
       end
  <-> In a (tb_abastecimentos db) /\ (forall c, In c conds -> c a = true).
Proof.
  destruct conds as [|c0 conds].
  - simpl. tauto.
  - rewrite filter_In. unfold and_. rewrite forallb_forall. tauto.
Qed.

Lemma In_firstn {A} (n : nat) (l : list A) x :
  In x (firstn n l) -> In x l.
Proof.
  intros H. rewrite <- (firstn_skipn n l). apply in_or_app. left. exact H.
Qed.

Lemma In_skipn {A} (n : nat) (l : list A) x :
  In x (skipn n l) -> In x l.
Proof.
  intros H. rewrite <- (firstn_skipn n l). apply in_or_app. right. exact H.
Qed.

Lemma In_fatia {A} (lo n : nat) (l : list A) x :
  In x (fatia lo n l) -> In x l.
Proof.
  unfold fatia. intros H. apply In_firstn in H. apply In_skipn in H. exact H.
Qed.

(** X6. With a storage whose sort returns rows it was given, every item
    of a page is the serialisation of a ledger row that passes every
    filter sent: created no earlier than the initial date, no later than
    the final date, of the product and of the user asked for. *)
Theorem historico_filters_sound :
  (forall asc l a, In a (order_by asc l) -> In a l) ->
  forall (fault : option string) (q : HistoricoQuery) (db : Database)
         (body : HistoricoPage),
    get_historico_abastecimentos parse_uuid fromisoformat str_uuid isoformat
      produto_nome usuario_nome order_by fault q db = Historico200 body ->
    exists rows,
      hp_items body
      = map (serialize str_uuid isoformat produto_nome usuario_nome db) rows
      /\ Forall (fun a => In a (tb_abastecimentos db)
                          /\ satisfaz parse_uuid fromisoformat q a) rows.
Proof.
  intros Hsort fault q db body H. unfold get_historico_abastecimentos in H.
  destruct (condicoes parse_uuid fromisoformat q) as [d|conds] eqn:Hc;
    [discriminate|].
  destruct fault; [discriminate|]. inversion H; subst body. clear H.
  destruct (pagina_de_eq q conds db) as [Hi _]. cbv zeta in Hi.
  eexists. split; [exact Hi|].
  apply Forall_forall. intros a Ha. apply In_fatia in Ha.
  unfold consulta in Ha. apply Hsort in Ha. apply filtradas_In in Ha.
  destruct Ha as [Hin Hall]. split; [exact Hin|].
  apply (satisfaz_iff q conds a Hc). exact Hall.
Qed.

Lemma nth_error_fatia {A} (lo n : nat) (l : list A) j :
  j < n -> nth_error (fatia lo n l) j = nth_error l (lo + j).
Proof.
  intros H. unfold fatia. rewrite nth_error_firstn.
  destruct (Nat.ltb_spec j n); [|lia]. apply nth_error_skipn.
Qed.

Lemma consulta_em_alguma_pagina :
  (forall asc l a, In a l -> In a (order_by asc l)) ->
  forall (q : HistoricoQuery) (db : Database) (a : Abastecimento),
    ~ (malformado (data_inicial q) fromisoformat
       \/ malformado (data_final q) fromisoformat
       \/ malformado (q_produto_id q) parse_uuid
       \/ malformado (q_usuario_id q) parse_uuid) ->
    In a (tb_abastecimentos db) ->
    satisfaz parse_uuid fromisoformat q a ->
    exists k,
      In (serialize str_uuid isoformat produto_nome usuario_nome db a)
        (itens_de
           (get_historico_abastecimentos parse_uuid fromisoformat str_uuid
              isoformat produto_nome usuario_nome order_by None
              (na_pagina k q) db)).
Proof.
  intros Hsort q db a Hwf Hin Hsat.
  destruct (proj2 (condicoes_inr_iff q) Hwf) as [conds Hc].
  assert (Ha : In a (consulta order_by q conds db)).
  { unfold consulta. apply Hsort. apply filtradas_In. split; [exact Hin|].
    apply (satisfaz_iff q conds a Hc). exact Hsat. }
  destruct (In_nth_error _ _ Ha) as [i Hi].
  set (lim := Pos.to_nat (limite q)).
  assert (Hlim : 0 < lim) by (unfold lim; lia).
  exists (Pos.of_nat (S (i / lim))).
  unfold get_historico_abastecimentos.
  rewrite condicoes_na_pagina, Hc, itens_de_200.
  destruct (pagina_de_eq (na_pagina (Pos.of_nat (S (i / lim))) q) conds db)
    as [Hitems _].
  cbv zeta in Hitems.
  rewrite Hitems, offset_na_pagina, consulta_na_pagina, limite_na_pagina.
  rewrite Nat2Pos.id by discriminate. fold lim.
  replace (S (i / lim) - 1) with (i / lim) by lia.
  apply in_map. apply (nth_error_In _ (i mod lim)).
  rewrite nth_error_fatia by (apply Nat.mod_upper_bound; lia).
  rewrite <- Hi. f_equal.
  rewrite (Nat.div_mod_eq i lim) at 3. lia.
Qed.

(** X7. With a storage whose sort loses no row, every ledger row that
    passes the filters is on some page of the query. *)
Theorem historico_filters_complete :
  (forall asc l a, In a l -> In a (order_by asc l)) ->
  forall (q : HistoricoQuery) (db : Database) (a : Abastecimento),
    ~ (malformado (data_inicial q) fromisoformat
       \/ malformado (data_final q) fromisoformat
       \/ malformado (q_produto_id q) parse_uuid
       \/ malformado (q_usuario_id q) parse_uuid) ->
    In a (tb_abastecimentos db) ->
    satisfaz parse_uuid fromisoformat q a ->
    exists k,
      In (serialize str_uuid isoformat produto_nome usuario_nome db a)
        (itens_de
           (get_historico_abastecimentos parse_uuid fromisoformat str_uuid
              isoformat produto_nome usuario_nome order_by None
              (na_pagina k q) db)).
Proof.
  intros Hsort q db a Hwf Hin Hsat.
  apply consulta_em_alguma_pagina; assumption.
Qed.

Lemma ForallOrdPairs_skipn {A} (R : A -> A -> Prop) n (l : list A) :
  ForallOrdPairs R l -> ForallOrdPairs R (skipn n l).
Proof.
  revert l. induction n as [|n IH]; intros l H; simpl; [exact H|].
  destruct l; [constructor|]. inversion H; subst. apply IH. assumption.
Qed.

Lemma ForallOrdPairs_firstn {A} (R : A -> A -> Prop) n (l : list A) :
  ForallOrdPairs R l -> ForallOrdPairs R (firstn n l).
Proof.
  revert l. induction n as [|n IH]; intros l H; simpl; [constructor|].
  destruct l as [|x l]; [constructor|]. inversion H; subst. constructor.
  - apply Forall_forall. intros y Hy. apply In_firstn in Hy.
    revert y Hy. apply Forall_forall. assumption.
  - apply IH. assumption.
Qed.

(** X8. With a storage that sorts as asked, the rows of a page, and the
    rows a client collects page after page, are in the order of the query:
    ascending [created_at] for [created_at_asc], descending for any other
    value of [ordenacao]. *)
Theorem historico_in_order :
  (forall asc l, ForallOrdPairs (antes_de asc) (order_by asc l)) ->
  forall (fault : option string) (q : HistoricoQuery) (db : Database),
    let asc := String.eqb (ordenacao q) "created_at_asc" in
    let ser := serialize str_uuid isoformat produto_nome usuario_nome db in
    (forall body,
        get_historico_abastecimentos parse_uuid fromisoformat str_uuid
          isoformat produto_nome usuario_nome order_by fault q db
        = Historico200 body ->
        exists rows, hp_items body = map ser rows
                     /\ ForallOrdPairs (antes_de asc) rows)
    /\ (forall n,
           exists rows,
             varredura parse_uuid fromisoformat str_uuid isoformat
               produto_nome usuario_nome order_by q db n = map ser rows
             /\ ForallOrdPairs (antes_de asc) rows).
Proof.
  intros Hsort fault q db asc ser. split.
  - intros body H. unfold get_historico_abastecimentos in H.
    destruct (condicoes parse_uuid fromisoformat q) as [d|conds];
      [discriminate|].
    destruct fault; [discriminate|]. inversion H; subst body. clear H.
    destruct (pagina_de_eq q conds db) as [Hi _]. cbv zeta in Hi.
    eexists. split; [exact Hi|].
    unfold fatia. apply ForallOrdPairs_firstn, ForallOrdPairs_skipn.
    unfold consulta. apply Hsort.
  - intros n.
    destruct (condicoes parse_uuid fromisoformat q) as [d|conds] eqn:Hc.
    + exists []. split; [|constructor].
      unfold varredura. induction (seq 1 n) as [|k l IH]; [reflexivity|].
      simpl. unfold get_historico_abastecimentos at 1.
      rewrite condicoes_na_pagina, Hc. simpl. exact IH.
    + eexists. split; [apply (varredura_eq q db conds n Hc)|].
      apply ForallOrdPairs_firstn. unfold consulta. apply Hsort.
Qed.

End HistoricoProperties.

(** ** The ingestion endpoint: what a request keeps *)

Section IngestaoProperties.

Local Open Scope list_scope.

Variable parse_uuid : string -> option UUID.

Lemma bulk_eq faults ff payload srv :
  bulk_create_abastecimentos parse_uuid faults ff payload srv
  = finish ff srv
      (fst (loop parse_uuid faults 0 (items payload) empty_response
              (open_session srv)))
      (snd (loop parse_uuid faults 0 (items payload) empty_response
              (open_session srv))).
Proof.
  unfold bulk_create_abastecimentos.
  destruct (loop parse_uuid faults 0 (items payload) empty_response
              (open_session srv)); reflexivity.
Qed.

(** The durable state after [finish]: the committed tables as they were,
    or the flushed session. *)
Lemma finish_cases ff srv r s :
  snd (finish ff srv r s) = close (srv_db srv) s
  \/ snd (finish ff srv r s)
     = close (tables (flush_pending s)) (flush_pending s).
Proof.
  unfold finish, on_error. destruct (inserted r).
  - left. destruct (ff Rollback); [destruct (ff RollbackOnError)|];
      reflexivity.
  - destruct (ff Commit).
    + left. destruct (ff RollbackOnError); reflexivity.
    + right. reflexivity.
Qed.

(** *** Rows are only ever appended *)

Lemma map_backfill_fresh i ts rows :
  Forall (fun j => (j < i)%N) (map a_id rows) ->
  map (fun a => if (a_id a =? i)%N then stamp ts a else a) rows = rows.
Proof.
  induction rows as [|a rows IH]; intros H; simpl; [reflexivity|].
  inversion H; subst. rewrite IH by assumption.
  destruct (N.eqb_spec (a_id a) i); [lia|reflexivity].
Qed.

Lemma process_item_next_id fp item s :
  next_id (snd (process_item parse_uuid fp item s)) =
  match chega_a_gravar parse_uuid fp item s with
  | Some _ => (next_id s + 1)%N
  | None => next_id s
  end.
Proof.
  destruct (process_item_shape parse_uuid fp item s)
    as [[Hc [Hs _]]|[k [p [_ [Hc [[msg [_ H]]|[[ts [msg [_ [_ [_ H]]]]]|[_ [_ H]]]]]]]]];
    rewrite Hc, ?H, ?Hs; simpl snd.
  - reflexivity.
  - reflexivity.
  - rewrite flush_preparado. reflexivity.
  - apply inserido_em_next_id.
Qed.

Lemma process_item_prefix fp item s :
  Forall (fun j => (j < next_id s)%N) (ids s) ->
  exists extra,
    abastecimentos (snd (process_item parse_uuid fp item s))
    = abastecimentos s ++ extra.
Proof.
  intros Hf.
  destruct (process_item_shape parse_uuid fp item s)
    as [[Hc [Hs _]]|[k [p [_ [Hc [[msg [_ H]]|[[ts [msg [_ [_ [_ H]]]]]|[_ [_ H]]]]]]]]];
    rewrite ?H, ?Hs; simpl snd.
  - exists []. symmetry. apply app_nil_r.
  - exists []. symmetry. apply app_nil_r.
  - rewrite flush_preparado. simpl. eexists. reflexivity.
  - unfold inserido_em. destruct (created_at item) as [ts|].
    + rewrite update_created_at_flushed, map_app.
      rewrite map_backfill_fresh.
      * rewrite <- app_assoc. eexists. reflexivity.
      * unfold ids in Hf. apply Forall_app in Hf. apply Hf.
    + rewrite flush_preparado. simpl. eexists. reflexivity.
Qed.

Lemma process_item_fresh fp item s :
  Forall (fun j => (j < next_id s)%N) (ids s) ->
  Forall (fun j => (j < next_id (snd (process_item parse_uuid fp item s)))%N)
    (ids (snd (process_item parse_uuid fp item s))).
Proof.
  intros Hf. rewrite process_item_ids, process_item_next_id.
  destruct (chega_a_gravar parse_uuid fp item s).
  - apply Forall_app. split.
    + eapply Forall_impl; [|exact Hf]. simpl. intros; lia.
    + constructor; [lia|constructor].
  - rewrite app_nil_r. exact Hf.
Qed.

Lemma loop_fresh faults items :
  forall i r s,
    Forall (fun j => (j < next_id s)%N) (ids s) ->
    let s' := snd (loop parse_uuid faults i items r s) in
    Forall (fun j => (j < next_id s')%N) (ids s')
    /\ exists extra, abastecimentos s' = abastecimentos s ++ extra.
Proof.
  induction items as [|item rest IH]; intros i r s Hf; simpl.
  - split; [exact Hf|]. exists []. symmetry. apply app_nil_r.
  - pose proof (process_item_fresh (faults i) item s Hf) as Hf'.
    destruct (process_item_prefix (faults i) item s Hf) as [e1 E1].
    destruct (process_item parse_uuid (faults i) item s) as [o s1].
    simpl snd in *.
    destruct (IH (S i) (record_outcome item o r) s1 Hf') as [Hf2 [e2 E2]].
    split; [exact Hf2|]. exists (e1 ++ e2).
    rewrite E2, E1, app_assoc. reflexivity.
Qed.

Lemma loop_next_id_mono faults items :
  forall i r s,
    (next_id s <= next_id (snd (loop parse_uuid faults i items r s)))%N.
Proof.
  induction items as [|item rest IH]; intros i r s; simpl; [lia|].
  pose proof (process_item_next_id (faults i) item s) as Hn.
  destruct (process_item parse_uuid (faults i) item s) as [o s1].
  simpl snd in Hn. specialize (IH (S i) (record_outcome item o r) s1).
  destruct (chega_a_gravar parse_uuid (faults i) item s); lia.
Qed.

Lemma flush_pending_next_id s : next_id (flush_pending s) = next_id s.
Proof. unfold flush_pending. destruct (pending s); reflexivity. Qed.

Lemma flush_pending_prefix s :
  exists extra, abastecimentos (flush_pending s) = abastecimentos s ++ extra.
Proof.
  unfold flush_pending. destruct (pending s); simpl.
  - exists []. symmetry. apply app_nil_r.
  - eexists. reflexivity.
Qed.

(** X9. Ingestion only appends to the ledger. On a server whose row
    identifiers are all below the next identifier to be drawn, whatever the
    batch and whatever fails, the committed ledger afterwards is the old
    one, row for row, followed by new rows, and the identifiers are again
    below the next one; so the back-fill of [created_at] never touches a
    row of an earlier request. *)
Theorem bulk_ledger_append_only :
  forall (srv : Server),
    ids_abaixo (srv_next_id srv) (tb_abastecimentos (srv_db srv)) ->
    forall (faults : nat -> Faults) (ff : FinalCall -> option string)
           (payload : AbastecimentoBulkIn),
      let srv' :=
        snd (bulk_create_abastecimentos parse_uuid faults ff payload srv) in
      (exists novas,
          tb_abastecimentos (srv_db srv')
          = tb_abastecimentos (srv_db srv) ++ novas)
      /\ ids_abaixo (srv_next_id srv') (tb_abastecimentos (srv_db srv')).
Proof.
  intros srv Hfresh faults ff payload srv'. unfold srv'. rewrite bulk_eq.
  set (r := fst (loop parse_uuid faults 0 (items payload) empty_response
                   (open_session srv))).
  set (s := snd (loop parse_uuid faults 0 (items payload) empty_response
                   (open_session srv))).
  assert (H0 : Forall (fun j => (j < next_id (open_session srv))%N)
                 (ids (open_session srv))).
  { unfold ids. simpl. rewrite app_nil_r. apply Forall_map. exact Hfresh. }
  destruct (loop_fresh faults (items payload) 0 empty_response
              (open_session srv) H0) as [Hf [extra E]].
  fold s in Hf, E. simpl in E.
  assert (Hmono : (srv_next_id srv <= next_id s)%N).
  { apply (loop_next_id_mono faults (items payload) 0 empty_response
             (open_session srv)). }
  destruct (finish_cases ff srv r s) as [Hr|Hr]; rewrite Hr; simpl.
  - split.
    + exists []. symmetry. apply app_nil_r.
    + eapply Forall_impl; [|exact Hfresh]. simpl. intros; lia.
  - split.
    + destruct (flush_pending_prefix s) as [e2 E2]. rewrite E2, E.
      rewrite <- app_assoc. eexists. reflexivity.
    + unfold ids_abaixo. rewrite flush_pending_next_id.
      destruct (ids_flush_pending s) as [E2 _].
      apply (proj1 (Forall_map a_id (fun j => (j < next_id s)%N) _)).
      rewrite E2. exact Hf.
Qed.

(** *** The catalogue and the references to it *)

Lemma process_item_produtos fp item s :
  produtos (snd (process_item parse_uuid fp item s)) =
  match chega_a_gravar parse_uuid fp item s with
  | Some k =>
      alter_nth (touch (clock s)) k
        (alter_nth (entrada (quantidade item)) k (produtos s))
  | None => produtos s
  end.
Proof.
  destruct (process_item_shape parse_uuid fp item s)
    as [[Hc [Hs _]]|[k [p [_ [Hc [[msg [_ H]]|[[ts [msg [_ [_ [_ H]]]]]|[_ [_ H]]]]]]]]];
    rewrite Hc, ?H, ?Hs; simpl snd.
  - reflexivity.
  - reflexivity.
  - rewrite flush_pending_produtos. reflexivity.
  - apply inserido_em_produtos.
Qed.

Lemma Forall2_mesmo_refl ps : Forall2 mesmo_produto ps ps.
Proof. induction ps; constructor; [split; reflexivity|assumption]. Qed.

Lemma process_item_catalogo fp item s :
  Forall2 mesmo_produto (produtos s)
    (produtos (snd (process_item parse_uuid fp item s))).
Proof.
  rewrite process_item_produtos.
  destruct (chega_a_gravar parse_uuid fp item s).
  - eapply Forall2_mesmo_trans; apply alter_nth_catalogo; intros p;
      split; reflexivity.
  - apply Forall2_mesmo_refl.
Qed.

Lemma loop_catalogo faults items :
  forall i r s,
    Forall2 mesmo_produto (produtos s)
      (produtos (snd (loop parse_uuid faults i items r s))).
Proof.
  induction items as [|item rest IH]; intros i r s; simpl.
  - apply Forall2_mesmo_refl.
  - pose proof (process_item_catalogo (faults i) item s) as Hstep.
    destruct (process_item parse_uuid (faults i) item s) as [o s1].
    simpl snd in Hstep.
    eapply Forall2_mesmo_trans; [exact Hstep|apply IH].
Qed.

Lemma catalogo_maps ps ps' :
  Forall2 mesmo_produto ps ps' ->
  map p_id ps' = map p_id ps /\ map p_codigo ps' = map p_codigo ps.
Proof.
  intros H. induction H as [|p p' l l' [E1 E2] _ [IH1 IH2]]; simpl.
  - split; reflexivity.
  - rewrite IH1, IH2, E1, E2. split; reflexivity.
Qed.

Lemma loop_untouched faults j items :
  forall i r s,
    entradas parse_uuid faults j i items s = [] ->
    nth_error (produtos (snd (loop parse_uuid faults i items r s))) j
    = nth_error (produtos s) j.
Proof.
  induction items as [|item rest IH]; intros i r s He; simpl.
  - reflexivity.
  - simpl in He.
    pose proof (process_item_produtos (faults i) item s) as Hp.
    destruct (process_item parse_uuid (faults i) item s) as [o s1].
    simpl snd in *.
    destruct (chega_a_gravar parse_uuid (faults i) item s) as [k|].
    + destruct (Nat.eqb k j) eqn:Ek; [discriminate|].
      apply Nat.eqb_neq in Ek. rename Ek into Hne.
      rewrite (IH (S i) (record_outcome item o r) s1 He), Hp.
      rewrite !nth_error_alter_other by exact Hne. reflexivity.
    + rewrite (IH (S i) (record_outcome item o r) s1 He), Hp. reflexivity.
Qed.

(** X10. Ingestion never adds, removes, renumbers or recodes a product:
    after any request, whatever fails, the catalogue has the same
    identifiers and codes in the same places, and a product that no record
    of the batch got to write for is exactly as it was. *)
Theorem bulk_catalogue_kept :
  forall (faults : nat -> Faults) (ff : FinalCall -> option string)
         (payload : AbastecimentoBulkIn) (srv : Server),
    let srv' :=
      snd (bulk_create_abastecimentos parse_uuid faults ff payload srv) in
    map p_id (tb_produtos (srv_db srv')) = map p_id (tb_produtos (srv_db srv))
    /\ map p_codigo (tb_produtos (srv_db srv'))
       = map p_codigo (tb_produtos (srv_db srv))
    /\ (forall j,
           entradas parse_uuid faults j 0 (items payload) (open_session srv)
           = [] ->
           nth_error (tb_produtos (srv_db srv')) j
           = nth_error (tb_produtos (srv_db srv)) j).
Proof.
  intros faults ff payload srv srv'. unfold srv'. rewrite bulk_eq.
  set (r := fst (loop parse_uuid faults 0 (items payload) empty_response
                   (open_session srv))).
  set (s := snd (loop parse_uuid faults 0 (items payload) empty_response
                   (open_session srv))).
  pose proof (loop_catalogo faults (items payload) 0 empty_response
                (open_session srv)) as Hcat.
  fold s in Hcat. simpl in Hcat.
  destruct (finish_cases ff srv r s) as [Hr|Hr]; rewrite Hr; simpl.
  - repeat split.
  - rewrite flush_pending_produtos.
    destruct (catalogo_maps _ _ Hcat) as [E1 E2].
    split; [exact E1|]. split; [exact E2|].
    intros j Hj. unfold s. apply loop_untouched. exact Hj.
Qed.

Lemma refs_flush_pending s : refs (flush_pending s) = refs s.
Proof.
  unfold flush_pending, refs. destruct (pending s) eqn:E.
  - rewrite E. reflexivity.
  - simpl. rewrite map_app. simpl. rewrite map_map, app_nil_r. reflexivity.
Qed.

Lemma refs_update_created_at i ts s :
  refs (update_created_at i ts s) = refs s.
Proof.
  unfold refs, update_created_at. simpl. rewrite map_map. f_equal.
  apply map_ext. intros a. destruct (a_id a =? i)%N; reflexivity.
Qed.

Lemma refs_preparado item k pid u s :
  refs (preparado item k pid u s) = refs s ++ [pid].
Proof.
  unfold refs, preparado. simpl. rewrite map_app, app_assoc. reflexivity.
Qed.

Lemma process_item_refs fp item s :
  exists extra,
    refs (snd (process_item parse_uuid fp item s)) = refs s ++ extra
    /\ Forall (fun i => In i (map p_id (produtos s))) extra.
Proof.
  destruct (process_item_shape parse_uuid fp item s)
    as [[Hc [Hs _]]|[k [p [Hres [Hc Hcases]]]]].
  - exists []. rewrite Hs, app_nil_r. split; [reflexivity|constructor].
  - exists [p_id p]. split.
    + destruct Hcases as [[msg [_ H]]|[[ts [msg [_ [_ [_ H]]]]]|[_ [_ H]]]];
        rewrite H; simpl snd.
      * apply refs_preparado.
      * rewrite refs_flush_pending. apply refs_preparado.
      * unfold inserido_em. destruct (created_at item);
          rewrite ?refs_update_created_at, refs_flush_pending;
          apply refs_preparado.
    + constructor; [|constructor]. apply in_map.
      apply (nth_error_In _ k).
      apply (resolver_produto_nth parse_uuid fp item s k p s Hres).
Qed.

Lemma loop_refs faults items :
  forall i r s,
    Forall (fun i => In i (map p_id (produtos s))) (refs s) ->
    let s' := snd (loop parse_uuid faults i items r s) in
    Forall (fun i => In i (map p_id (produtos s'))) (refs s').
Proof.
  induction items as [|item rest IH]; intros i r s H; simpl; [exact H|].
  destruct (process_item_refs (faults i) item s) as [extra [E Hx]].
  pose proof (process_item_catalogo (faults i) item s) as Hcat.
  destruct (process_item parse_uuid (faults i) item s) as [o s1].
  simpl snd in *. apply IH. rewrite E.
  destruct (catalogo_maps _ _ Hcat) as [Eid _]. rewrite Eid.
  apply Forall_app. split; assumption.
Qed.

(** X11. Ingestion keeps the ledger's references valid: when every
    committed row refers to a product of the catalogue, so does every row
    committed after any request, whatever fails. *)
Theorem bulk_references_kept :
  forall (srv : Server),
    referencias_validas (tb_produtos (srv_db srv))
      (tb_abastecimentos (srv_db srv)) ->
    forall (faults : nat -> Faults) (ff : FinalCall -> option string)
           (payload : AbastecimentoBulkIn),
      let srv' :=
        snd (bulk_create_abastecimentos parse_uuid faults ff payload srv) in
      referencias_validas (tb_produtos (srv_db srv'))
        (tb_abastecimentos (srv_db srv')).
Proof.
  intros srv Href faults ff payload srv'. unfold srv'. rewrite bulk_eq.
  set (r := fst (loop parse_uuid faults 0 (items payload) empty_response
                   (open_session srv))).
  set (s := snd (loop parse_uuid faults 0 (items payload) empty_response
                   (open_session srv))).
  destruct (finish_cases ff srv r s) as [Hr|Hr]; rewrite Hr; simpl.
  - exact Href.
  - assert (H0 : Forall (fun i => In i (map p_id (produtos (open_session srv))))
                   (refs (open_session srv))).
    { unfold refs. simpl. rewrite app_nil_r.
      apply (proj2 (Forall_map a_produto_id _ _)). exact Href. }
    pose proof (loop_refs faults (items payload) 0 empty_response
                  (open_session srv) H0) as Hs.
    cbv zeta in Hs. fold s in Hs.
    unfold referencias_validas. rewrite flush_pending_produtos.
    apply (proj1 (Forall_map a_produto_id
                    (fun i => In i (map p_id (produtos s))) _)).
    rewrite <- refs_flush_pending in Hs. unfold refs in Hs.
    destruct (ids_flush_pending s) as [_ Ep]. rewrite Ep in Hs.
    simpl in Hs. rewrite app_nil_r in Hs. exact Hs.
Qed.

(** *** The report *)

Lemma finish_200 ff srv r s r' srv' :
  finish ff srv r s = (Http200 r', srv') -> r' = r.
Proof.
  unfold finish, on_error. intros H.
  destruct (inserted r);
    [destruct (ff Rollback)|destruct (ff Commit)];
    try destruct (ff RollbackOnError); inversion H; reflexivity.
Qed.

Lemma accept_length item acc :
  List.length (accept item acc) <= S (List.length acc)
  /\ (local_id item <> None ->
      List.length (accept item acc) = S (List.length acc))
  /\ exists novos,
      accept item acc = acc ++ novos /\ incl novos (tokens [item]).
Proof.
  unfold accept, tokens. simpl. destruct (local_id item) as [l|].
  - rewrite length_app. simpl. split; [lia|]. split; [intros; lia|].
    exists [l]. split; [reflexivity|]. intros x Hx. simpl. exact Hx.
  - split; [lia|]. split; [congruence|].
    exists []. split; [symmetry; apply app_nil_r|]. apply incl_nil_l.
Qed.

Lemma loop_contas faults items :
  forall i r s,
    let r' := fst (loop parse_uuid faults i items r s) in
    inserted r' + List.length (conflicts r')
    <= inserted r + List.length (conflicts r) + List.length items
    /\ List.length (accepted r') + List.length (conflicts r')
       <= List.length (accepted r) + List.length (conflicts r)
          + List.length items
    /\ (Forall (fun item => local_id item <> None) items ->
        List.length (accepted r') + List.length (conflicts r')
        = List.length (accepted r) + List.length (conflicts r)
          + List.length items)
    /\ exists novos,
        accepted r' = accepted r ++ novos /\ incl novos (tokens items).
Proof.
  induction items as [|item rest IH]; intros i r s; simpl.
  - repeat split; try lia.
    exists []. split; [symmetry; apply app_nil_r|apply incl_nil_l].
  - destruct (process_item parse_uuid (faults i) item s) as [o s1].
    specialize (IH (S i) (record_outcome item o r) s1). cbv zeta in IH.
    destruct IH as [H1 [H2 [H3 [novos [E Hin]]]]].
    destruct (accept_length item (accepted r)) as [La [Lt [n1 [Ea Hn1]]]].
    assert (Hincl : forall l, incl l (tokens rest) ->
                              incl l (tokens (item :: rest))).
    { intros l Hl x Hx. unfold tokens. simpl. apply in_or_app. right.
      apply Hl. exact Hx. }
    assert (Hincl1 : incl n1 (tokens (item :: rest))).
    { intros x Hx. apply Hn1 in Hx. unfold tokens in Hx. simpl in Hx.
      apply in_app_or in Hx. destruct Hx as [Hx|[]].
      unfold tokens. simpl. apply in_or_app. left. exact Hx. }
    destruct o; simpl in *.
    + rewrite length_app in *. simpl in *.
      split; [lia|]. split; [lia|]. split.
      * intros Hf. inversion Hf; subst. specialize (H3 H5). lia.
      * exists novos. split; [exact E|apply Hincl; exact Hin].
    + split; [lia|]. split; [lia|]. split.
      * intros Hf. inversion Hf; subst. specialize (H3 H5).
        specialize (Lt H4). lia.
      * exists (n1 ++ novos). rewrite E, Ea, <- app_assoc.
        split; [reflexivity|]. apply incl_app; [exact Hincl1|].
        apply Hincl. exact Hin.
    + split; [lia|]. split; [lia|]. split.
      * intros Hf. inversion Hf; subst. specialize (H3 H5).
        specialize (Lt H4). lia.
      * exists (n1 ++ novos). rewrite E, Ea, <- app_assoc.
        split; [reflexivity|]. apply incl_app; [exact Hincl1|].
        apply Hincl. exact Hin.
Qed.

(** X12. The report accounts for the batch: insertions and conflicts
    together never exceed the number of records, nor do accepted tokens and
    conflicts; every accepted token is the token of a record of the batch;
    and when every record carries a token, each record is reported exactly
    once, as accepted or as a conflict. *)
Theorem bulk_report_accounts :
  forall (faults : nat -> Faults) (ff : FinalCall -> option string)
         (payload : AbastecimentoBulkIn) (srv srv' : Server) (r : Response),
    bulk_create_abastecimentos parse_uuid faults ff payload srv
    = (Http200 r, srv') ->
    inserted r + List.length (conflicts r) <= List.length (items payload)
    /\ List.length (accepted r) + List.length (conflicts r)
       <= List.length (items payload)
    /\ incl (accepted r) (tokens (items payload))
    /\ (Forall (fun item => local_id item <> None) (items payload) ->
        List.length (accepted r) + List.length (conflicts r)
        = List.length (items payload)).
Proof.
  intros faults ff payload srv srv' r H. rewrite bulk_eq in H.
  apply finish_200 in H. subst r.
  destruct (loop_contas faults (items payload) 0 empty_response
              (open_session srv)) as [H1 [H2 [H3 [novos [E Hin]]]]].
  simpl in *. split; [lia|]. split; [lia|]. split.
  - rewrite E. exact Hin.
  - intros Hf. specialize (H3 Hf). lia.
Qed.

Lemma process_item_exact fp item s :
  fp Flush = None -> fp UpdateCreatedAt = None -> pending s = [] ->
  pending (snd (process_item parse_uuid fp item s)) = []
  /\ List.length (abastecimentos (snd (process_item parse_uuid fp item s)))
     = List.length (abastecimentos s)
       + match fst (process_item parse_uuid fp item s) with
         | Inserido => 1
         | _ => 0
         end.
Proof.
  intros Hf Hu Hp.
  destruct (process_item_shape parse_uuid fp item s)
    as [[_ [Hs Hn]]|[k [p [_ [_ [[msg [Hf' _]]|[[ts [msg [_ [_ [Hu' _]]]]]|[_ [_ H]]]]]]]]].
  - rewrite Hs. split; [exact Hp|].
    destruct (fst (process_item parse_uuid fp item s)); try lia. congruence.
  - congruence.
  - congruence.
  - rewrite H. simpl fst. simpl snd. split; [apply inserido_em_pending|].
    destruct (inserido_em_abastecimentos item k (p_id p)
                (resolver_usuario parse_uuid item) s) as [front [E L]].
    rewrite E, length_app, L, Hp. simpl. lia.
Qed.

Lemma loop_exact faults items :
  (forall i, faults i Flush = None /\ faults i UpdateCreatedAt = None) ->
  forall i r s,
    pending s = [] ->
    pending (snd (loop parse_uuid faults i items r s)) = []
    /\ List.length (abastecimentos (snd (loop parse_uuid faults i items r s)))
       + inserted r
       = List.length (abastecimentos s)
         + inserted (fst (loop parse_uuid faults i items r s)).
Proof.
  intros Hnf. induction items as [|item rest IH]; intros i r s Hp; simpl.
  - split; [exact Hp|lia].
  - destruct (Hnf i) as [Hf Hu].
    destruct (process_item_exact (faults i) item s Hf Hu Hp) as [Hp1 Hl].
    destruct (process_item parse_uuid (faults i) item s) as [o s1].
    simpl fst in *. simpl snd in *.
    destruct (IH (S i) (record_outcome item o r) s1 Hp1) as [Hp2 Hl2].
    split; [exact Hp2|]. rewrite record_outcome_inserted in Hl2. lia.
Qed.

(** X13. When the storage fails no flush and no back-fill, the count in
    the report is exact: the committed ledger has grown by precisely
    [inserted] rows. *)
Theorem bulk_inserted_is_exact :
  forall (faults : nat -> Faults) (ff : FinalCall -> option string)
         (payload : AbastecimentoBulkIn) (srv srv' : Server) (r : Response),
    (forall i, faults i Flush = None /\ faults i UpdateCreatedAt = None) ->
    bulk_create_abastecimentos parse_uuid faults ff payload srv
    = (Http200 r, srv') ->
    List.length (tb_abastecimentos (srv_db srv'))
    = List.length (tb_abastecimentos (srv_db srv)) + inserted r.
Proof.
  intros faults ff payload srv srv' r Hnf H. rewrite bulk_eq in H.
  pose proof (finish_200 _ _ _ _ _ _ H) as Hr.
  destruct (loop_exact faults (items payload) Hnf 0 empty_response
              (open_session srv) eq_refl) as [Hp Hl].
  simpl in Hl. rewrite <- Hr in Hl.
  set (s := snd (loop parse_uuid faults 0 (items payload) empty_response
                   (open_session srv))) in *.
  rewrite <- Hr in H. unfold finish, on_error in H.
  destruct (inserted r) as [|n] eqn:Hi.
  - destruct (ff Rollback); [destruct (ff RollbackOnError); discriminate|].
    inversion H; subst srv'. simpl. lia.
  - destruct (ff Commit); [destruct (ff RollbackOnError); discriminate|].
    inversion H; subst srv'. simpl.
    rewrite (flush_pending_nothing s Hp). lia.
Qed.

(** X14. The answer to the whole request turns on the one storage call
    that ends it, the commit when something was inserted and the rollback
    otherwise. When that call works the answer is 200 with the report,
    whatever happened to the records; when it fails nothing of the request
    is durable and the answer is a 500 that carries the storage's message,
    unless the rollback of the handler fails too, whose exception then
    escapes. *)
Theorem bulk_final_call :
  forall (faults : nat -> Faults) (ff : FinalCall -> option string)
         (payload : AbastecimentoBulkIn) (srv : Server),
    let r := fst (loop parse_uuid faults 0 (items payload) empty_response
                    (open_session srv)) in
    let call := match inserted r with O => Rollback | S _ => Commit end in
    let res := fst (bulk_create_abastecimentos parse_uuid faults ff payload srv) in
    let srv' := snd (bulk_create_abastecimentos parse_uuid faults ff payload srv) in
    (ff call = None -> res = Http200 r)
    /\ (forall msg,
           ff call = Some msg ->
           srv_db srv' = srv_db srv
           /\ (ff RollbackOnError = None ->
               res = Http500 ("Erro ao importar abastecimentos: " ++ msg)%string)
           /\ (forall msg',
                  ff RollbackOnError = Some msg' ->
                  res = Unhandled (StorageError msg'))).
Proof.
  intros faults ff payload srv r call res srv'. unfold res, srv'.
  rewrite bulk_eq. fold r. unfold finish, on_error, call.
  destruct (inserted r); split.
  - intros H. rewrite H. reflexivity.
  - intros msg H. rewrite H.
    destruct (ff RollbackOnError) as [m2|]; simpl;
      (split; [reflexivity|split]).
    + intros E. discriminate E.
    + intros m' E. inversion E. reflexivity.
    + intros _. reflexivity.
    + intros m' E. discriminate E.
  - intros H. rewrite H. reflexivity.
  - intros msg H. rewrite H.
    destruct (ff RollbackOnError) as [m2|]; simpl;
      (split; [reflexivity|split]).
    + intros E. discriminate E.
    + intros m' E. inversion E. reflexivity.
    + intros _. reflexivity.
    + intros m' E. discriminate E.
Qed.

(** *** Lookups that find nothing, too much, or fail *)

Lemma where_from_In {A} (f : A -> bool) (l : list A) :
  forall i j x,
    nth_error l j = Some x -> f x = true ->
    In (i + j, x) (where_from f i l).
Proof.
  induction l as [|a l IH]; intros i j x Hj Hx.
  - destruct j; discriminate.
  - destruct j as [|j]; simpl in *.
    + inversion Hj; subst a. rewrite Hx, Nat.add_0_r. left. reflexivity.
    + replace (i + S j) with (S i + j) by lia.
      destruct (f a); [right|]; apply IH; assumption.
Qed.

Lemma where_from_dois {A} (f : A -> bool) (l : list A) j1 j2 x y :
  j1 <> j2 ->
  nth_error l j1 = Some x -> nth_error l j2 = Some y ->
  f x = true -> f y = true ->
  exists a b rest, where_from f 0 l = a :: b :: rest.
Proof.
  intros Hne H1 H2 Hx Hy.
  pose proof (where_from_In f l 0 j1 x H1 Hx) as I1.
  pose proof (where_from_In f l 0 j2 y H2 Hy) as I2.
  simpl in I1, I2.
  destruct (where_from f 0 l) as [|a [|b rest]].
  - contradiction.
  - exfalso. destruct I1 as [E1|[]], I2 as [E2|[]]. congruence.
  - exists a, b, rest. reflexivity.
Qed.

Lemma buscar_por_id_nao_acha fp item s :
  id_nao_acha parse_uuid fp item s ->
  buscar_por_id parse_uuid fp item s = (Ok None, s).
Proof.
  intros [H | [text [u [Ht [Hp [Hf Hn]]]]]].
  - apply buscar_por_id_sem_id. exact H.
  - apply (buscar_por_id_desconhecido parse_uuid fp item s text u);
      assumption.
Qed.

(** X15. An identifier that is well formed but names no product falls
    back to the code, just as an absent or malformed one does: a code that
    names one product resolves to it, and without such a code the record
    becomes a [produto_nao_encontrado] conflict. *)
Theorem bulk_unknown_id_falls_back :
  forall (fp : Faults) (item : AbastecimentoIn) (s : Session)
         (text : string) (u : UUID),
    truthy (produto_id item) = Some text ->
    parse_uuid text = Some u ->
    fp SelectProdutoById = None ->
    nenhum_id u (produtos s) ->
    (forall codigo k p,
        truthy (produto_codigo item) = Some codigo ->
        fp SelectProdutoByCodigo = None ->
        so_este_codigo codigo k p (produtos s) ->
        resolver_produto parse_uuid fp item s = (Ok (Some (k, p)), s))
    /\ (truthy (produto_codigo item) = None
        \/ (exists codigo,
               truthy (produto_codigo item) = Some codigo
               /\ fp SelectProdutoByCodigo = None
               /\ nenhum_codigo codigo (produtos s)) ->
        process_item parse_uuid fp item s
        = (Conflito
             [("reason", PyStr "produto_nao_encontrado");
              ("produto_id", PyStr text);
              ("produto_codigo",
               match produto_codigo item with
               | Some t => PyStr t
               | None => PyNone
               end)], s)).
Proof.
  intros fp item s text u Ht Hp Hf Hn.
  pose proof (buscar_por_id_desconhecido parse_uuid fp item s text u
                Ht Hp Hf Hn) as Hid.
  split.
  - intros codigo k p Hc Hfc Hu.
    rewrite (resolver_apos_id_vazio parse_uuid fp item s Hid).
    apply (buscar_por_codigo_unico fp item s codigo k p Hc Hfc Hu).
  - intros Hcod.
    assert (Hres : resolver_produto parse_uuid fp item s = (Ok None, s)).
    { rewrite (resolver_apos_id_vazio parse_uuid fp item s Hid).
      apply buscar_por_codigo_nada. exact Hcod. }
    rewrite (process_item_nao_encontrado parse_uuid fp item s Hres).
    assert (Hsent : produto_id item = Some text).
    { unfold truthy in Ht. destruct (produto_id item) as [[|c t]|];
        congruence. }
    rewrite Hsent. reflexivity.
Qed.

Lemma process_item_lookup_falha fp item s e :
  resolver_produto parse_uuid fp item s = (Raise e, s) ->
  process_item parse_uuid fp item s
  = (Conflito
       [("reason", PyStr "erro_interno");
        ("message", PyStr (exn_str e));
        ("local_id",
         match local_id item with Some l => PyStr l | None => PyNone end)],
     s).
Proof.
  intros H. apply process_item_erro_interno.
  unfold item_body, bind. rewrite H. reflexivity.
Qed.

(** X16. A lookup that fails is not a lookup that finds nothing. When the
    storage fails the lookup by identifier, or two products carry the
    identifier, the record becomes a conflict entry with reason
    [erro_interno], the text of the failure as message and the record's
    token, and the code is not tried; the same holds for the lookup by code
    once the identifier has found nothing. The session is left as it
    was. *)
Theorem bulk_failed_lookup_is_a_conflict :
  forall (fp : Faults) (item : AbastecimentoIn) (s : Session),
    let erro_interno (text : string) : dict :=
      [("reason", PyStr "erro_interno");
       ("message", PyStr text);
       ("local_id",
        match local_id item with Some l => PyStr l | None => PyNone end)] in
    let varios := "Multiple rows were found when one or none was required" in
    (forall text u msg,
        truthy (produto_id item) = Some text ->
        parse_uuid text = Some u ->
        fp SelectProdutoById = Some msg ->
        process_item parse_uuid fp item s = (Conflito (erro_interno msg), s))
    /\ (forall text u j1 j2 q1 q2,
           truthy (produto_id item) = Some text ->
           parse_uuid text = Some u ->
           fp SelectProdutoById = None ->
           j1 <> j2 ->
           nth_error (produtos s) j1 = Some q1 ->
           nth_error (produtos s) j2 = Some q2 ->
           p_id q1 = u -> p_id q2 = u ->
           process_item parse_uuid fp item s
           = (Conflito (erro_interno varios), s))
    /\ (forall codigo msg,
           id_nao_acha parse_uuid fp item s ->
           truthy (produto_codigo item) = Some codigo ->
           fp SelectProdutoByCodigo = Some msg ->
           process_item parse_uuid fp item s
           = (Conflito (erro_interno msg), s))
    /\ (forall codigo j1 j2 q1 q2,
           id_nao_acha parse_uuid fp item s ->
           truthy (produto_codigo item) = Some codigo ->
           fp SelectProdutoByCodigo = None ->
           j1 <> j2 ->
           nth_error (produtos s) j1 = Some q1 ->
           nth_error (produtos s) j2 = Some q2 ->
           p_codigo q1 = codigo -> p_codigo q2 = codigo ->
           process_item parse_uuid fp item s
           = (Conflito (erro_interno varios), s)).
Proof.
  intros fp item s erro_interno varios. split; [|split; [|split]].
  - intros text u msg Ht Hp Hf.
    apply (process_item_lookup_falha fp item s (StorageError msg)).
    unfold resolver_produto, buscar_por_id, bind, try_except_ValueError,
      uuid_UUID, await.
    rewrite Ht, Hp, Hf. reflexivity.
  - intros text u j1 j2 q1 q2 Ht Hp Hf Hne H1 H2 E1 E2.
    apply (process_item_lookup_falha fp item s MultipleResultsFound).
    destruct (where_from_dois (fun q => (p_id q =? u)%N) (produtos s)
                j1 j2 q1 q2 Hne H1 H2)
      as [a [b [rest Hw]]]; [apply N.eqb_eq; exact E1
                            |apply N.eqb_eq; exact E2|].
    unfold resolver_produto, buscar_por_id, bind, try_except_ValueError,
      uuid_UUID, await, select_produto.
    rewrite Ht, Hp, Hf. simpl. rewrite Hw. reflexivity.
  - intros codigo msg Hid Ht Hf.
    apply (process_item_lookup_falha fp item s (StorageError msg)).
    rewrite (resolver_apos_id_vazio parse_uuid fp item s
               (buscar_por_id_nao_acha fp item s Hid)).
    unfold buscar_por_codigo, bind, await. rewrite Ht, Hf. reflexivity.
  - intros codigo j1 j2 q1 q2 Hid Ht Hf Hne H1 H2 E1 E2.
    apply (process_item_lookup_falha fp item s MultipleResultsFound).
    destruct (where_from_dois (fun q => String.eqb (p_codigo q) codigo)
                (produtos s) j1 j2 q1 q2 Hne H1 H2)
      as [a [b [rest Hw]]]; [apply String.eqb_eq; exact E1
                            |apply String.eqb_eq; exact E2|].
    rewrite (resolver_apos_id_vazio parse_uuid fp item s
               (buscar_por_id_nao_acha fp item s Hid)).
    unfold buscar_por_codigo, bind, await, select_produto.
    rewrite Ht, Hf. simpl. rewrite Hw. reflexivity.
Qed.

(** *** Duplicates and unresolved records inside a batch *)


Lemma loop_duplicados items :
  forall i r s,
    Forall (fun item =>
              process_item parse_uuid no_faults item s = (Duplicado, s))
      items ->
    loop parse_uuid never i items r s
    = ({| inserted := inserted r;
          accepted := accepted r ++ tokens items;
          conflicts := conflicts r |}, s).
Proof.
  induction items as [|item rest IH]; intros i r s H; simpl.
  - rewrite app_nil_r. destruct r; reflexivity.
  - inversion H; subst. unfold never at 1. rewrite H2.
    rewrite (IH (S i) _ s H3). simpl. f_equal. f_equal.
    unfold accept, tokens. simpl. destruct (local_id item); simpl.
    + rewrite <- app_assoc. reflexivity.
    + reflexivity.
Qed.

(** X18. A batch made only of records that the committed ledger already
    holds inserts nothing and commits nothing, and reports the token of
    every record as accepted, in batch order. *)
Theorem bulk_all_duplicates :
  forall (ff : FinalCall -> option string) (payload : AbastecimentoBulkIn)
         (srv : Server),
    Forall (fun item =>
              process_item parse_uuid no_faults item (open_session srv)
              = (Duplicado, open_session srv))
      (items payload) ->
    ff Rollback = None ->
    fst (bulk_create_abastecimentos parse_uuid never ff payload srv)
    = Http200 {| inserted := 0; accepted := tokens (items payload);
                 conflicts := [] |}
    /\ srv_db (snd (bulk_create_abastecimentos parse_uuid never ff payload srv))
       = srv_db srv.
Proof.
  intros ff payload srv Hall Hr. unfold bulk_create_abastecimentos.
  rewrite (loop_duplicados (items payload) 0 empty_response
             (open_session srv) Hall).
  unfold finish. simpl. rewrite Hr. split; reflexivity.
Qed.

Lemma loop_never_index items :
  forall i j r s,
    loop parse_uuid never i items r s = loop parse_uuid never j items r s.
Proof.
  induction items as [|item rest IH]; intros i j r s; simpl; [reflexivity|].
  change (never i) with (never j).
  destruct (process_item parse_uuid (never j) item s) as [o s1].
  apply IH.
Qed.

(** The loop adds to the accumulators it is given, and what it adds and
    what it does to the session do not depend on them. *)
Lemma loop_acc faults items :
  forall i s,
    exists di da dc s',
      forall r,
        loop parse_uuid faults i items r s
        = ({| inserted := inserted r + di;
              accepted := accepted r ++ da;
              conflicts := conflicts r ++ dc |}, s').
Proof.
  induction items as [|item rest IH]; intros i s; simpl.
  - exists 0, [], [], s. intros r. rewrite Nat.add_0_r, !app_nil_r.
    destruct r; reflexivity.
  - destruct (process_item parse_uuid (faults i) item s) as [o s1].
    destruct (IH (S i) s1) as [di [da [dc [s' H]]]].
    destruct o as [c| |].
    + exists di, da, (c :: dc), s'. intros r. rewrite H. simpl.
      rewrite <- app_assoc. reflexivity.
    + exists di, (match local_id item with Some l => l :: da | None => da end),
        dc, s'.
      intros r. rewrite H. simpl. unfold accept.
      destruct (local_id item); [rewrite <- app_assoc|]; reflexivity.
    + exists (S di),
        (match local_id item with Some l => l :: da | None => da end),
        dc, s'.
      intros r. rewrite H. simpl. unfold accept.
      rewrite Nat.add_succ_r.
      destruct (local_id item); [rewrite <- app_assoc|]; reflexivity.
Qed.

Lemma resolver_produto_none_apos fp item s s' :
  Forall2 mesmo_produto (produtos s) (produtos s') ->
  resolver_produto parse_uuid fp item s = (Ok None, s) ->
  resolver_produto parse_uuid fp item s' = (Ok None, s').
Proof.
  intros H E.
  pose proof (resolver_produto_catalogo parse_uuid fp item s s' H) as R.
  pose proof (resolver_produto_session parse_uuid fp item s') as Hs'.
  rewrite E in R. simpl in R.
  destruct (resolver_produto parse_uuid fp item s') as [x s1].
  simpl in *. subst s1. inversion R; subst. reflexivity.
Qed.

(** X19. In a request without storage failure, a record whose product is
    in no catalogue changes nothing for the others: the batch with it and
    the batch without it leave the same server and report the same
    insertions and accepted tokens, and the conflicts differ by that
    record's entry alone, at its place. *)
Theorem bulk_unresolved_record_is_neutral :
  forall (before after : list AbastecimentoIn) (item : AbastecimentoIn)
         (srv : Server),
    resolver_produto parse_uuid no_faults item (open_session srv)
    = (Ok None, open_session srv) ->
    exists r r' srv' c1 c2,
      bulk_create_abastecimentos parse_uuid never final_ok
        {| items := before ++ after |} srv = (Http200 r, srv')
      /\ bulk_create_abastecimentos parse_uuid never final_ok
           {| items := before ++ item :: after |} srv = (Http200 r', srv')
      /\ inserted r' = inserted r
      /\ accepted r' = accepted r
      /\ conflicts r = c1 ++ c2
      /\ conflicts r' = c1 ++ conflito_produto item :: c2.
Proof.
  intros before after item srv Hres.
  unfold bulk_create_abastecimentos. simpl items.
  set (s0 := open_session srv) in *.
  rewrite !loop_app. simpl Nat.add.
  set (r1 := fst (loop parse_uuid never 0 before empty_response s0)).
  set (s1 := snd (loop parse_uuid never 0 before empty_response s0)).
  assert (Hres1 : resolver_produto parse_uuid no_faults item s1 = (Ok None, s1)).
  { apply (resolver_produto_none_apos no_faults item s0 s1); [|exact Hres].
    apply loop_catalogo. }
  assert (Hp : process_item parse_uuid (never (List.length before)) item s1
               = (Conflito (conflito_produto item), s1)).
  { unfold process_item, item_body, bind. unfold never.
    rewrite Hres1. reflexivity. }
  rewrite (loop_cons parse_uuid never (List.length before) item after r1 s1
             _ _ Hp).
  rewrite (loop_never_index after (S (List.length before))
             (List.length before)).
  destruct (loop_acc never after (List.length before) s1)
    as [di [da [dc [s' H]]]].
  rewrite !H. simpl.
  assert (Hf : forall x y : Response,
             inserted x = inserted y ->
             finish final_ok srv x s' = (Http200 x, snd (finish final_ok srv y s'))).
  { intros x y E. unfold finish, final_ok. rewrite E.
    destruct (inserted y); reflexivity. }
  eexists. eexists. eexists. exists (conflicts r1), dc.
  split; [apply (Hf _ _ eq_refl)|].
  split; [apply Hf; reflexivity|].
  simpl. rewrite <- app_assoc. repeat split.
Qed.

(** *** Stock and ledger move together *)

Lemma quantidades_de_pares pid rows :
  quantidades_de pid rows
  = map snd (filter (fun x => (fst x =? pid)%N)
               (map produto_e_quantidade rows)).
Proof.
  unfold quantidades_de. induction rows as [|a rows IH]; simpl;
    [reflexivity|].
  destruct (a_produto_id a =? pid)%N; simpl; rewrite IH; reflexivity.
Qed.

Lemma pares_backfill i ts rows :
  map produto_e_quantidade
    (map (fun a => if (a_id a =? i)%N then stamp ts a else a) rows)
  = map produto_e_quantidade rows.
Proof.
  rewrite map_map. apply map_ext. intros a.
  destruct (a_id a =? i)%N; reflexivity.
Qed.

Lemma posicao_por_id (ps : list Produto) k j p pid :
  NoDup (map p_id ps) ->
  nth_error ps k = Some p ->
  nth_error (map p_id ps) j = Some pid ->
  Nat.eqb k j = (p_id p =? pid)%N.
Proof.
  intros Hnd Hk Hj.
  assert (Hk' : nth_error (map p_id ps) k = Some (p_id p)).
  { apply map_nth_error. exact Hk. }
  destruct (Nat.eqb k j) eqn:E.
  - apply Nat.eqb_eq in E. subst j. symmetry. apply N.eqb_eq. congruence.
  - symmetry. apply N.eqb_neq. intros Hid. apply Nat.eqb_neq in E.
    apply E. apply (proj1 (NoDup_nth_error (map p_id ps)) Hnd).
    + apply nth_error_Some. rewrite Hk'. discriminate.
    + rewrite Hk', Hj, Hid. reflexivity.
Qed.

(** One record, flush working: the ledger gains the record's row exactly
    when the stock gains its quantity. *)
Lemma process_item_pares fp item s j pid :
  fp Flush = None -> pending s = [] ->
  NoDup (map p_id (produtos s)) ->
  nth_error (map p_id (produtos s)) j = Some pid ->
  pending (snd (process_item parse_uuid fp item s)) = []
  /\ exists novas,
      map produto_e_quantidade
        (abastecimentos (snd (process_item parse_uuid fp item s)))
      = map produto_e_quantidade (abastecimentos s) ++ novas
      /\ estoque_de j (produtos (snd (process_item parse_uuid fp item s)))
         = fold_left somar
             (map snd (filter (fun x => (fst x =? pid)%N) novas))
             (estoque_de j (produtos s)).
Proof.
  intros Hfl Hp Hnd Hj.
  pose proof (process_item_estoque parse_uuid fp item s j) as Hst.
  destruct (process_item_shape parse_uuid fp item s)
    as [[Hc [Hs _]]|[k [p [Hres [Hc Hcases]]]]].
  - rewrite Hs in *. split; [exact Hp|]. exists []. split.
    + rewrite app_nil_r. reflexivity.
    + rewrite Hst, Hc. reflexivity.
  - pose proof (resolver_produto_nth parse_uuid fp item s k p s Hres) as Hk.
    rewrite Hc, (posicao_por_id (produtos s) k j p pid Hnd Hk Hj) in Hst.
    assert (Hfold : fold_left somar
                      (map snd
                         (filter (fun x : UUID * float => (fst x =? pid)%N)
                            [(p_id p, quantidade item)]))
                      (estoque_de j (produtos s))
                    = if (p_id p =? pid)%N
                      then somar (estoque_de j (produtos s)) (quantidade item)
                      else estoque_de j (produtos s)).
    { simpl. destruct (p_id p =? pid)%N; reflexivity. }
    destruct Hcases as [[m [Hf _]]|[[ts [m [_ [Hts [_ H]]]]]|[_ [_ H]]]];
      [congruence| |].
    + rewrite H in *. simpl snd in *.
      split; [rewrite flush_preparado; reflexivity|].
      exists [(p_id p, quantidade item)]. split; [|rewrite Hst; symmetry;
                                                   exact Hfold].
      rewrite flush_preparado, Hp. simpl. rewrite map_app. reflexivity.
    + rewrite H in *. simpl snd in *.
      split; [apply inserido_em_pending|].
      exists [(p_id p, quantidade item)]. split; [|rewrite Hst; symmetry;
                                                   exact Hfold].
      unfold inserido_em. destruct (created_at item) as [ts|].
      * rewrite update_created_at_flushed, Hp. simpl.
        rewrite app_nil_r, map_app, pares_backfill. reflexivity.
      * rewrite flush_preparado, Hp. simpl. rewrite map_app. reflexivity.
Qed.

Lemma loop_pares faults j pid items :
  (forall i, faults i Flush = None) ->
  forall i r s,
    pending s = [] ->
    NoDup (map p_id (produtos s)) ->
    nth_error (map p_id (produtos s)) j = Some pid ->
    pending (snd (loop parse_uuid faults i items r s)) = []
    /\ exists novas,
        map produto_e_quantidade
          (abastecimentos (snd (loop parse_uuid faults i items r s)))
        = map produto_e_quantidade (abastecimentos s) ++ novas
        /\ estoque_de j (produtos (snd (loop parse_uuid faults i items r s)))
           = fold_left somar
               (map snd (filter (fun x => (fst x =? pid)%N) novas))
               (estoque_de j (produtos s)).
Proof.
  intros Hok. induction items as [|item rest IH]; intros i r s Hp Hnd Hj.
  - simpl. split; [exact Hp|]. exists []. split.
    + rewrite app_nil_r. reflexivity.
    + reflexivity.
  - destruct (process_item_pares (faults i) item s j pid (Hok i) Hp Hnd Hj)
      as [Hp1 [n1 [Hq1 Hs1]]].
    destruct (catalogo_maps _ _ (process_item_catalogo (faults i) item s))
      as [Hids _].
    simpl loop.
    destruct (process_item parse_uuid (faults i) item s) as [o s1].
    simpl snd in *.
    destruct (IH (S i) (record_outcome item o r) s1 Hp1)
      as [Hp2 [n2 [Hq2 Hs2]]].
    { rewrite Hids. exact Hnd. }
    { rewrite Hids. exact Hj. }
    split; [exact Hp2|]. exists (n1 ++ n2). split.
    + rewrite Hq2, Hq1, <- app_assoc. reflexivity.
    + rewrite Hs2, Hs1, filter_app, map_app, fold_left_app. reflexivity.
Qed.

(** X21. The stock moves with the ledger. Whatever becomes of the records,
    as long as no flush fails and no two products share an identifier, the
    stock of a product in the tables a request leaves durable is its stock
    before, a missing or zero stock read as zero, raised in ledger order by
    the quantity of every row the request appended for that product, and by
    nothing else. *)
Theorem bulk_stock_follows_ledger :
  forall (faults : nat -> Faults) (ff : FinalCall -> option string)
         (payload : AbastecimentoBulkIn) (srv : Server) (j : nat)
         (pj : Produto),
    (forall i, faults i Flush = None) ->
    NoDup (map p_id (tb_produtos (srv_db srv))) ->
    nth_error (tb_produtos (srv_db srv)) j = Some pj ->
    let srv' :=
      snd (bulk_create_abastecimentos parse_uuid faults ff payload srv) in
    let novas :=
      skipn (List.length (tb_abastecimentos (srv_db srv)))
        (tb_abastecimentos (srv_db srv')) in
    estoque_de j (tb_produtos (srv_db srv'))
    = fold_left
        (fun e q =>
           Some (match e with
                 | Some x => if (x =? 0)%float then 0%float else x
                 | None => 0%float
                 end + q)%float)
        (quantidades_de (p_id pj) novas)
        (p_estoque pj).
Proof.
  intros faults ff payload srv j pj Hok Hnd Hj srv' novas.
  assert (Hst0 : estoque_de j (tb_produtos (srv_db srv)) = p_estoque pj).
  { unfold estoque_de. rewrite Hj. reflexivity. }
  destruct (loop_pares faults j (p_id pj) (items payload) Hok 0
              empty_response (open_session srv) eq_refl Hnd
              (map_nth_error p_id j (tb_produtos (srv_db srv)) Hj))
    as [Hp [L [Hq Hs]]].
  unfold novas, srv'. rewrite bulk_eq.
  set (r := fst (loop parse_uuid faults 0 (items payload) empty_response
                   (open_session srv))) in *.
  set (s := snd (loop parse_uuid faults 0 (items payload) empty_response
                   (open_session srv))) in *.
  destruct (finish_cases ff srv r s) as [E|E]; rewrite E; simpl.
  - rewrite skipn_all. simpl. exact Hst0.
  - rewrite (flush_pending_nothing s Hp).
    rewrite quantidades_de_pares, <- skipn_map, Hq.
    simpl abastecimentos.
    rewrite skipn_app, skipn_all2 by (rewrite length_map; apply le_n).
    rewrite length_map, Nat.sub_diag. simpl skipn.
    rewrite Hs. simpl produtos. rewrite Hst0. reflexivity.
Qed.

(** *** A failed flush, under the session's rule *)

Lemma resolver_recusado fp item s :
  (forall c, fp c <> None) ->
  forall k p, resolver_produto parse_uuid fp item s <> (Ok (Some (k, p)), s).
Proof.
  intros Hall k p.
  unfold resolver_produto, buscar_por_id, buscar_por_codigo, bind,
    try_except_ValueError, uuid_UUID, await.
  destruct (fp SelectProdutoById) as [m1|] eqn:E1;
    [|exfalso; exact (Hall _ E1)].
  destruct (fp SelectProdutoByCodigo) as [m2|] eqn:E2;
    [|exfalso; exact (Hall _ E2)].
  destruct (truthy (produto_id item)) as [text|];
    [destruct (parse_uuid text)|];
    simpl; try discriminate;
    destruct (truthy (produto_codigo item)); simpl; discriminate.
Qed.

Lemma loop_recusado faults items :
  forall i r s,
    (forall j c, i <= j -> faults j c <> None) ->
    exists cs,
      List.length cs = List.length items
      /\ loop parse_uuid faults i items r s
         = ({| inserted := inserted r; accepted := accepted r;
               conflicts := conflicts r ++ cs |}, s).
Proof.
  induction items as [|item rest IH]; intros i r s Hall.
  - exists []. split; [reflexivity|]. simpl. rewrite app_nil_r.
    destruct r; reflexivity.
  - destruct (process_item_unresolved parse_uuid (faults i) item s
                (resolver_recusado (faults i) item s
                   (fun c => Hall i c (le_n i))))
      as [Hs [c Hc]].
    destruct (IH (S i)
                {| inserted := inserted r; accepted := accepted r;
                   conflicts := conflicts r ++ [c] |} s)
      as [cs [Hlen Hloop]].
    { intros j c' Hj. apply Hall. lia. }
    exists (c :: cs). split; [simpl; rewrite Hlen; reflexivity|].
    simpl loop.
    destruct (process_item parse_uuid (faults i) item s) as [o s1].
    simpl in Hs, Hc. subst o s1. simpl record_outcome.
    rewrite Hloop. simpl. rewrite <- app_assoc. reflexivity.
Qed.

(** X22. A failed flush leaves nothing durable. When the flush of a record
    fails and the session then refuses what follows, the record is
    reported as an [erro_interno] conflict with the storage's message,
    every later record becomes a conflict, nothing more is inserted or
    accepted, and the committed tables stay as they were before the
    request: with nothing inserted before the failure the request is rolled
    back and answers 200 with the report, and with something inserted the
    refused commit turns the answer into a 500. *)
Theorem bulk_failed_flush_is_not_durable :
  forall (faults : nat -> Faults) (ff : FinalCall -> option string)
         (before after : list AbastecimentoIn) (item : AbastecimentoIn)
         (srv : Server) (k : nat) (p : Produto) (msg : string),
    let i := List.length before in
    let r0 := fst (loop parse_uuid faults 0 before empty_response
                     (open_session srv)) in
    let s := snd (loop parse_uuid faults 0 before empty_response
                    (open_session srv)) in
    resolver_produto parse_uuid (faults i) item s = (Ok (Some (k, p)), s) ->
    (forall ts a,
        created_at item = Some ts -> In a (abastecimentos s) ->
        ~ tem_a_chave item (p_id p) (resolver_usuario parse_uuid item) ts a) ->
    faults i Flush = Some msg ->
    sessao_recusa faults ff i ->
    let res :=
      fst (bulk_create_abastecimentos parse_uuid faults ff
             {| items := before ++ item :: after |} srv) in
    let srv' :=
      snd (bulk_create_abastecimentos parse_uuid faults ff
             {| items := before ++ item :: after |} srv) in
    srv_db srv' = srv_db srv
    /\ exists cs,
        List.length cs = List.length after
        /\ let r :=
             {| inserted := inserted r0; accepted := accepted r0;
                conflicts :=
                  conflicts r0
                  ++ [("reason", PyStr "erro_interno");
                      ("message", PyStr msg);
                      ("local_id",
                       match local_id item with
                       | Some l => PyStr l
                       | None => PyNone
                       end)] :: cs |} in
           (inserted r0 = 0 -> ff Rollback = None -> res = Http200 r)
           /\ (forall m,
                  inserted r0 <> 0 -> ff Commit = Some m ->
                  ff RollbackOnError = None ->
                  res = Http500 ("Erro ao importar abastecimentos: " ++ m)%string).
Proof.
  intros faults ff before after item srv k p msg i r0 s Hres Hnovo Hfl
    [Hlater Hcommit] res srv'.
  set (u := resolver_usuario parse_uuid item) in *.
  assert (Hp : process_item parse_uuid (faults i) item s
               = (Conflito
                    [("reason", PyStr "erro_interno");
                     ("message", PyStr msg);
                     ("local_id",
                      match local_id item with
                      | Some l => PyStr l
                      | None => PyNone
                      end)],
                  preparado item k (p_id p) u s)).
  { rewrite (process_item_cases parse_uuid (faults i) item s k p Hres).
    cbv zeta. fold u. rewrite Hfl.
    assert (Hd : match created_at item, faults i SelectDuplicado with
                 | Some ts, None => ja_aplicado item (p_id p) u ts s
                 | _, _ => false
                 end = false).
    { destruct (created_at item) as [ts|]; [|reflexivity].
      destruct (faults i SelectDuplicado); [reflexivity|].
      apply ja_aplicado_nao. intros a. apply (Hnovo ts a eq_refl). }
    rewrite Hd. reflexivity. }
  destruct (loop_recusado faults after (S i)
              {| inserted := inserted r0; accepted := accepted r0;
                 conflicts :=
                   conflicts r0
                   ++ [[("reason", PyStr "erro_interno");
                        ("message", PyStr msg);
                        ("local_id",
                         match local_id item with
                         | Some l => PyStr l
                         | None => PyNone
                         end)]] |}
              (preparado item k (p_id p) u s))
    as [cs [Hlen Hloop]].
  { intros j c Hj. apply Hlater. lia. }
  assert (Hall : loop parse_uuid faults 0 (before ++ item :: after)
                   empty_response (open_session srv)
                 = ({| inserted := inserted r0; accepted := accepted r0;
                       conflicts :=
                         conflicts r0
                         ++ [("reason", PyStr "erro_interno");
                             ("message", PyStr msg);
                             ("local_id",
                              match local_id item with
                              | Some l => PyStr l
                              | None => PyNone
                              end)] :: cs |},
                    preparado item k (p_id p) u s)).
  { rewrite (loop_app parse_uuid faults before (item :: after) 0
               empty_response (open_session srv)).
    change (0 + List.length before) with i. fold r0 s.
    rewrite (loop_cons parse_uuid faults i item after r0 s _ _ Hp).
    simpl record_outcome. refine (eq_trans Hloop _). simpl.
    rewrite <- app_assoc. reflexivity. }
  unfold res, srv'. unfold bulk_create_abastecimentos. simpl items.
  rewrite Hall. unfold finish, on_error. simpl inserted.
  split.
  - destruct (inserted r0).
    + destruct (ff Rollback); [destruct (ff RollbackOnError)|]; reflexivity.
    + destruct (ff Commit); [|congruence].
      destruct (ff RollbackOnError); reflexivity.
  - exists cs. split; [exact Hlen|]. cbv zeta. split.
    + intros H0 Hr. rewrite H0, Hr. reflexivity.
    + intros m Hn Hc Hr. destruct (inserted r0); [congruence|].
      rewrite Hc, Hr. reflexivity.
Qed.

End IngestaoProperties.

(** ** From ingestion to the history *)

Section IngestaoHistorico.

Local Open Scope list_scope.

Variable parse_uuid : string -> option UUID.
Variable fromisoformat : string -> option datetime.
Variable str_uuid : UUID -> string.
Variable isoformat : datetime -> string.
Variable produto_nome : Produto -> option string.
Variable usuario_nome : UUID -> option string.
Variable order_by : bool -> list Abastecimento -> list Abastecimento.

(** X20. What is ingested can be read back. After a request without
    storage failure that inserts one record, the history asked for the
    record's product, by the text of the identifier it resolved to, holds
    on some page the record's row: its quantity, unit cost, total cost and
    note, under the claimed timestamp when there is one. *)
Theorem inserted_record_is_in_history :
  (forall asc l a, In a l -> In a (order_by asc l)) ->
  forall (item : AbastecimentoIn) (srv srv' : Server) (k : nat)
         (p : Produto) (q : HistoricoQuery),
    resolver_produto parse_uuid no_faults item (open_session srv)
    = (Ok (Some (k, p)), open_session srv) ->
    bulk_create_abastecimentos parse_uuid never final_ok
      {| items := [item] |} srv
    = (Http200 {| inserted := 1; accepted := accept item [];
                  conflicts := [] |}, srv') ->
    data_inicial q = None -> data_final q = None -> q_usuario_id q = None ->
    q_produto_id q = Some (str_uuid (p_id p)) ->
    parse_uuid (str_uuid (p_id p)) = Some (p_id p) ->
    exists pg it,
      In it
        (itens_de
           (get_historico_abastecimentos parse_uuid fromisoformat str_uuid
              isoformat produto_nome usuario_nome order_by None
              (na_pagina pg q) (srv_db srv')))
      /\ h_produto_id it = str_uuid (p_id p)
      /\ h_quantidade it = float_or_0 (quantidade item)
      /\ h_custo_unitario it = float_or_0 (custo_unitario item)
      /\ h_total_custo it = float_or_0 (total_custo_or_default item)
      /\ h_observacao it = observacao item
      /\ (forall ts, created_at item = Some ts ->
                     h_created_at it = Some (isoformat ts)).
Proof.
  intros Hsort item srv srv' k p q Hres Hbulk Hdi Hdf Hu Hp Hround.
  set (s0 := open_session srv) in *.
  set (u := resolver_usuario parse_uuid item).
  (* the request inserted the record *)
  unfold bulk_create_abastecimentos in Hbulk. simpl items in Hbulk.
  fold s0 in Hbulk. simpl loop in Hbulk.
  destruct (process_item parse_uuid (never 0) item s0) as [o s1] eqn:Hproc.
  unfold finish in Hbulk.
  destruct o as [c| |]; simpl in Hbulk;
    try (destruct (final_ok Rollback); discriminate Hbulk).
  unfold final_ok in Hbulk.
  assert (Hsrv : close (tables (flush_pending s1)) (flush_pending s1) = srv')
    by (inversion Hbulk; reflexivity).
  clear Hbulk.
  destruct (process_item_inserido_inv parse_uuid (never 0) item s0 s1 Hproc)
    as [k' [p' [Hres' Hs1]]].
  unfold never in Hres'. rewrite Hres in Hres'.
  assert (k' = k /\ p' = p) as [-> ->] by (split; congruence).
  fold u in Hs1.
  assert (Hpend : pending s1 = []) by (subst s1; apply inserido_em_pending).
  rewrite (flush_pending_nothing s1 Hpend) in Hsrv. subst srv'. simpl.
  destruct (inserido_em_abastecimentos item k (p_id p) u s0)
    as [front [Hrows _]].
  rewrite <- Hs1 in Hrows.
  set (t := match created_at item with
            | Some ts => ts
            | None => (clock s0 + 1)%Z
            end) in *.
  set (row := linha item (p_id p) u (next_id s0) t) in *.
  assert (Hin : In row (tb_abastecimentos (tables s1))).
  { simpl. rewrite Hrows. apply in_or_app. right. left. reflexivity. }
  assert (Hwf : ~ (malformado (data_inicial q) fromisoformat
                   \/ malformado (data_final q) fromisoformat
                   \/ malformado (q_produto_id q) parse_uuid
                   \/ malformado (q_usuario_id q) parse_uuid)).
  { rewrite Hdi, Hdf, Hu, Hp. unfold malformado.
    intros [[x [E _]]|[[x [E _]]|[[x [E Hx]]|[x [E _]]]]];
      try discriminate E.
    destruct (str_uuid (p_id p)) eqn:Es; simpl in E; [discriminate|].
    inversion E; subst x. congruence. }
  assert (Hsat : satisfaz parse_uuid fromisoformat q row).
  { unfold satisfaz. rewrite Hdi, Hdf, Hu, Hp.
    split; [intros ? ? E; discriminate E|].
    split; [intros ? ? E; discriminate E|].
    split; [|intros ? ? E; discriminate E].
    intros x pid E Hx.
    destruct (str_uuid (p_id p)) eqn:Es; simpl in E; [discriminate|].
    inversion E; subst x. rewrite Hround in Hx. inversion Hx; subst pid.
    unfold produto_id_eq, row, linha. simpl. apply N.eqb_refl. }
  destruct (consulta_em_alguma_pagina parse_uuid fromisoformat str_uuid
              isoformat produto_nome usuario_nome order_by Hsort q
              (tables s1) row Hwf Hin Hsat) as [pg Hpg].
  exists pg. eexists. split; [exact Hpg|].
  repeat split. intros ts Hts. unfold row, linha, t. simpl.
  rewrite Hts. reflexivity.
Qed.

End IngestaoHistorico.

(** ** The stand-in sort is a sort *)

Lemma inserir_In asc a l x :
  In x (inserir asc a l) <-> x = a \/ In x l.
Proof.
  induction l as [|b l IH]; simpl.
  - split; intros [H|H]; auto.
  - destruct (vem_antes asc a b); simpl.
    + split; intros [H|H]; auto.
    + rewrite IH. split; intros H; tauto.
Qed.

Lemma ordenar_por_data_In asc l x :
  In x (ordenar_por_data asc l) <-> In x l.
Proof.
  unfold ordenar_por_data. induction l as [|a l IH]; simpl.
  - tauto.
  - rewrite inserir_In, IH. split; intros [H|H]; auto.
Qed.

Lemma vem_antes_total asc a b :
  vem_antes asc a b = false -> vem_antes asc b a = true.
Proof.
  unfold vem_antes.
  destruct (a_created_at a) as [ta|], (a_created_at b) as [tb|], asc;
    simpl; try congruence; intros H;
    apply Z.leb_gt in H; apply Z.leb_le; lia.
Qed.

Lemma vem_antes_trans asc a b c :
  vem_antes asc a b = true -> vem_antes asc b c = true ->
  vem_antes asc a c = true.
Proof.
  unfold vem_antes.
  destruct (a_created_at a) as [ta|], (a_created_at b) as [tb|],
    (a_created_at c) as [tc|], asc;
    simpl; try congruence; intros H1 H2;
    apply Z.leb_le in H1; apply Z.leb_le in H2; apply Z.leb_le; lia.
Qed.

Lemma inserir_ordem asc a l :
  ForallOrdPairs (fun x y => vem_antes asc x y = true) l ->
  ForallOrdPairs (fun x y => vem_antes asc x y = true) (inserir asc a l).
Proof.
  induction l as [|b l IH]; intros H; simpl.
  - constructor; constructor.
  - inversion H as [|b' l' Hb Hl]; subst.
    destruct (vem_antes asc a b) eqn:E.
    + constructor; [|exact H]. constructor; [exact E|].
      eapply Forall_impl; [|exact Hb]. simpl. intros c Hc.
      apply (vem_antes_trans asc a b c E Hc).
    + constructor; [|apply IH; exact Hl].
      apply Forall_forall. intros c Hc. apply inserir_In in Hc.
      destruct Hc as [->|Hc].
      * apply vem_antes_total. exact E.
      * revert c Hc. apply Forall_forall. exact Hb.
Qed.

Lemma ordenar_por_data_ordem asc l :
  ForallOrdPairs (antes_de asc) (ordenar_por_data asc l).
Proof.
  assert (H : ForallOrdPairs (fun x y => vem_antes asc x y = true)
                (ordenar_por_data asc l)).
  { unfold ordenar_por_data. induction l as [|a l IH]; simpl.
    - constructor.
    - apply inserir_ordem. exact IH. }
  induction H as [|a r Ha _ IH]; constructor; [|exact IH].
  eapply Forall_impl; [|exact Ha]. simpl. intros b Hb ta tb Eta Etb.
  unfold vem_antes in Hb. rewrite Eta, Etb in Hb.
  destruct asc; apply Z.leb_le; exact Hb.
Qed.

(** ** The further properties on the worked examples *)

Local Open Scope list_scope.

Lemma historico_page_size_witness :
  List.length (hp_items (pagina_exemplo q_todos)) <= 2
  /\ (has_next (pagina_exemplo q_todos) = true ->
      List.length (hp_items (pagina_exemplo q_todos)) = 2).
Proof.
  apply (historico_page_size uuid_hex instante_de_texto uuid_str
           texto_de_instante nome_exemplo sem_nomes ordenar_por_data
           None q_todos (srv_db srv3) (pagina_exemplo q_todos)).
  reflexivity.
Defined.

Lemma historico_has_next_iff_witness :
  exists seguinte,
    historico_exemplo None (na_pagina (pagina q_todos + 1) q_todos)
      (srv_db srv3) = Historico200 seguinte
    /\ (has_next (pagina_exemplo q_todos) = true
        <-> hp_items seguinte <> []).
Proof.
  apply (historico_has_next_iff uuid_hex instante_de_texto uuid_str
           texto_de_instante nome_exemplo sem_nomes ordenar_por_data
           q_todos (srv_db srv3) (pagina_exemplo q_todos)).
  reflexivity.
Defined.

Lemma historico_pages_cover_witness :
  varredura uuid_hex instante_de_texto uuid_str texto_de_instante
    nome_exemplo sem_nomes ordenar_por_data q_todos (srv_db srv3) 2
  = map serialize_exemplo
      (consulta ordenar_por_data q_todos conds_todos (srv_db srv3)).
Proof.
  destruct (historico_pages_cover uuid_hex instante_de_texto uuid_str
              texto_de_instante nome_exemplo sem_nomes ordenar_por_data
              q_todos (srv_db srv3) conds_todos 2 eq_refl) as [_ Hlast].
  apply (Hlast (pagina_exemplo (na_pagina 2 q_todos))).
  - lia.
  - reflexivity.
  - vm_compute. reflexivity.
Defined.

Lemma historico_filters_sound_witness :
  exists rows,
    hp_items (pagina_exemplo q_todos) = map serialize_exemplo rows
    /\ Forall (fun a => In a (tb_abastecimentos (srv_db srv3))
                        /\ satisfaz uuid_hex instante_de_texto q_todos a)
         rows.
Proof.
  apply (historico_filters_sound uuid_hex instante_de_texto uuid_str
           texto_de_instante nome_exemplo sem_nomes ordenar_por_data
           (fun asc l a => proj1 (ordenar_por_data_In asc l a))
           None q_todos (srv_db srv3) (pagina_exemplo q_todos)).
  reflexivity.
Defined.

Lemma q_todos_bem_formado :
  ~ (malformado (data_inicial q_todos) instante_de_texto
     \/ malformado (data_final q_todos) instante_de_texto
     \/ malformado (q_produto_id q_todos) uuid_hex
     \/ malformado (q_usuario_id q_todos) uuid_hex).
Proof.
  unfold malformado.
  intros [[t [E _]]|[[t [E _]]|[[t [E H]]|[t [E _]]]]];
    try discriminate E.
  inversion E; subst t. vm_compute in H. discriminate H.
Qed.

Lemma q_todos_satisfaz a :
  a_produto_id a = 1%N -> satisfaz uuid_hex instante_de_texto q_todos a.
Proof.
  intros Ha. unfold satisfaz.
  split; [intros ? ? E; discriminate E|].
  split; [intros ? ? E; discriminate E|].
  split; [|intros ? ? E; discriminate E].
  intros t pid E H. inversion E; subst t. vm_compute in H.
  inversion H; subst pid. unfold produto_id_eq. rewrite Ha. reflexivity.
Qed.

Lemma historico_filters_complete_witness :
  exists k,
    In (serialize uuid_str texto_de_instante nome_exemplo sem_nomes
          (srv_db srv3) (linha rec_a 1%N None 100%N 77%Z))
      (itens_de (historico_exemplo None (na_pagina k q_todos) (srv_db srv3))).
Proof.
  apply (historico_filters_complete uuid_hex instante_de_texto uuid_str
           texto_de_instante nome_exemplo sem_nomes ordenar_por_data
           (fun asc l a => proj2 (ordenar_por_data_In asc l a))
           q_todos (srv_db srv3) (linha rec_a 1%N None 100%N 77%Z)
           q_todos_bem_formado).
  - vm_compute. left. reflexivity.
  - apply q_todos_satisfaz. reflexivity.
Defined.

Lemma historico_in_order_witness :
  exists rows,
    varredura uuid_hex instante_de_texto uuid_str texto_de_instante
      nome_exemplo sem_nomes ordenar_por_data q_todos (srv_db srv3) 2
    = map serialize_exemplo rows
    /\ ForallOrdPairs (antes_de true) rows.
Proof.
  destruct (historico_in_order uuid_hex instante_de_texto uuid_str
              texto_de_instante nome_exemplo sem_nomes ordenar_por_data
              ordenar_por_data_ordem None q_todos (srv_db srv3))
    as [_ Hsweep].
  apply (Hsweep 2).
Defined.

Lemma bulk_ledger_append_only_witness :
  (exists novas,
      tb_abastecimentos
        (srv_db (snd (bulk_create_abastecimentos uuid_hex
                        backfill_fails_first final_ok
                        {| items := [rec_a; rec_b] |} srv1)))
      = tb_abastecimentos (srv_db srv1) ++ novas)
  /\ ids_abaixo
       (srv_next_id (snd (bulk_create_abastecimentos uuid_hex
                            backfill_fails_first final_ok
                            {| items := [rec_a; rec_b] |} srv1)))
       (tb_abastecimentos
          (srv_db (snd (bulk_create_abastecimentos uuid_hex
                          backfill_fails_first final_ok
                          {| items := [rec_a; rec_b] |} srv1)))).
Proof.
  apply (bulk_ledger_append_only uuid_hex srv1).
  vm_compute. repeat constructor.
Defined.

Lemma bulk_references_kept_witness :
  referencias_validas
    (tb_produtos
       (srv_db (snd (bulk_create_abastecimentos uuid_hex never final_ok
                       {| items := [rec_b; rec_missing] |} srv1))))
    (tb_abastecimentos
       (srv_db (snd (bulk_create_abastecimentos uuid_hex never final_ok
                       {| items := [rec_b; rec_missing] |} srv1)))).
Proof.
  apply (bulk_references_kept uuid_hex srv1).
  vm_compute. repeat constructor.
Defined.

Lemma bulk_report_accounts_witness :
  2 + List.length [conflito_produto rec_missing] <= 3
  /\ List.length ["L1"; "L2"] + List.length [conflito_produto rec_missing]
     <= 3
  /\ incl ["L1"; "L2"] (tokens [rec_a; rec_missing; rec_b])
  /\ (Forall (fun item => local_id item <> None) [rec_a; rec_missing; rec_b] ->
      List.length ["L1"; "L2"] + List.length [conflito_produto rec_missing]
      = 3).
Proof.
  apply (bulk_report_accounts uuid_hex never final_ok
           {| items := [rec_a; rec_missing; rec_b] |} srv0
           (snd (bulk_create_abastecimentos uuid_hex never final_ok
                   {| items := [rec_a; rec_missing; rec_b] |} srv0))
           {| inserted := 2; accepted := ["L1"; "L2"];
              conflicts := [conflito_produto rec_missing] |}).
  vm_compute. reflexivity.
Defined.

Lemma bulk_inserted_is_exact_witness :
  List.length
    (tb_abastecimentos
       (srv_db (snd (bulk_create_abastecimentos uuid_hex never final_ok
                       {| items := [rec_a; rec_missing; rec_b] |} srv0))))
  = List.length (tb_abastecimentos (srv_db srv0)) + 2.
Proof.
  apply (bulk_inserted_is_exact uuid_hex never final_ok
           {| items := [rec_a; rec_missing; rec_b] |} srv0
           (snd (bulk_create_abastecimentos uuid_hex never final_ok
                   {| items := [rec_a; rec_missing; rec_b] |} srv0))
           {| inserted := 2; accepted := ["L1"; "L2"];
              conflicts := [conflito_produto rec_missing] |}).
  - intros i. split; reflexivity.
  - vm_compute. reflexivity.
Defined.

Lemma bulk_all_duplicates_witness :
  fst (bulk_create_abastecimentos uuid_hex never final_ok
         {| items := [rec_a; rec_a] |} srv1)
  = Http200 {| inserted := 0; accepted := tokens [rec_a; rec_a];
               conflicts := [] |}
  /\ srv_db (snd (bulk_create_abastecimentos uuid_hex never final_ok
                    {| items := [rec_a; rec_a] |} srv1))
     = srv_db srv1.
Proof.
  apply (bulk_all_duplicates uuid_hex final_ok
           {| items := [rec_a; rec_a] |} srv1).
  - repeat constructor; vm_compute; reflexivity.
  - reflexivity.
Defined.

Lemma bulk_unresolved_record_is_neutral_witness :
  exists r r' srv' c1 c2,
    bulk_create_abastecimentos uuid_hex never final_ok
      {| items := [rec_a] ++ [rec_b] |} srv0 = (Http200 r, srv')
    /\ bulk_create_abastecimentos uuid_hex never final_ok
         {| items := [rec_a] ++ rec_missing :: [rec_b] |} srv0
       = (Http200 r', srv')
    /\ inserted r' = inserted r
    /\ accepted r' = accepted r
    /\ conflicts r = c1 ++ c2
    /\ conflicts r' = c1 ++ conflito_produto rec_missing :: c2.
Proof.
  apply (bulk_unresolved_record_is_neutral uuid_hex [rec_a] [rec_b]
           rec_missing srv0).
  reflexivity.
Defined.

Lemma inserted_record_is_in_history_witness :
  exists pg it,
    In it
      (itens_de
         (get_historico_abastecimentos uuid_hex instante_de_texto uuid_str
            texto_de_instante nome_exemplo sem_nomes ordenar_por_data None
            (na_pagina pg q_todos)
            (srv_db (snd (bulk_create_abastecimentos uuid_hex never final_ok
                            {| items := [rec_a] |} srv0)))))
    /\ h_produto_id it = uuid_str (p_id sku1)
    /\ h_quantidade it = float_or_0 (quantidade rec_a)
    /\ h_custo_unitario it = float_or_0 (custo_unitario rec_a)
    /\ h_total_custo it = float_or_0 (total_custo_or_default rec_a)
    /\ h_observacao it = observacao rec_a
    /\ (forall ts, created_at rec_a = Some ts ->
                   h_created_at it = Some (texto_de_instante ts)).
Proof.
  apply (inserted_record_is_in_history uuid_hex instante_de_texto uuid_str
           texto_de_instante nome_exemplo sem_nomes ordenar_por_data
           (fun asc l a => proj2 (ordenar_por_data_In asc l a))
           rec_a srv0
           (snd (bulk_create_abastecimentos uuid_hex never final_ok
                   {| items := [rec_a] |} srv0))
           0 sku1 q_todos);
    try reflexivity; vm_compute; reflexivity.
Defined.

Lemma bulk_unknown_id_falls_back_witness :
  resolver_produto uuid_hex no_faults rec_id_desconhecido (open_session srv0)
  = (Ok (Some (0, sku1)), open_session srv0).
Proof.
  assert (Hnone : nenhum_id 2%N (produtos (open_session srv0))).
  { intros q [<-|[]]. discriminate. }
  assert (Hone : so_este_codigo "SKU1" 0 sku1 (produtos (open_session srv0))).
  { split; [reflexivity|]. split; [reflexivity|].
    intros [|[|j]] q H _; [reflexivity|discriminate H|discriminate H]. }
  exact (proj1 (bulk_unknown_id_falls_back uuid_hex no_faults
                  rec_id_desconhecido (open_session srv0)
                  "00000000-0000-0000-0000-000000000002" 2%N
                  eq_refl eq_refl eq_refl Hnone)
           "SKU1" 0 sku1 eq_refl eq_refl Hone).
Defined.

Lemma bulk_failed_lookup_is_a_conflict_witness :
  process_item uuid_hex codigo_fails rec_a (open_session srv0)
  = (Conflito [("reason", PyStr "erro_interno");
               ("message", PyStr "connection reset");
               ("local_id", PyStr "L1")],
     open_session srv0).
Proof.
  destruct (bulk_failed_lookup_is_a_conflict uuid_hex codigo_fails rec_a
              (open_session srv0)) as [_ [_ [Hcode _]]].
  apply (Hcode "SKU1" "connection reset"); try reflexivity.
  left. left. reflexivity.
Defined.


Lemma bulk_stock_follows_ledger_witness :
  map a_quantidade
    (tb_abastecimentos
       (srv_db
          (snd (bulk_create_abastecimentos uuid_hex backfill_fails_first
                  final_ok
                  {| items := [rec_a; rec_missing; rec_c; rec_b; rec_c] |}
                  srv_dois))))
  = [10%float; 4%float; 3%float; 4%float]
  /\ estoque_de 0
       (tb_produtos
          (srv_db
             (snd (bulk_create_abastecimentos uuid_hex backfill_fails_first
                     final_ok
                     {| items := [rec_a; rec_missing; rec_c; rec_b; rec_c] |}
                     srv_dois))))
     = Some 18%float
  /\ estoque_de 1
       (tb_produtos
          (srv_db
             (snd (bulk_create_abastecimentos uuid_hex backfill_fails_first
                     final_ok
                     {| items := [rec_a; rec_missing; rec_c; rec_b; rec_c] |}
                     srv_dois))))
     = Some 8%float.
Proof.
  assert (Hnd : NoDup (map p_id (tb_produtos (srv_db srv_dois)))).
  { repeat constructor; simpl; intuition discriminate. }
  split; [vm_compute; reflexivity|]. split.
  - rewrite (bulk_stock_follows_ledger uuid_hex backfill_fails_first final_ok
               {| items := [rec_a; rec_missing; rec_c; rec_b; rec_c] |}
               srv_dois 0 sku1);
      [vm_compute; reflexivity | intros [|i]; reflexivity | exact Hnd
      | reflexivity].
  - rewrite (bulk_stock_follows_ledger uuid_hex backfill_fails_first final_ok
               {| items := [rec_a; rec_missing; rec_c; rec_b; rec_c] |}
               srv_dois 1 sku2);
      [vm_compute; reflexivity | intros [|i]; reflexivity | exact Hnd
      | reflexivity].
Defined.

Lemma bulk_failed_flush_is_not_durable_witness :
  srv_db (snd (bulk_create_abastecimentos uuid_hex flush_fails_second
                 commit_refused
                 {| items := [rec_b] ++ rec_a :: [rec_missing; rec_c] |}
                 srv0))
  = srv_db srv0
  /\ fst (bulk_create_abastecimentos uuid_hex flush_fails_second
            commit_refused
            {| items := [rec_b] ++ rec_a :: [rec_missing; rec_c] |} srv0)
     = Http500
         "Erro ao importar abastecimentos: This Session's transaction has been rolled back due to a previous exception during flush.".
Proof.
  destruct (bulk_failed_flush_is_not_durable uuid_hex flush_fails_second
              commit_refused [rec_b] [rec_missing; rec_c] rec_a srv0 0
              {| p_id := 1%N; p_codigo := "SKU1"; p_estoque := Some 8%float;
                 p_updated_at := Some 1000%Z |}
              "deadlock detected")
    as [Hdb [cs [_ [_ H500]]]].
  - vm_compute. reflexivity.
  - intros ts a Hts Hin [_ [_ [_ [_ [_ Hc]]]]].
    vm_compute in Hin. destruct Hin as [<-|[]].
    vm_compute in Hts. inversion Hts; subst ts.
    vm_compute in Hc. discriminate Hc.
  - reflexivity.
  - split; [|discriminate]. intros j c Hj. simpl in Hj.
    destruct j as [|[|j]]; [lia|lia|]. discriminate.
  - split; [exact Hdb|].
    apply (H500 recusado); [vm_compute; discriminate|reflexivity|reflexivity].
Defined.
